(** * pkg/util/tracing/tracer.go: the tracer, its wire codec and span creation

    A shallow embedding of [Tracer.InjectMetaInto], [Tracer.ExtractMetaFrom]
    and [Tracer.startSpanGeneric] / [Tracer.StartSpanCtx], with the carriers
    and the fragments of the Go standard library they call. *)

From Stdlib Require Import ZArith Lia Ascii String List Permutation.
From stdpp Require Import base option list gmap strings pretty fin_maps.

Local Open Scope string_scope.
Local Open Scope Z_scope.

(** ** Go standard library: package strings

    Go strings are byte strings; [string] is a list of 8-bit characters. *)

Module GoStrings.

(** The test that opens [strings.ToLower]: [isASCII] says that no byte of the
    string is [utf8.RuneSelf] (0x80) or above. *)
Fixpoint isASCII (s : string) : bool :=
  match s with
  | EmptyString => true
  | String c s' => (N_of_ascii c <? 128)%N && isASCII s'
  end.

(** [strings.ToLower] on an ASCII string, the path Go takes when [isASCII]
    holds: the bytes 'A'..'Z' go to 'a'..'z' and every other byte stays. On a
    string with a byte from 0x80 on, Go maps each rune through
    [unicode.ToLower], whose tables are not embedded: there this function
    leaves those bytes as they are, which Go does not always do. The
    statements that depend on what a key lower-cases to are about ASCII keys
    ([ascii_keys]), or hold of both. *)
Definition lower_byte (c : ascii) : ascii :=
  let n := N_of_ascii c in
  if ((65 <=? n) && (n <=? 90))%N then ascii_of_N (n + 32) else c.

Fixpoint ToLower (s : string) : string :=
  match s with
  | EmptyString => EmptyString
  | String c s' => String (lower_byte c) (ToLower s')
  end.

(** [strings.HasPrefix(s, prefix)]. *)
Fixpoint HasPrefix (s prefix : string) {struct prefix} : bool :=
  match prefix, s with
  | EmptyString, _ => true
  | String _ _, EmptyString => false
  | String a p, String b s' => if Ascii.eqb a b then HasPrefix s' p else false
  end.

Fixpoint drop_bytes (n : nat) (s : string) : string :=
  match n, s with
  | O, _ => s
  | S _, EmptyString => EmptyString
  | S n', String _ s' => drop_bytes n' s'
  end.

(** [strings.TrimPrefix(s, prefix)]: [s[len(prefix):]] when [s] starts with
    [prefix], [s] itself otherwise. *)
Definition TrimPrefix (s prefix : string) : string :=
  if HasPrefix s prefix then drop_bytes (String.length prefix) s else s.

End GoStrings.
Export GoStrings.

(** ** Go standard library: package strconv, base 16 and 64 bits

    A [uint64] is a [Z] in [0, 2^64); the arithmetic of the loops is written
    with its wrap-around. *)

Module GoStrconv.

Definition uint64_max : Z := 2 ^ 64 - 1.
Definition is_uint64 (z : Z) : Prop := 0 <= z <= uint64_max.
Definition wrap64 (z : Z) : Z := z mod 2 ^ 64.

(** The digit table ["0123456789abcdefghijklmnopqrstuvwxyz"], read below 16. *)
Definition digit_byte (d : Z) : ascii :=
  if d <? 10 then ascii_of_N (Z.to_N (48 + d)) else ascii_of_N (Z.to_N (87 + d)).

(** [formatBits] for a base that is a power of two: while [u >= 16] emit
    [u & 15] and shift; then emit the last digit. Sixteen hexadecimal digits
    hold a [uint64], so fifteen rounds of the loop are enough. *)
Fixpoint formatBits (rounds : nat) (u : Z) (acc : string) : string :=
  match rounds with
  | O => String (digit_byte u) acc
  | S r =>
      if 16 <=? u
      then formatBits r (Z.shiftr u 4) (String (digit_byte (Z.land u 15)) acc)
      else String (digit_byte u) acc
  end.

(** [strconv.FormatUint(u, 16)]. *)
Definition FormatUint16 (u : Z) : string := formatBits 15 u EmptyString.

Inductive NumError := ErrSyntax | ErrRange.

(** The value of one byte as a digit, as in the loop of [ParseUint]:
    ['0'..'9'], or a letter (either case, through [c | 0x20]) counted from
    ten; a digit that is not below the base is a syntax error. *)
Definition digit_val (c : ascii) : option Z :=
  let n := Z.of_N (N_of_ascii c) in
  let l := Z.lor n 32 in
  let d := if (48 <=? n) && (n <=? 57) then Some (n - 48)
           else if (97 <=? l) && (l <=? 122) then Some (l - 97 + 10)
           else None in
  match d with
  | Some d => if 16 <=? d then None else Some d
  | None => None
  end.

(** The loop of [ParseUint] with [base = 16], [bitSize = 64]:
    [cutoff = MaxUint64/16 + 1]. *)
Definition cutoff : Z := uint64_max / 16 + 1.

Fixpoint parse_loop (s : string) (n : Z) : Z + NumError :=
  match s with
  | EmptyString => inl n
  | String c s' =>
      match digit_val c with
      | None => inr ErrSyntax
      | Some d =>
          if cutoff <=? n then inr ErrRange
          else
            let n16 := wrap64 (n * 16) in
            let n1 := wrap64 (n16 + d) in
            if (n1 <? n16) || (uint64_max <? n1) then inr ErrRange
            else parse_loop s' n1
      end
  end.

(** [strconv.ParseUint(s, 16, 64)]. *)
Definition ParseUint16 (s : string) : Z + NumError :=
  match s with
  | EmptyString => inr ErrSyntax
  | _ => parse_loop s 0
  end.

(** What "a hexadecimal unsigned 64-bit integer" means, stated without the
    parser: a non-empty run of hexadecimal digits whose value, computed
    without any bound, fits 64 bits. *)
Fixpoint hex_value (s : string) (n : Z) : option Z :=
  match s with
  | EmptyString => Some n
  | String c s' =>
      match digit_val c with
      | None => None
      | Some d => hex_value s' (n * 16 + d)
      end
  end.

Definition valid_hex_uint64 (s : string) : Prop :=
  s <> EmptyString /\ exists n, hex_value s 0 = Some n /\ n <= uint64_max.

End GoStrconv.
Export GoStrconv.

(** ** The wire protocol: constants, SpanMeta, carriers *)

(** [verboseTracingBaggageKey]: goes on the wire. *)
Definition verboseTracingBaggageKey : string := "sb".

Definition prefixTracerState : string := "crdb-tracer-".
Definition prefixBaggage : string := "crdb-baggage-".
Definition prefixShadow : string := "crdb-shadow-".
Definition fieldNameTraceID : string := prefixTracerState ++ "traceid".
Definition fieldNameSpanID : string := prefixTracerState ++ "spanid".
Definition fieldNameShadowType : string := prefixTracerState ++ "shadowtype".

(** [type mode int32]. *)
Definition modeLegacy : Z := 0.
Definition modeBackground : Z := 1.

(** The recording types the tracer refers to. *)
Inductive RecordingType := RecordingOff | RecordingVerbose.

Global Instance RecordingType_eq_dec : EqDecision RecordingType.
Proof. solve_decision. Defined.

(** [serializationFormat]: [metadataFormat = opentracing.HTTPHeaders],
    [mapFormat = opentracing.TextMap]. *)
Inductive serializationFormat := metadataFormat | mapFormat.

(** The errors of the codec: ["unsupported carrier"],
    [opentracing.ErrSpanContextCorrupted], and whatever a backend reports. *)
Inductive error :=
| ErrUnsupportedCarrier
| ErrSpanContextCorrupted
| ErrBackend (msg : string).

(** A call either returns or panics. *)
Inductive outcome (A : Type) :=
| Returned (a : A)
| Panicked (msg : string).
Arguments Returned {A} a.
Arguments Panicked {A} msg.

Definition obind {A B} (o : outcome A) (k : A -> outcome B) : outcome B :=
  match o with
  | Returned a => k a
  | Panicked msg => Panicked msg
  end.

Notation "x <-! e ;; k" := (obind e (fun x => k))
  (at level 100, e at next level, right associativity, only parsing).

(** The context of the external backend ([opentracing.SpanContext]) is opaque
    to the tracer. *)
Definition ShadowCtx : Type := string.

(** [SpanMeta], with the fields of the literal that ends [ExtractMetaFrom].
    [Baggage] is a Go map: [None] is the nil map. *)
Record SpanMeta := mkSpanMeta {
  traceID : Z;
  spanID : Z;
  shadowTracerType : string;
  shadowCtx : option ShadowCtx;
  recordingType : RecordingType;
  Baggage : option (gmap string string);
}.

(** [var noopSpanMeta = &SpanMeta{}] *)
Definition noopSpanMeta : SpanMeta :=
  mkSpanMeta 0 0 EmptyString None RecordingOff None.

(** The entries of a Go map of strings; reading a nil map finds nothing. *)
Definition entries_of (m : option (gmap string string)) : gmap string string :=
  match m with
  | Some m => m
  | None => ∅
  end.

(** [m[k]] on a Go map of strings: the empty string (the zero value) when
    [k] is absent. *)
Definition index_or_zero (m : option (gmap string string)) (k : string) : string :=
  default EmptyString (entries_of m !! k).

(** Modelled from the spec: [SpanMeta.isNilOrNoop] is declared outside
    tracer.go. "A SpanMeta with trace id = 0 and span id = 0 denotes no
    tracing in effect"; a nil pointer carries no tracing either. *)
Definition isNilOrNoop (sm : option SpanMeta) : bool :=
  match sm with
  | None => true
  | Some m => (traceID m =? 0) && (spanID m =? 0)
  end.

(** The external ("shadow") backend the tracer may hold: the name its manager
    reports, the creation of a backend span (from the parent's backend
    context, the reference kind, the operation name and the start time, it
    gives the context of the new backend span) and the two calls of
    [opentracing.Tracer] the codec makes. [Inject] writes through the
    callback it is given, which is modelled by the list of the pairs written,
    in order, next to the error it returns; [Extract] receives the
    un-prefixed text map (nil if no key had the prefix). *)
Record shadowTracer := mkShadowTracer {
  manager_Name : string;
  create : option ShadowCtx -> Z -> string -> Z -> ShadowCtx;
  Inject : option ShadowCtx -> serializationFormat ->
           list (string * string) * option error;
  Extract : serializationFormat -> option (gmap string string) ->
            option ShadowCtx * option error;
}.

(** Modelled from the spec: [shadowTracer.Type] is declared outside
    tracer.go; it is the backend's "type tag", and the tracer calls it on a
    nil backend too, where there is no type. *)
Definition shadowTracer_Type (st : option shadowTracer) : string * bool :=
  match st with
  | None => (EmptyString, false)
  | Some s => (manager_Name s, true)
  end.

(** Spans live on a heap; a [*Span] is an address. *)
Definition SpanPtr : Type := positive.
Definition MapPtr : Type := positive.

(** [Tracer]: the no-op span, the mode and net-trace cells (both [int32]), the
    shadow tracer, and the registry [activeSpans.m]. *)
Record Tracer := mkTracer {
  noopSpan : SpanPtr;
  _mode : Z;
  _useNetTrace : Z;
  shadowTracer_ptr : option shadowTracer;
  activeSpans : gset SpanPtr;
}.

Definition useNetTrace (t : Tracer) : bool := negb (_useNetTrace t =? 0).
Definition getShadowTracer (t : Tracer) : option shadowTracer := shadowTracer_ptr t.
Definition mode (t : Tracer) : Z := _mode t.

(** [AlwaysTrace] *)
Definition AlwaysTrace (t : Tracer) : bool :=
  let shadowTr := getShadowTracer t in
  useNetTrace t || (if shadowTr is Some _ then true else false).

(** ** Carriers *)

(** The carriers a caller can hand in: [MapCarrier], whose [Map] field is a Go
    map (nil when [None]); [metadataCarrier]; and any other implementation of
    the [Carrier] interface, which the codec rejects before it calls it. *)
Inductive Carrier :=
| MapCarrier (Map : option (gmap string string))
| metadataCarrier (MD : gmap string string)
| otherCarrier.

(** The type switch that opens both codec functions. *)
Definition carrier_format (carrier : Carrier) : option serializationFormat :=
  match carrier with
  | MapCarrier _ => Some mapFormat
  | metadataCarrier _ => Some metadataFormat
  | otherCarrier => None
  end.

(** [MapCarrier.Set]: [c.Map[key] = val], which panics on a nil map. *)
Definition MapCarrier_Set (key val : string) (Map : option (gmap string string)) :
    outcome (option (gmap string string)) :=
  match Map with
  | None => Panicked "assignment to entry in nil map"
  | Some m => Returned (Some (<[key:=val]> m))
  end.

(** Modelled from the spec: [metadataCarrier] and its methods are declared
    outside tracer.go. It is the carrier of "RPC metadata headers", one of the
    "two physical carrier kinds ... sharing one logical encoding", behind the
    same "minimal key/value read-write interface": a string-keyed store whose
    [Set] writes the pair. *)
Definition metadataCarrier_Set (key val : string) (MD : gmap string string) :
    gmap string string :=
  <[key:=val]> MD.

(** Modelled from the spec: [metadataCarrier.ForEach] is declared outside
    tracer.go; behind the "key/value read-write interface" it visits the
    pairs the store holds. *)
Definition metadataCarrier_pairs (MD : gmap string string) : gmap string string :=
  MD.

(** [carrier.Set(key, val)] through the interface. The codec rejects any
    other carrier before it calls it. *)
Definition Carrier_Set (key val : string) (c : Carrier) : outcome Carrier :=
  match c with
  | MapCarrier Map => m <-! MapCarrier_Set key val Map ;; Returned (MapCarrier m)
  | metadataCarrier MD => Returned (metadataCarrier (metadataCarrier_Set key val MD))
  | otherCarrier => Returned otherCarrier
  end.

(** The pairs a carrier holds: those [ForEach] visits. [MapCarrier.ForEach]
    ranges over [c.Map]. *)
Definition carrier_entries (c : Carrier) : gmap string string :=
  match c with
  | MapCarrier m => entries_of m
  | metadataCarrier MD => metadataCarrier_pairs MD
  | otherCarrier => ∅
  end.

(** [ForEach] ranges over a Go map, in an order the language leaves open: an
    order of visit is any arrangement of the pairs held. *)
Definition ForEachOrder (c : Carrier) (order : list (string * string)) : Prop :=
  order ≡ₚ map_to_list (carrier_entries c).

(** [ForEach(fn)]: call [fn] on each pair and stop at the first error. The
    variables the closure [fn] captures are its state [S]. *)
Fixpoint ForEach {S : Type} (fn : S -> string -> string -> S + error)
    (st : S) (order : list (string * string)) : S + error :=
  match order with
  | [] => inl st
  | (k, v) :: rest =>
      match fn st k v with
      | inl st' => ForEach fn st' rest
      | inr err => inr err
      end
  end.

(** A run of [Set] calls, in order. *)
Fixpoint Set_all (kvs : list (string * string)) (c : Carrier) : outcome Carrier :=
  match kvs with
  | [] => Returned c
  | (k, v) :: rest => c' <-! Carrier_Set k v c ;; Set_all rest c'
  end.

Definition with_prefix (prefix : string) (kvs : list (string * string)) :
    list (string * string) :=
  (fun kv => (prefix ++ kv.1, kv.2)) <$> kvs.

(** ** InjectMetaInto *)

(** [InjectMetaInto]. The range over [sm.Baggage] visits distinct keys, so
    the order of the [Set] calls does not show in the carrier
    ([Set_all_order]); the order of [map_to_list] stands for any. *)
Definition InjectMetaInto (t : Tracer) (sm : option SpanMeta) (carrier : Carrier) :
    outcome (Carrier * option error) :=
  if isNilOrNoop sm then Returned (carrier, None)
  else
    match sm, carrier_format carrier with
    | None, _ => Panicked "nil pointer dereference"
    | Some _, None => Returned (carrier, Some ErrUnsupportedCarrier)
    | Some sm, Some format =>
        c <-! Carrier_Set fieldNameTraceID (FormatUint16 (traceID sm)) carrier ;;
        c <-! Carrier_Set fieldNameSpanID (FormatUint16 (spanID sm)) c ;;
        c <-! Set_all (with_prefix prefixBaggage
                         (map_to_list (entries_of (Baggage sm)))) c ;;
        match getShadowTracer t with
        | None => Returned (c, None)
        | Some shadowTr =>
            let '(curTyp, _) := shadowTracer_Type (Some shadowTr) in
            if decide (shadowTracerType sm = curTyp) then
              c <-! Carrier_Set fieldNameShadowType (shadowTracerType sm) c ;;
              let '(written, err) := Inject shadowTr (shadowCtx sm) format in
              c <-! Set_all (with_prefix prefixShadow written) c ;;
              Returned (c, err)
            else Returned (c, None)
        end
    end.

(** ** ExtractMetaFrom *)

(** The variables the callback of [ExtractMetaFrom] assigns. *)
Record extracted := mkExtracted {
  x_shadowType : string;
  x_shadowCarrier : option (gmap string string);
  x_traceID : Z;
  x_spanID : Z;
  x_baggage : option (gmap string string);
}.

Definition extracted_zero : extracted :=
  mkExtracted EmptyString None 0 0 None.

(** The callback: the switch on the lower-cased key. *)
Definition extract_visit (st : extracted) (k v : string) : extracted + error :=
  let k := ToLower k in
  if decide (k = fieldNameTraceID) then
    match ParseUint16 v with
    | inl n => inl (mkExtracted (x_shadowType st) (x_shadowCarrier st) n
                      (x_spanID st) (x_baggage st))
    | inr _ => inr ErrSpanContextCorrupted
    end
  else if decide (k = fieldNameSpanID) then
    match ParseUint16 v with
    | inl n => inl (mkExtracted (x_shadowType st) (x_shadowCarrier st)
                      (x_traceID st) n (x_baggage st))
    | inr _ => inr ErrSpanContextCorrupted
    end
  else if decide (k = fieldNameShadowType) then
    inl (mkExtracted v (x_shadowCarrier st) (x_traceID st) (x_spanID st)
           (x_baggage st))
  else if HasPrefix k prefixBaggage then
    inl (mkExtracted (x_shadowType st) (x_shadowCarrier st) (x_traceID st)
           (x_spanID st)
           (Some (<[TrimPrefix k prefixBaggage := v]> (entries_of (x_baggage st)))))
  else if HasPrefix k prefixShadow then
    inl (mkExtracted (x_shadowType st)
           (Some (<[TrimPrefix k prefixShadow := v]> (entries_of (x_shadowCarrier st))))
           (x_traceID st) (x_spanID st) (x_baggage st))
  else inl st.

(** What follows the loop once it ended without an error. A nil shadow tracer
    has the empty type, which differs from the non-empty [shadowType]. *)
Definition extract_finish (t : Tracer) (format : serializationFormat)
    (st : extracted) : SpanMeta * option error :=
  if (x_traceID st =? 0) && (x_spanID st =? 0) then (noopSpanMeta, None)
  else
    let recordingType :=
      if decide (index_or_zero (x_baggage st) verboseTracingBaggageKey = EmptyString)
      then RecordingOff else RecordingVerbose in
    let done shadowType shadowCtx :=
      (mkSpanMeta (x_traceID st) (x_spanID st) shadowType shadowCtx recordingType
         (x_baggage st), None) in
    if decide (x_shadowType st = EmptyString) then done EmptyString None
    else
      let shadowTr := getShadowTracer t in
      let '(curShadowTyp, _) := shadowTracer_Type shadowTr in
      match shadowTr with
      | Some shadowTr =>
          if decide (x_shadowType st = curShadowTyp) then
            match Extract shadowTr format (x_shadowCarrier st) with
            | (_, Some err) => (noopSpanMeta, Some err)
            | (shadowCtx, None) => done (x_shadowType st) shadowCtx
            end
          else done EmptyString None
      | None => done EmptyString None
      end.

(** [ExtractMetaFrom], given the order in which [ForEach] visits the pairs. *)
Definition ExtractMetaFrom (t : Tracer) (carrier : Carrier)
    (order : list (string * string)) : SpanMeta * option error :=
  match carrier_format carrier with
  | None => (noopSpanMeta, Some ErrUnsupportedCarrier)
  | Some format =>
      match ForEach extract_visit extracted_zero order with
      | inr err => (noopSpanMeta, Some err)
      | inl st => extract_finish t format st
      end
  end.

(** ** Spans and the heap *)

Definition maxLogsPerSpan : Z := 1000.
Definition maxChildrenPerSpan : Z := 1000.

(** [opentracing.ChildOfRef] and [opentracing.FollowsFromRef]. *)
Definition ChildOfRef : Z := 0.
Definition FollowsFromRef : Z := 1.

(** A [*logtags.Buffer], read through [Get]: the tags in order. *)
Definition LogTags : Type := list (string * string).

(** The span of the external backend inside a span ([otSpan]): the type of
    the backend that made it, its context and what the tracer has set on
    it. *)
Record ShadowSpan := mkShadowSpan {
  ss_type : string;
  ss_context : ShadowCtx;
  ss_tags : gmap string string;
  ss_baggage : gmap string string;
}.

(** The [trace.Trace] of x/net/trace inside a span. *)
Record NetTrace := mkNetTrace {
  nt_family : string;
  nt_title : string;
  nt_maxEvents : Z;
  nt_events : list (string * string);
}.

(** [crdbSpan], with the fields the literal in [startSpanGeneric] fills and
    those of [mu] the tracer touches: [duration], [baggage] (a Go map, held by
    reference: [None] is nil), the tags and the recording type. *)
Record crdbSpan := mkCrdbSpan {
  c_traceID : Z;
  c_spanID : Z;
  c_goroutineID : Z;
  c_operation : string;
  c_startTime : Z;
  c_parentSpanID : Z;
  c_logTags : option LogTags;
  c_recording : RecordingType;
  mu_duration : Z;
  mu_baggage : option MapPtr;
  mu_tags : gmap string string;
}.

(** [Span]: [crdb] is nil in the no-op span [&Span{tracer: t}]. The back
    pointer [tracer] is not read by the code modelled here. *)
Record Span := mkSpan {
  crdb : option crdbSpan;
  ot : option ShadowSpan;
  netTr : option NetTrace;
}.

(** The heap: the spans by address and the Go maps that hold baggage, by
    address too, so that two spans can be seen to share a map or not. *)
Record Heap := mkHeap {
  spans : gmap SpanPtr Span;
  maps : gmap MapPtr (gmap string string);
}.

(** [NewTracer]: the registry starts empty and the no-op span is allocated
    once. *)
Definition NewTracer (h : Heap) : Tracer * Heap :=
  let p := fresh (dom (spans h)) in
  (mkTracer p 0 0 None ∅,
   mkHeap (<[p := mkSpan None None None]> (spans h)) (maps h)).

(** [spanOptions], with the fields [startSpanGeneric] reads. *)
Record spanOptions := mkSpanOptions {
  Parent : option SpanPtr;
  RemoteParent : option SpanMeta;
  RefType : Z;
  LogTags_opt : option LogTags;
  Tags : option (gmap string string);
  ForceRealSpan : bool;
  BypassRegistry : bool;
}.

(** [var opts spanOptions] *)
Definition spanOptions_zero : spanOptions :=
  mkSpanOptions None None 0 None None false false.

Definition set_ForceRealSpan (b : bool) (o : spanOptions) : spanOptions :=
  mkSpanOptions (Parent o) (RemoteParent o) (RefType o) (LogTags_opt o) (Tags o)
    b (BypassRegistry o).

Definition set_LogTags (l : option LogTags) (o : spanOptions) : spanOptions :=
  mkSpanOptions (Parent o) (RemoteParent o) (RefType o) l (Tags o)
    (ForceRealSpan o) (BypassRegistry o).

(** The record of a span, if the address holds a span that has one. *)
Definition crdb_at (h : Heap) (p : SpanPtr) : option crdbSpan :=
  sp ← spans h !! p; crdb sp.

(** Modelled from the spec: [Span.isNoop] is declared outside tracer.go. The
    no-op span is "the zero-overhead placeholder", told from a real span by
    "the nil-ness of the record": it has no span record. *)
Definition isNoop (h : Heap) (p : SpanPtr) : bool :=
  if crdb_at h p is Some _ then false else true.

(** The baggage a span holds: the entries of the map its record points to. *)
Definition baggage_at (h : Heap) (p : SpanPtr) : gmap string string :=
  match crdb_at h p with
  | Some c =>
      match mu_baggage c with
      | Some mp => default ∅ (maps h !! mp)
      | None => ∅
      end
  | None => ∅
  end.

(** The methods of [spanOptions], declared outside tracer.go. *)
Module Opts.

(** Modelled from the spec: [spanOptions.recordingType] is declared outside
    tracer.go. "A local parent propagates its set recording-type; a remote
    parent's flag is used only if no local parent"; a no-op span records
    nothing. *)
Definition recordingType (h : Heap) (opts : spanOptions) : RecordingType :=
  match Parent opts with
  | Some p =>
      match crdb_at h p with
      | Some c => c_recording c
      | None => RecordingOff
      end
  | None =>
      match RemoteParent opts with
      | Some sm => recordingType sm
      | None => RecordingOff
      end
  end.

(** Modelled from the spec: [spanOptions.parentTraceID] is declared outside
    tracer.go. The trace id is the "parent's trace id if provided"; zero says
    that no parent provides one. *)
Definition parentTraceID (h : Heap) (opts : spanOptions) : Z :=
  match Parent opts with
  | Some p =>
      match crdb_at h p with
      | Some c => c_traceID c
      | None => 0
      end
  | None =>
      match RemoteParent opts with
      | Some sm => traceID sm
      | None => 0
      end
  end.

(** Modelled from the spec: [spanOptions.parentSpanID] is declared outside
    tracer.go; it is the "parent span id (0 if root)". *)
Definition parentSpanID (h : Heap) (opts : spanOptions) : Z :=
  match Parent opts with
  | Some p =>
      match crdb_at h p with
      | Some c => c_spanID c
      | None => 0
      end
  | None =>
      match RemoteParent opts with
      | Some sm => spanID sm
      | None => 0
      end
  end.

(** Modelled from the spec: [spanOptions.shadowTrTyp] is declared outside
    tracer.go; it is the "backend type" that is set or "unset on the parent
    reference": a local parent has that of its backend sub-span, a remote
    parent names it in its SpanMeta. *)
Definition shadowTrTyp (h : Heap) (opts : spanOptions) : string * bool :=
  match Parent opts with
  | Some p =>
      match sp ← spans h !! p; ot sp with
      | Some ss => (ss_type ss, true)
      | None => (EmptyString, false)
      end
  | None =>
      match RemoteParent opts with
      | Some sm =>
          if decide (shadowTracerType sm = EmptyString) then (EmptyString, false)
          else (shadowTracerType sm, true)
      | None => (EmptyString, false)
      end
  end.

End Opts.

(** Modelled from the spec: [crdbSpan.enableRecording] is declared outside
    tracer.go; it is where the new span gets the recording verbosity that was
    determined for it. (The link to the parent it also makes serves the
    roll-up of recordings at Finish.) *)
Definition enableRecording (h : Heap) (s : SpanPtr) (recType : RecordingType) :
    Heap :=
  match spans h !! s with
  | Some (mkSpan (Some c) o n) =>
      let c' := mkCrdbSpan (c_traceID c) (c_spanID c) (c_goroutineID c)
                  (c_operation c) (c_startTime c) (c_parentSpanID c) (c_logTags c)
                  recType (mu_duration c) (mu_baggage c) (mu_tags c) in
      mkHeap (<[s := mkSpan (Some c') o n]> (spans h)) (maps h)
  | _ => h
  end.

(** Modelled from the spec: [Span.SetTag] is declared outside tracer.go; it
    "mutates the guarded record state" and "mirrors into any attached backend
    sub-span", and is a no-op on the no-op span. *)
Definition SetTag (h : Heap) (s : SpanPtr) (k v : string) : Heap :=
  match spans h !! s with
  | Some (mkSpan (Some c) o n) =>
      let c' := mkCrdbSpan (c_traceID c) (c_spanID c) (c_goroutineID c)
                  (c_operation c) (c_startTime c) (c_parentSpanID c) (c_logTags c)
                  (c_recording c) (mu_duration c) (mu_baggage c)
                  (<[k:=v]> (mu_tags c)) in
      let o' := (fun ss => mkShadowSpan (ss_type ss) (ss_context ss)
                             (<[k:=v]> (ss_tags ss)) (ss_baggage ss)) <$> o in
      let n' := (fun nt => mkNetTrace (nt_family nt) (nt_title nt) (nt_maxEvents nt)
                             (nt_events nt ++ [(k, v)])) <$> n in
      mkHeap (<[s := mkSpan (Some c') o' n']> (spans h)) (maps h)
  | _ => h
  end.

(** A write to the baggage of a record, which is a Go map held by reference:
    the entry goes into the map the record points to; a record whose map is
    nil gets a new map first. The result is the address of the map written
    and the maps after the write. *)
Definition write_baggage (ms : gmap MapPtr (gmap string string))
    (baggage : option MapPtr) (k v : string) :
    MapPtr * gmap MapPtr (gmap string string) :=
  match baggage with
  | Some mp => (mp, <[mp := <[k:=v]> (default ∅ (ms !! mp))]> ms)
  | None =>
      let mp := fresh (dom ms) in
      (mp, <[mp := {[k := v]}]> ms)
  end.

(** Modelled from the spec: [Span.SetBaggageItem] is declared outside
    tracer.go; it "mutates the guarded record state", here the "baggage
    (mapping string to string, keys unique)", "mirrors into any attached
    backend sub-span", and is a no-op on the no-op span. *)
Definition SetBaggageItem (h : Heap) (s : SpanPtr) (k v : string) : Heap :=
  match spans h !! s with
  | Some (mkSpan (Some c) o n) =>
      let written := write_baggage (maps h) (mu_baggage c) k v in
      let c' := mkCrdbSpan (c_traceID c) (c_spanID c) (c_goroutineID c)
                  (c_operation c) (c_startTime c) (c_parentSpanID c) (c_logTags c)
                  (c_recording c) (mu_duration c) (Some written.1) (mu_tags c) in
      let o' := (fun ss => mkShadowSpan (ss_type ss) (ss_context ss) (ss_tags ss)
                             (<[k:=v]> (ss_baggage ss))) <$> o in
      mkHeap (<[s := mkSpan (Some c') o' n]> (spans h)) written.2
  | _ => h
  end.

(** [for k, v := range m { s.SetBaggageItem(k, v) }]: the keys of a map are
    distinct, so the order of the writes does not show in the baggage
    ([SetBaggageItems_self], [store_all_order]). *)
Definition SetBaggageItems (h : Heap) (s : SpanPtr)
    (kvs : list (string * string)) : Heap :=
  foldl (fun h kv => SetBaggageItem h s kv.1 kv.2) h kvs.

(** [for k, v := range opts.Tags { s.SetTag(k, v) }] *)
Definition SetTags (h : Heap) (s : SpanPtr) (kvs : list (string * string)) : Heap :=
  foldl (fun h kv => SetTag h s kv.1 kv.2) h kvs.

(** ** Propagation contexts *)

(** The values of [context.Context] that matter here: the sentinel [noCtx] of
    [StartSpan]; a context of the caller with the log tags it carries; a
    context that embeds a span. *)
Inductive Context :=
| noCtx
| callerCtx (tags : option LogTags)
| spanCtx (parent : Context) (sp : SpanPtr).

Global Instance Context_eq_dec : EqDecision Context.
Proof. solve_decision. Defined.

(** [logtags.FromContext] *)
Fixpoint logtags_FromContext (ctx : Context) : option LogTags :=
  match ctx with
  | noCtx => None
  | callerCtx tags => tags
  | spanCtx parent _ => logtags_FromContext parent
  end.

(** [SpanFromContext]: the span a context embeds, if any. *)
Definition SpanFromContext (ctx : Context) : option SpanPtr :=
  match ctx with
  | spanCtx _ sp => Some sp
  | _ => None
  end.

(** Modelled from the spec: [maybeWrapCtx] is declared outside tracer.go. The
    no-op span is returned "paired with the input propagation context
    unchanged (no allocation)": called without a wrapper to fill ([octx] is
    nil, as on the fast path), it gives back the context it was given. Called
    with the "context wrapper" that was allocated next to a real span, it
    gives a context that holds the span; for [noCtx], which [StartSpan]
    passes, there is "no caller-visible propagation context" and [noCtx]
    comes back. *)
Definition maybeWrapCtx (ctx : Context) (octx : bool) (sp : SpanPtr) :
    Context * SpanPtr :=
  if decide (ctx = noCtx) then (noCtx, sp)
  else if octx then (spanCtx ctx sp, sp)
  else (ctx, sp).

(** ** startSpanGeneric *)

(** What the runtime hands to one call: the clock, the goroutine id and the
    next two results of [rand.Int63()], each in [0, 2^63). *)
Record Env := mkEnv {
  now : Z;
  goid : Z;
  Int63_1 : Z;
  Int63_2 : Z;
}.

Definition is_Int63 (z : Z) : Prop := 0 <= z < 2 ^ 63.

(** Modelled from the spec: [setLogTags] is declared outside tracer.go; log
    tags are forwarded "as backend-native tags", one call per tag. *)
Definition setLogTags {A} (tags : LogTags) (fn : A -> string -> string -> A)
    (a : A) : A :=
  foldl (fun a kv => fn a kv.1 kv.2) a tags.

(** Modelled from the spec: [makeShadowSpan] is declared outside tracer.go;
    it is the backend's "create(parentBackendContext, refKind, opName,
    startTime)", which gives the backend span. *)
Definition makeShadowSpan (shadowTr : shadowTracer) (shadowCtx : option ShadowCtx)
    (refType : Z) (opName : string) (startTime : Z) : ShadowSpan :=
  mkShadowSpan (manager_Name shadowTr)
    (create shadowTr shadowCtx refType opName startTime) ∅ ∅.

(** The external sub-span of a new span (the block that fills [ot]). *)
Definition make_ot (t : Tracer) (h : Heap) (opts : spanOptions) (opName : string)
    (startTime : Z) : option ShadowSpan :=
  let shadowTr := getShadowTracer t in
  let '(typ1, ok1) := Opts.shadowTrTyp h opts in
  let '(typ2, ok2) := shadowTracer_Type shadowTr in
  match shadowTr with
  | Some shadowTr =>
      if ok2 && (negb ok1 || bool_decide (typ1 = typ2)) then
        let shadowCtx :=
          p ← Parent opts; sp ← spans h !! p; ss ← ot sp; Some (ss_context ss) in
        let ot := makeShadowSpan shadowTr shadowCtx (RefType opts) opName startTime in
        match LogTags_opt opts with
        | Some tags =>
            Some (setLogTags tags
                    (fun ss k v => mkShadowSpan (ss_type ss) (ss_context ss)
                                     (<[k:=v]> (ss_tags ss)) (ss_baggage ss)) ot)
        | None => Some ot
        end
      else None
  | None => None
  end.

(** The net-trace sub-span of a new span (the block that fills [netTr]). *)
Definition make_netTr (t : Tracer) (opts : spanOptions) (opName : string) :
    option NetTrace :=
  if useNetTrace t then
    let nt := mkNetTrace "tracing" opName maxLogsPerSpan [] in
    match LogTags_opt opts with
    | Some tags =>
        Some (setLogTags tags
                (fun nt k v => mkNetTrace (nt_family nt) (nt_title nt)
                                 (nt_maxEvents nt) (nt_events nt ++ [(k, v)])) nt)
    | None => Some nt
    end
  else None.

(** The part of [startSpanGeneric] that makes a real span, from the second
    look at [opts.LogTags] to the end. The locks taken around the registry and
    the parent's baggage do not show in a sequential run. *)
Definition startRealSpan (t : Tracer) (h : Heap) (env : Env) (ctx : Context)
    (opName : string) (opts : spanOptions) : Tracer * Heap * (Context * SpanPtr) :=
  let opts :=
    match LogTags_opt opts, Parent opts with
    | None, Some p =>
        match crdb_at h p with
        | Some c => set_LogTags (c_logTags c) opts
        | None => opts
        end
    | _, _ => opts
    end in
  let startTime := now env in
  let ot := make_ot t h opts opName startTime in
  let netTr := make_netTr t opts opName in
  let traceID := Opts.parentTraceID h opts in
  let '(traceID, next_Int63) :=
    if traceID =? 0 then (Int63_1 env, Int63_2 env) else (traceID, Int63_1 env) in
  let spanID := next_Int63 in
  let goroutineID := goid env in
  let crdbSpan :=
    mkCrdbSpan traceID spanID goroutineID opName startTime
      (Opts.parentSpanID h opts) (LogTags_opt opts) RecordingOff (-1) None ∅ in
  let s := fresh (dom (spans h)) in
  let h := mkHeap (<[s := mkSpan (Some crdbSpan) ot netTr]> (spans h)) (maps h) in
  let h := enableRecording h s (Opts.recordingType h opts) in
  let h := SetTags h s (map_to_list (default ∅ (Tags opts))) in
  match Parent opts with
  | Some p =>
      let h :=
        if isNoop h p then h
        else SetBaggageItems h s (map_to_list (baggage_at h p)) in
      (t, h, maybeWrapCtx ctx true s)
  | None =>
      let t :=
        if BypassRegistry opts then t
        else mkTracer (noopSpan t) (_mode t) (_useNetTrace t) (shadowTracer_ptr t)
               ({[s]} ∪ activeSpans t) in
      let h :=
        match RemoteParent opts with
        | Some sm => SetBaggageItems h s (map_to_list (entries_of (Baggage sm)))
        | None => h
        end in
      (t, h, maybeWrapCtx ctx true s)
  end.

(** [startSpanGeneric]. The reference type is an integer type, which
    [fmt.Sprintf] prints in decimal under [%v]. *)
Definition startSpanGeneric (t : Tracer) (h : Heap) (env : Env) (ctx : Context)
    (opName : string) (opts : spanOptions) :
    outcome (Tracer * Heap * (Context * SpanPtr)) :=
  if negb (RefType opts =? ChildOfRef) && negb (RefType opts =? FollowsFromRef) then
    Panicked ("unexpected RefType " ++ pretty (RefType opts))%string
  else if (if Parent opts is Some _ then true else false)
          && (if RemoteParent opts is Some _ then true else false) then
    Panicked "can't specify both Parent and RemoteParent"
  else
    let opts :=
      if mode t =? modeBackground then set_ForceRealSpan true opts else opts in
    let opts :=
      if LogTags_opt opts is None then set_LogTags (logtags_FromContext ctx) opts
      else opts in
    if negb (AlwaysTrace t)
       && bool_decide (Opts.recordingType h opts = RecordingOff)
       && negb (ForceRealSpan opts)
    then Returned (t, h, maybeWrapCtx ctx false (noopSpan t))
    else Returned (startRealSpan t h env ctx opName opts).

(** A [SpanOption] is something with an [apply] method on [spanOptions]. *)
Definition SpanOption : Type := spanOptions -> spanOptions.

(** [StartSpanCtx]: apply the options to the zero [spanOptions], in order. *)
Definition apply_options (os : list SpanOption) : spanOptions :=
  foldl (fun opts o => o opts) spanOptions_zero os.

Definition StartSpanCtx (t : Tracer) (h : Heap) (env : Env) (ctx : Context)
    (operationName : string) (os : list SpanOption) :
    outcome (Tracer * Heap * (Context * SpanPtr)) :=
  let opts := apply_options os in
  startSpanGeneric t h env ctx operationName opts.

(** [StartSpan] *)
Definition StartSpan (t : Tracer) (h : Heap) (env : Env) (operationName : string)
    (os : list SpanOption) : outcome (Tracer * Heap * SpanPtr) :=
  r <-! StartSpanCtx t h env noCtx operationName os ;;
  Returned (r.1.1, r.1.2, r.2.2).

(** The ids of a span as its holder reads them: those of its record, and zero
    for a span without a record. *)
Definition Span_traceID (h : Heap) (p : SpanPtr) : Z :=
  if crdb_at h p is Some c then c_traceID c else 0.
Definition Span_spanID (h : Heap) (p : SpanPtr) : Z :=
  if crdb_at h p is Some c then c_spanID c else 0.

(** ** Notions used in the statements *)

(** The pairs [InjectMetaInto] writes for a SpanMeta that carries tracing, in
    order, and the error it returns. *)
Definition inject_shadow_writes (t : Tracer) (sm : SpanMeta)
    (format : serializationFormat) : list (string * string) * option error :=
  match getShadowTracer t with
  | None => ([], None)
  | Some shadowTr =>
      if decide (shadowTracerType sm = manager_Name shadowTr) then
        let r := Inject shadowTr (shadowCtx sm) format in
        ((fieldNameShadowType, shadowTracerType sm) :: with_prefix prefixShadow r.1,
         r.2)
      else ([], None)
  end.

Definition inject_writes (t : Tracer) (sm : SpanMeta)
    (format : serializationFormat) : list (string * string) :=
  (fieldNameTraceID, FormatUint16 (traceID sm))
  :: (fieldNameSpanID, FormatUint16 (spanID sm))
  :: with_prefix prefixBaggage (map_to_list (entries_of (Baggage sm)))
  ++ (inject_shadow_writes t sm format).1.

(** The store a carrier holds after a run of writes. *)
Definition store_all (kvs : list (string * string)) (m : gmap string string) :
    gmap string string :=
  foldl (fun m kv => <[kv.1 := kv.2]> m) m kvs.

(** A carrier of a supported kind that [Set] can write to. *)
Definition writable (c : Carrier) : Prop :=
  match c with
  | MapCarrier (Some _) | metadataCarrier _ => True
  | _ => False
  end.

(** An empty carrier of a supported kind. *)
Definition empty_carrier (c : Carrier) : Prop :=
  c = MapCarrier (Some ∅) \/ c = metadataCarrier ∅.

(** Replace the store of a carrier, keeping its kind. *)
Definition with_store (c : Carrier) (m : gmap string string) : Carrier :=
  match c with
  | MapCarrier _ => MapCarrier (Some m)
  | metadataCarrier _ => metadataCarrier m
  | otherCarrier => otherCarrier
  end.

(** The same SpanMeta with another recording type. *)
Definition with_recordingType (rt : RecordingType) (sm : SpanMeta) : SpanMeta :=
  mkSpanMeta (traceID sm) (spanID sm) (shadowTracerType sm) (shadowCtx sm) rt
    (Baggage sm).

(** An attached backend that reports no error. *)
Definition backend_ok (t : Tracer) : Prop :=
  forall shadowTr, getShadowTracer t = Some shadowTr ->
    (forall ctx format, (Inject shadowTr ctx format).2 = None) /\
    (forall format m, (Extract shadowTr format m).2 = None).

(** Two pairs that differ at most in the letter case of the key. *)
Definition same_up_to_key_case (a b : string * string) : Prop :=
  ToLower a.1 = ToLower b.1 /\ a.2 = b.2.

(** A carrier is a case variant of another when it has the same kind and its
    pairs are those of the other, one for one, up to the letter case of the
    keys. *)
Definition case_variant (c c' : Carrier) : Prop :=
  carrier_format c = carrier_format c' /\
  exists l l', ForEachOrder c l /\ ForEachOrder c' l' /\
               Forall2 same_up_to_key_case l l'.

(** The keys of a store are ASCII strings: on these [ToLower] is Go's
    [strings.ToLower]. *)
Definition ascii_keys (m : gmap string string) : Prop :=
  forall k, is_Some (m !! k) -> isASCII k = true.

(** Options that pass the two checks that open [startSpanGeneric]. *)
Definition valid_options (opts : spanOptions) : Prop :=
  (RefType opts = ChildOfRef \/ RefType opts = FollowsFromRef) /\
  (Parent opts = None \/ RemoteParent opts = None).

(** The options with which [startSpanGeneric] goes on after its checks. *)
Definition adjusted (t : Tracer) (ctx : Context) (opts : spanOptions) : spanOptions :=
  let opts :=
    if mode t =? modeBackground then set_ForceRealSpan true opts else opts in
  if LogTags_opt opts is None then set_LogTags (logtags_FromContext ctx) opts
  else opts.

(** The test that decides between the no-op span and a real one, on the
    options as the caller gave them: a real span is made in Background mode,
    with net trace or a backend, when recording, or when forced. *)
Definition real_span_wanted (t : Tracer) (h : Heap) (opts : spanOptions) : bool :=
  (mode t =? modeBackground) || AlwaysTrace t
  || negb (bool_decide (Opts.recordingType h opts = RecordingOff))
  || ForceRealSpan opts.

(** The trace id and span id of the record of a span. *)
Definition ids_at (h : Heap) (q : SpanPtr) : option (Z * Z) :=
  (fun c => (c_traceID c, c_spanID c)) <$> crdb_at h q.

(** The address of the baggage map of a span that has a record. *)
Definition baggage_ptr (h : Heap) (p : SpanPtr) : option (option MapPtr) :=
  mu_baggage <$> crdb_at h p.

(** The baggage map of [p], if it has one, is allocated. *)
Definition baggage_allocated (h : Heap) (p : SpanPtr) : Prop :=
  forall mp, baggage_ptr h p = Some (Some mp) -> mp ∈ dom (maps h).

(** The span [s] does not write to the baggage map of [p]: the map of [p] is
    allocated and is not the map of [s]. *)
Definition separate_baggage (h : Heap) (s p : SpanPtr) : Prop :=
  forall mp, baggage_ptr h p = Some (Some mp) ->
    mp ∈ dom (maps h) /\ baggage_ptr h s <> Some (Some mp).

(** ** Concrete tracers, carriers and SpanMetas used in the examples *)

(** Options as the package makes them: each sets its field. *)
Definition opt_Parent (p : SpanPtr) : SpanOption :=
  fun o => mkSpanOptions (Some p) (RemoteParent o) (RefType o) (LogTags_opt o)
             (Tags o) (ForceRealSpan o) (BypassRegistry o).
Definition opt_RemoteParent (sm : SpanMeta) : SpanOption :=
  fun o => mkSpanOptions (Parent o) (Some sm) (RefType o) (LogTags_opt o)
             (Tags o) (ForceRealSpan o) (BypassRegistry o).
Definition opt_ForceRealSpan : SpanOption := set_ForceRealSpan true.

(** The heap after [NewTracer] on an empty heap: the no-op span at address 1. *)
Definition heap_plain : Heap := mkHeap {[ 1%positive := mkSpan None None None ]} ∅.

(** A heap with, besides, a real span at address 2 that holds one baggage
    entry in the map at address 1. *)
Definition heap_parent : Heap :=
  mkHeap {[ 1%positive := mkSpan None None None;
            2%positive := mkSpan (Some (mkCrdbSpan 7 8 1 "parent" 0 0 None
                                          RecordingOff (-1) (Some 1%positive) ∅))
                            None None ]}
         {[ 1%positive := {[ "k" := "v" ]} ]}.

(** The first draw of [rand.Int63()] is zero. *)
Definition env_zero : Env := mkEnv 100 7 0 42.
Definition env_some : Env := mkEnv 100 7 41 42.


(** A tracer as [NewTracer] leaves it: Legacy mode, no net trace, no
    backend. *)
Definition tracer_plain : Tracer := mkTracer 1%positive modeLegacy 0 None ∅.

(** A backend that ships its context under one key and never fails. *)
Definition backend_demo : shadowTracer :=
  mkShadowTracer "zipkin"
    (fun _ _ opName _ => opName)
    (fun ctx _ => ([("id", default "none" ctx)], None))
    (fun _ m => (entries_of m !! "id", None)).

Definition tracer_zipkin : Tracer :=
  mkTracer 1%positive modeLegacy 0 (Some backend_demo) ∅.

Definition meta_lower : SpanMeta :=
  mkSpanMeta 255 16 "zipkin" (Some "c0") RecordingVerbose
    (Some {[ "sb" := "1"; "key" := "v" ]}).

Definition meta_mixed_case : SpanMeta :=
  mkSpanMeta 255 16 EmptyString None RecordingVerbose (Some {[ "Key" := "v" ]}).

Definition meta_upper_sb : SpanMeta :=
  mkSpanMeta 255 16 EmptyString None RecordingVerbose (Some {[ "SB" := "1" ]}).

Definition meta_flag_only : SpanMeta :=
  mkSpanMeta 255 16 EmptyString None RecordingVerbose (Some {[ "key" := "v" ]}).

(** ** The registry seen from outside: VisitSpans *)

(** Modelled from the spec: [iterutil.StopIteration] and [iterutil.Done] are
    declared outside tracer.go. A visitor "can request early termination via
    a sentinel stop signal": what it returns as an error is that sentinel,
    which [iterutil.Done] recognises, or an error of its own. *)
Inductive visit_error :=
| StopIteration
| VisitorError (msg : string).

(** Modelled from the spec: [iterutil.Done] is declared outside tracer.go; it
    tells the sentinel from any other error. *)
Definition iterutil_Done (err : visit_error) : bool :=
  if err is StopIteration then true else false.

(** The slice [sl] that [VisitSpans] fills under the lock: the spans of the
    registry, in the order the range over the map takes. *)
Definition registry_snapshot (t : Tracer) (sl : list SpanPtr) : Prop :=
  sl ≡ₚ elements (activeSpans t).

(** The second loop of [VisitSpans], over the snapshot. The visitor is a
    closure: [S] is what it holds and may change (the tracer itself when it
    starts or finishes spans). Next to the state and the error returned, the
    spans the visitor was called on are listed in order. *)
Fixpoint visit_snapshot {S : Type} (visitor : S -> SpanPtr -> S * option visit_error)
    (st : S) (sl : list SpanPtr) : S * list SpanPtr * option visit_error :=
  match sl with
  | [] => (st, [], None)
  | sp :: rest =>
      match visitor st sp with
      | (st', Some err) =>
          if iterutil_Done err then (st', [sp], None) else (st', [sp], Some err)
      | (st', None) =>
          let '(st'', called, err) := visit_snapshot visitor st' rest in
          (st'', sp :: called, err)
      end
  end.

(** The state of the visitor after it was called on the spans of [l], one
    after the other. *)
Definition visitor_state {S : Type}
    (visitor : S -> SpanPtr -> S * option visit_error) (st : S)
    (l : list SpanPtr) : S :=
  foldl (fun st sp => (visitor st sp).1) st l.

(** What the visitor returns when, started in [st] and called on the spans
    of [pre], it is called on [sp] next. *)
Definition answer_after {S : Type}
    (visitor : S -> SpanPtr -> S * option visit_error) (st : S)
    (pre : list SpanPtr) (sp : SpanPtr) : option visit_error :=
  (visitor (visitor_state visitor st pre) sp).2.

(** [VisitSpans], given the snapshot the first loop took. *)
Definition VisitSpans {S : Type} (t : Tracer) (sl : list SpanPtr)
    (visitor : S -> SpanPtr -> S * option visit_error) (st : S) :
    S * list SpanPtr * option visit_error :=
  visit_snapshot visitor st sl.

(** ** Configuration: setShadowTracer, Close, Configure *)

(** [setShadowTracer(manager, tr)]: a nil manager ([None]) leaves no backend;
    the pointer is swapped and the old backend, if there was one, is closed.
    The backend closed is returned next to the tracer. *)
Definition setShadowTracer (t : Tracer) (shadow : option shadowTracer) :
    Tracer * option shadowTracer :=
  (mkTracer (noopSpan t) (_mode t) (_useNetTrace t) shadow (activeSpans t),
   shadowTracer_ptr t).

(** [Close] *)
Definition Close (t : Tracer) : Tracer * option shadowTracer :=
  setShadowTracer t None.

(** The values of the four cluster settings [Configure] reads: [trace.mode]
    (an [int64]), [trace.lightstep.token], [trace.zipkin.collector] and
    [trace.debug.enable]. *)
Record Values := mkValues {
  tracingMode_Get : Z;
  lightstepToken_Get : string;
  zipkinCollector_Get : string;
  enableNetTrace_Get : bool;
}.

(** [createLightStepTracer] and [createZipkinTracer] are declared outside
    tracer.go: they are taken as given. Each gives the manager and the
    backend tracer that [setShadowTracer] packs together ([None] for a nil
    manager). *)
Record Backends := mkBackends {
  createLightStepTracer : string -> option shadowTracer;
  createZipkinTracer : string -> option shadowTracer;
}.

(** The conversion [int32(x)] of an [int64]. *)
Definition int32_of (x : Z) : Z := (x + 2 ^ 31) mod 2 ^ 32 - 2 ^ 31.

(** The closure [reconfigure] of [Configure], which [Configure] runs once and
    leaves behind as the callback of three of the settings. *)
Definition reconfigure (b : Backends) (sv : Values) (t : Tracer) :
    Tracer * option shadowTracer :=
  let t := mkTracer (noopSpan t) (int32_of (tracingMode_Get sv)) (_useNetTrace t)
             (shadowTracer_ptr t) (activeSpans t) in
  let '(t, closed) :=
    if negb (String.eqb (lightstepToken_Get sv) EmptyString) then
      setShadowTracer t (createLightStepTracer b (lightstepToken_Get sv))
    else if negb (String.eqb (zipkinCollector_Get sv) EmptyString) then
      setShadowTracer t (createZipkinTracer b (zipkinCollector_Get sv))
    else setShadowTracer t None in
  let nt := if enableNetTrace_Get sv then 1 else 0 in
  (mkTracer (noopSpan t) (_mode t) nt (shadowTracer_ptr t) (activeSpans t), closed).

(** ** Notions used in the further statements *)

(** A tracer and a heap that fit: the no-op span is allocated and has no
    record, and the registry holds allocated spans that have one. *)
Definition tracer_fits (t : Tracer) (h : Heap) : Prop :=
  noopSpan t ∈ dom (spans h) /\ isNoop h (noopSpan t) = true /\
  forall q, q ∈ activeSpans t -> q ∈ dom (spans h) /\ isNoop h q = false.

(** The log tags of the record of a span. *)
Definition logTags_at (h : Heap) (q : SpanPtr) : option (option LogTags) :=
  c_logTags <$> crdb_at h q.

(** The type of the backend sub-span of a span, if it has one. *)
Definition shadow_type_at (h : Heap) (q : SpanPtr) : option (option string) :=
  (fun sp => ss_type <$> ot sp) <$> spans h !! q.

(** Whether a span has a net-trace sub-span. *)
Definition has_netTr (h : Heap) (q : SpanPtr) : option bool :=
  (fun sp => if netTr sp is Some _ then true else false) <$> spans h !! q.

(** Every span with a record keeps its baggage in an allocated map. *)
Definition baggage_maps_allocated (h : Heap) : Prop :=
  forall q, baggage_allocated h q.

(** A key in one of the three namespaces of the wire protocol. *)
Definition wire_key (k : string) : bool :=
  HasPrefix k prefixTracerState || HasPrefix k prefixBaggage
  || HasPrefix k prefixShadow.

(** The visitor that lists the spans it is shown. *)
Definition collect (acc : list SpanPtr) (sp : SpanPtr) :
    list SpanPtr * option visit_error :=
  ((acc ++ [sp])%list, None).

(** A visitor that stops the visit at a given span. *)
Definition stop_at (target : SpanPtr) (acc : list SpanPtr) (sp : SpanPtr) :
    list SpanPtr * option visit_error :=
  if decide (sp = target) then ((acc ++ [sp])%list, Some StopIteration)
  else ((acc ++ [sp])%list, None).

(** Concrete settings and backends for the examples. *)
Definition backends_demo : Backends :=
  mkBackends (fun _ => Some backend_demo) (fun _ => Some backend_demo).

Definition values_zipkin : Values := mkValues 0 EmptyString "127.0.0.1:9411" false.
Definition values_off : Values := mkValues 0 EmptyString EmptyString false.

Definition meta_any_case : SpanMeta :=
  mkSpanMeta 255 16 EmptyString None RecordingOff (Some {[ "Key" := "v" ]}).

Definition meta_verbose : SpanMeta :=
  mkSpanMeta 255 16 EmptyString None RecordingOff (Some {[ "sb" := "1" ]}).


(** What [StartSpan] keeps of the result of [StartSpanCtx]: the span, without
    the context. *)
Definition drop_context (r : outcome (Tracer * Heap * (Context * SpanPtr))) :
    outcome (Tracer * Heap * SpanPtr) :=
  r <-! r ;; Returned (r.1.1, r.1.2, r.2.2).

(** The log tags a new real span gets: those of the options, else those of
    the context, else those of a local parent that has a record. *)
Definition chosen_logTags (h : Heap) (ctx : Context) (opts : spanOptions) :
    option LogTags :=
  match LogTags_opt opts with
  | Some tags => Some tags
  | None =>
      match logtags_FromContext ctx with
      | Some tags => Some tags
      | None =>
          match Parent opts with
          | Some p => c ← crdb_at h p; c_logTags c
          | None => None
          end
      end
  end.

(** The states a tracer and the heap go through from [NewTracer] on, by the
    calls of tracer.go that change them: starting a span, a run of the
    closure of [Configure], and [Close]. *)
Inductive reachable : Tracer -> Heap -> Prop :=
| reach_NewTracer h : reachable (NewTracer h).1 (NewTracer h).2
| reach_StartSpanCtx t h env ctx operationName os t' h' ctx' s :
    reachable t h ->
    StartSpanCtx t h env ctx operationName os = Returned (t', h', (ctx', s)) ->
    reachable t' h'
| reach_reconfigure t h b sv :
    reachable t h -> reachable (reconfigure b sv t).1 h
| reach_Close t h :
    reachable t h -> reachable (Close t).1 h.

(** Settings that switch tracing on for every span: net trace, Background
    mode, or a backend that is made from the token or, without a token, from
    the collector address. *)
Definition settings_trace (b : Backends) (sv : Values) : Prop :=
  enableNetTrace_Get sv = true \/
  int32_of (tracingMode_Get sv) = modeBackground \/
  (lightstepToken_Get sv <> EmptyString /\
   is_Some (createLightStepTracer b (lightstepToken_Get sv))) \/
  (lightstepToken_Get sv = EmptyString /\ zipkinCollector_Get sv <> EmptyString /\
   is_Some (createZipkinTracer b (zipkinCollector_Get sv))).

(** A tracer with one span in its registry, and the heap that goes with it:
    the state after [NewTracer] on the empty heap and one forced root
    span. *)
Definition tracer_one_root : Tracer :=
  mkTracer 1%positive modeLegacy 0 None {[ 2%positive ]}.

Definition heap_one_root : Heap :=
  mkHeap {[ 1%positive := mkSpan None None None;
            2%positive := mkSpan (Some (mkCrdbSpan 41 42 7 "op" 100 0 None
                                          RecordingOff (-1) None ∅))
                            None None ]} ∅.
(** ** The library functions on small inputs *)

Section examples.

Example FormatUint16_255 : FormatUint16 255 = "ff".
Proof. reflexivity. Qed.

Example FormatUint16_0 : FormatUint16 0 = "0".
Proof. reflexivity. Qed.

Example FormatUint16_max : FormatUint16 uint64_max = "ffffffffffffffff".
Proof. reflexivity. Qed.

Example ParseUint16_upper : ParseUint16 "00Ff" = inl 255.
Proof. reflexivity. Qed.

Example ParseUint16_max : ParseUint16 "ffffffffffffffff" = inl uint64_max.
Proof. reflexivity. Qed.

Example ParseUint16_empty : ParseUint16 EmptyString = inr ErrSyntax.
Proof. reflexivity. Qed.

Example ParseUint16_prefix : ParseUint16 "0x1f" = inr ErrSyntax.
Proof. reflexivity. Qed.

Example ParseUint16_overflow : ParseUint16 "10000000000000000" = inr ErrRange.
Proof. reflexivity. Qed.

Example ToLower_mixed : ToLower "Crdb-Baggage-Key_1" = "crdb-baggage-key_1".
Proof. reflexivity. Qed.

Example TrimPrefix_baggage : TrimPrefix "crdb-baggage-sb" prefixBaggage = "sb".
Proof. reflexivity. Qed.

Example TrimPrefix_other : TrimPrefix "crdb-shadow-x" prefixBaggage = "crdb-shadow-x".
Proof. reflexivity. Qed.

(** The tracer and the heap of the examples are those of [NewTracer] on an
    empty heap. *)
Example NewTracer_plain : NewTracer (mkHeap ∅ ∅) = (tracer_plain, heap_plain).
Proof. vm_compute. reflexivity. Qed.

End examples.

(** ** Facts of the hexadecimal codec *)

Section hex_codec.

Lemma digit_val_range c d : digit_val c = Some d -> 0 <= d < 16.
Proof.
  destruct c as [b0 b1 b2 b3 b4 b5 b6 b7].
  destruct b0, b1, b2, b3, b4, b5, b6, b7; vm_compute;
    first [discriminate | intros [= <-]; split; discriminate || reflexivity].
Qed.

Lemma digit_val_digit_byte d : 0 <= d < 16 -> digit_val (digit_byte d) = Some d.
Proof.
  intros Hd.
  assert (H : d = 0 \/ d = 1 \/ d = 2 \/ d = 3 \/ d = 4 \/ d = 5 \/ d = 6 \/ d = 7 \/
              d = 8 \/ d = 9 \/ d = 10 \/ d = 11 \/ d = 12 \/ d = 13 \/ d = 14 \/
              d = 15) by lia.
  repeat (destruct H as [->|H]; [reflexivity|]). subst d. reflexivity.
Qed.

Lemma hex_value_ge s : forall n r, 0 <= n -> hex_value s n = Some r -> n <= r.
Proof.
  induction s as [|c s IH]; intros n r Hn; simpl.
  - intros [= <-]. lia.
  - destruct (digit_val c) as [d|] eqn:Hd; [|discriminate].
    apply digit_val_range in Hd. intros Hr. apply IH in Hr; lia.
Qed.

(** The parser succeeds exactly on the digit strings whose value fits 64
    bits: its cutoff test rejects a prefix only when the whole value is too
    large. *)
Lemma parse_loop_hex_value s : forall n r,
  0 <= n <= uint64_max ->
  parse_loop s n = inl r <-> (hex_value s n = Some r /\ r <= uint64_max).
Proof.
  unfold uint64_max.
  induction s as [|c s IH]; intros n r Hn; simpl.
  - split; [intros [= <-]; split; [done|lia] | intros [[= <-] _]; done].
  - destruct (digit_val c) as [d|] eqn:Hd; [|split; [discriminate|intros [? _]; discriminate]].
    apply digit_val_range in Hd.
    unfold cutoff, uint64_max, wrap64.
    change ((2 ^ 64 - 1) / 16 + 1) with (2 ^ 60).
    destruct (Z.leb_spec (2 ^ 60) n) as [Hc|Hc].
    + split; [discriminate|]. intros [Hv Hr].
      apply hex_value_ge in Hv; lia.
    + rewrite (Z.mod_small (n * 16)) by lia.
      rewrite (Z.mod_small (n * 16 + d)) by lia.
      destruct (Z.ltb_spec (n * 16 + d) (n * 16)); [lia|].
      destruct (Z.ltb_spec (2 ^ 64 - 1) (n * 16 + d)); [lia|].
      simpl. apply IH. lia.
Qed.

Lemma ParseUint16_valid s :
  (exists n, ParseUint16 s = inl n) <-> valid_hex_uint64 s.
Proof.
  unfold valid_hex_uint64, ParseUint16. destruct s as [|c s].
  - split; [intros [n [=]] | intros [[] _]; done].
  - split.
    + intros [n Hn]. split; [done|]. exists n.
      apply parse_loop_hex_value; [unfold uint64_max; lia | done].
    + intros [_ [n Hn]]. exists n.
      apply parse_loop_hex_value; [unfold uint64_max; lia | done].
Qed.

Lemma hex_value_formatBits rounds : forall u acc,
  0 <= u < 16 ^ Z.of_nat (S rounds) ->
  hex_value (formatBits rounds u acc) 0 = hex_value acc u.
Proof.
  induction rounds as [|r IH]; intros u acc Hu.
  - simpl. change (16 ^ Z.of_nat 1) with 16 in Hu.
    rewrite digit_val_digit_byte by lia. done.
  - cbn [formatBits]. destruct (Z.leb_spec 16 u) as [Hge|Hlt].
    + rewrite IH.
      * simpl. rewrite Z.land_ones with (n := 4) by lia.
        rewrite Z.shiftr_div_pow2 by lia. change (2 ^ 4) with 16.
        rewrite digit_val_digit_byte by (apply Z.mod_pos_bound; lia).
        f_equal. pose proof (Z.div_mod u 16). lia.
      * rewrite Z.shiftr_div_pow2 by lia. change (2 ^ 4) with 16.
        rewrite Nat2Z.inj_succ, Z.pow_succ_r in Hu by lia.
        split; [apply Z.div_pos; lia | apply Z.div_lt_upper_bound; lia].
    + simpl. rewrite digit_val_digit_byte by lia. done.
Qed.

Lemma formatBits_nonempty rounds u acc : formatBits rounds u acc <> EmptyString.
Proof.
  revert u acc. induction rounds as [|r IH]; intros u acc; simpl; [done|].
  destruct (16 <=? u); [apply IH | done].
Qed.

(** [ParseUint] reads back what [FormatUint] wrote. *)
Lemma ParseUint16_FormatUint16 u :
  is_uint64 u -> ParseUint16 (FormatUint16 u) = inl u.
Proof.
  unfold is_uint64, uint64_max. intros Hu.
  unfold ParseUint16, FormatUint16.
  destruct (formatBits 15 u EmptyString) eqn:E.
  - by apply formatBits_nonempty in E.
  - rewrite <- E. apply parse_loop_hex_value; [unfold uint64_max; lia|].
    rewrite hex_value_formatBits.
    + simpl. unfold uint64_max. split; [done | lia].
    + change (16 ^ Z.of_nat 16) with (2 ^ 64). lia.
Qed.

End hex_codec.
(** ** Facts of the string functions *)

Section string_facts.

Lemma ToLower_app a b : ToLower (a ++ b) = (ToLower a ++ ToLower b)%string.
Proof.
  induction a as [|c a IH]; [done|].
  change (ToLower (String c (a ++ b)) = String (lower_byte c) (ToLower a ++ ToLower b)).
  simpl. by rewrite IH.
Qed.

Lemma HasPrefix_app p s : HasPrefix (p ++ s) p = true.
Proof.
  induction p as [|c p IH]; [done|].
  change (HasPrefix (String c (p ++ s)) (String c p) = true).
  simpl. by rewrite Ascii.eqb_refl.
Qed.

Lemma HasPrefix_inv s p : HasPrefix s p = true -> exists r, s = (p ++ r)%string.
Proof.
  revert s. induction p as [|c p IH]; intros s; simpl.
  - by exists s.
  - destruct s as [|b s]; [done|].
    destruct (Ascii.eqb_spec c b) as [->|]; [|done].
    intros [r ->]%IH. by exists r.
Qed.

Lemma drop_bytes_app p s : drop_bytes (String.length p) (p ++ s) = s.
Proof. induction p as [|c p IH]; [reflexivity | exact IH]. Qed.

Lemma TrimPrefix_app p s : TrimPrefix (p ++ s) p = s.
Proof. unfold TrimPrefix. by rewrite HasPrefix_app, drop_bytes_app. Qed.

Lemma app_inj_prefix (p a b : string) : (p ++ a)%string = (p ++ b)%string -> a = b.
Proof.
  induction p as [|c p IH]; [done|].
  change (String c (p ++ a) = String c (p ++ b) -> a = b). intros [= ?]; auto.
Qed.

End string_facts.

(** ** Facts of the carriers and of [InjectMetaInto] *)

Section carrier_facts.

Lemma with_store_entries c m : writable c -> carrier_entries (with_store c m) = m.
Proof. destruct c as [[?|]| |]; done. Qed.

Lemma with_store_writable c m : writable c -> writable (with_store c m).
Proof. destruct c as [[?|]| |]; simpl; done. Qed.

Lemma with_store_format c m : carrier_format (with_store c m) = carrier_format c.
Proof. by destruct c. Qed.

Lemma with_store_twice c m m' : with_store (with_store c m) m' = with_store c m'.
Proof. by destruct c. Qed.

Lemma Carrier_Set_writable k v c :
  writable c ->
  Carrier_Set k v c = Returned (with_store c (<[k:=v]> (carrier_entries c))).
Proof. destruct c as [[?|]| |]; simpl; done. Qed.

Lemma Set_all_writable kvs : forall c,
  writable c ->
  Set_all kvs c = Returned (with_store c (store_all kvs (carrier_entries c))).
Proof.
  induction kvs as [|[k v] kvs IH]; intros c Hc; simpl.
  - destruct c as [[?|]| |]; simpl in *; done.
  - rewrite Carrier_Set_writable by done. simpl.
    rewrite IH by by apply with_store_writable.
    by rewrite with_store_twice, with_store_entries.
Qed.

Lemma store_all_app l1 l2 m : store_all (l1 ++ l2) m = store_all l2 (store_all l1 m).
Proof. unfold store_all. apply foldl_app. Qed.

Lemma store_all_lookup_Some kvs : forall (m : gmap string string) k v,
  store_all kvs m !! k = Some v -> m !! k = Some v \/ (k, v) ∈ kvs.
Proof.
  induction kvs as [|[k1 v1] kvs IH]; intros m k v; simpl; [auto|].
  intros [H|H]%IH.
  - destruct (decide (k1 = k)) as [->|Hne].
    + rewrite lookup_insert_eq in H. injection H as ->. right. left.
    + rewrite lookup_insert_ne in H by done. auto.
  - right. by right.
Qed.

Lemma store_all_lookup_unique kvs : forall (m : gmap string string) k v,
  (forall v', (k, v') ∈ kvs -> v' = v) ->
  m !! k = Some v \/ (k, v) ∈ kvs ->
  store_all kvs m !! k = Some v.
Proof.
  induction kvs as [|[k1 v1] kvs IH]; intros m k v Hu Hin; simpl.
  - destruct Hin as [?|Hin]; [done|]. by apply elem_of_nil in Hin.
  - apply IH.
    + intros v' Hv'. apply Hu. by right.
    + destruct (decide (k1 = k)) as [->|Hne].
      * left. rewrite lookup_insert_eq. f_equal. apply Hu. left.
      * destruct Hin as [Hm|Hin].
        -- left. by rewrite lookup_insert_ne.
        -- right. apply elem_of_cons in Hin as [[= ? ?]|?]; [congruence|done].
Qed.

Lemma store_all_lookup_notin kvs : forall (m : gmap string string) k,
  k ∉ kvs.*1 -> store_all kvs m !! k = m !! k.
Proof.
  induction kvs as [|[k1 v1] kvs IH]; intros m k Hk; simpl; [done|].
  rewrite fmap_cons, not_elem_of_cons in Hk. destruct Hk as [Hne Hk].
  rewrite IH by done. by rewrite lookup_insert_ne.
Qed.

Lemma NoDup_fst_unique (kvs : list (string * string)) k v v' :
  NoDup kvs.*1 -> (k, v) ∈ kvs -> (k, v') ∈ kvs -> v = v'.
Proof.
  induction kvs as [|[k1 v1] kvs IH]; intros Hnd Hv Hv'.
  - by apply elem_of_nil in Hv.
  - rewrite fmap_cons in Hnd. apply NoDup_cons in Hnd as [Hk1 Hnd].
    apply elem_of_cons in Hv as [Hv|Hv]; apply elem_of_cons in Hv' as [Hv'|Hv'].
    + congruence.
    + injection Hv as -> ->. destruct Hk1. apply list_elem_of_fmap. by exists (k1, v').
    + injection Hv' as -> ->. destruct Hk1. apply list_elem_of_fmap. by exists (k1, v).
    + by apply IH.
Qed.

(** Writes to distinct keys can be made in any order. *)
Lemma store_all_order kvs kvs' (m : gmap string string) :
  NoDup kvs.*1 -> kvs ≡ₚ kvs' -> store_all kvs m = store_all kvs' m.
Proof.
  intros Hnd Hp. apply map_eq. intros k.
  assert (Hnd' : NoDup kvs'.*1) by (by rewrite <- Hp).
  destruct (decide (k ∈ kvs.*1)) as [Hin|Hout].
  - apply list_elem_of_fmap in Hin as [[k' v] [-> Hin]]. simpl.
    rewrite (store_all_lookup_unique kvs m k' v), (store_all_lookup_unique kvs' m k' v);
      [done | | right; by rewrite <- Hp | | by right].
    + intros v' Hv'. rewrite <- Hp in Hv'. by apply (NoDup_fst_unique kvs k').
    + intros v' Hv'. by apply (NoDup_fst_unique kvs k').
  - rewrite !store_all_lookup_notin; [done | by rewrite <- Hp | done].
Qed.

Lemma Set_all_order kvs kvs' c :
  NoDup kvs.*1 -> kvs ≡ₚ kvs' -> Set_all kvs c = Set_all kvs' c.
Proof.
  intros Hnd Hp. destruct c as [[m|]|md|].
  - rewrite !Set_all_writable by done. by rewrite (store_all_order kvs kvs').
  - destruct kvs as [|[k v] kvs].
    + by apply Permutation_nil_l in Hp as <-.
    + destruct kvs' as [|[k' v'] kvs']; [by apply Permutation_nil_r in Hp|done].
  - rewrite !Set_all_writable by done. by rewrite (store_all_order kvs kvs').
  - clear Hnd Hp. assert (H : forall l, Set_all l otherCarrier = Returned otherCarrier).
    { induction l as [|[] l IH]; [done|exact IH]. }
    by rewrite !H.
Qed.

Lemma elem_of_with_prefix p kvs k v :
  (k, v) ∈ with_prefix p kvs <-> exists k0, k = (p ++ k0)%string /\ (k0, v) ∈ kvs.
Proof.
  unfold with_prefix. rewrite list_elem_of_fmap. split.
  - intros [[k0 v0] [[= -> ->] Hin]]. by exists k0.
  - intros [k0 [-> Hin]]. by exists (k0, v).
Qed.

(** What [InjectMetaInto] does to a carrier it can write to: it stores
    [inject_writes] in order, and returns the backend's error if any. *)
Lemma InjectMetaInto_writes t sm c format :
  writable c ->
  carrier_format c = Some format ->
  isNilOrNoop (Some sm) = false ->
  InjectMetaInto t (Some sm) c =
    Returned (with_store c (store_all (inject_writes t sm format) (carrier_entries c)),
              (inject_shadow_writes t sm format).2).
Proof.
  intros Hc Hf Hn. unfold InjectMetaInto. rewrite Hn, Hf.
  rewrite Carrier_Set_writable by done. cbn [obind].
  rewrite Carrier_Set_writable by by apply with_store_writable. cbn [obind].
  rewrite with_store_twice, with_store_entries by done.
  rewrite Set_all_writable by by apply with_store_writable. cbn [obind].
  rewrite with_store_twice, with_store_entries by done.
  unfold inject_writes, inject_shadow_writes.
  destruct (getShadowTracer t) as [shadowTr|]; cbn [shadowTracer_Type fst snd].
  - destruct (decide (shadowTracerType sm = manager_Name shadowTr)) as [He|He].
    + rewrite Carrier_Set_writable by by apply with_store_writable. cbn [obind].
      rewrite with_store_twice, with_store_entries by done.
      destruct (Inject shadowTr (shadowCtx sm) format) as [written err].
      rewrite Set_all_writable by by apply with_store_writable. cbn [obind fst snd].
      rewrite with_store_twice, with_store_entries by done.
      do 2 f_equal.
      change (?a :: ?b :: ?l ++ ?r)%list with ((a :: b :: l) ++ r)%list.
      rewrite store_all_app. reflexivity.
    + rewrite app_nil_r. reflexivity.
  - rewrite app_nil_r. reflexivity.
Qed.

End carrier_facts.

(** ** Facts of the callback of [ExtractMetaFrom] and of its loop *)

Section extract_facts.

Lemma baggage_key_not_field k :
  HasPrefix k prefixBaggage = true ->
  k <> fieldNameTraceID /\ k <> fieldNameSpanID /\ k <> fieldNameShadowType.
Proof. intros H. repeat split; intros ->; vm_compute in H; discriminate. Qed.

Lemma ToLower_baggage_key k :
  ToLower (prefixBaggage ++ k) = (prefixBaggage ++ ToLower k)%string.
Proof. by rewrite ToLower_app. Qed.

Lemma ToLower_shadow_key k :
  ToLower (prefixShadow ++ k) = (prefixShadow ++ ToLower k)%string.
Proof. by rewrite ToLower_app. Qed.

(** The callback looks at the key only through [ToLower]. *)
Lemma extract_visit_key_case st k k' v :
  ToLower k = ToLower k' -> extract_visit st k v = extract_visit st k' v.
Proof. unfold extract_visit. by intros ->. Qed.

Lemma extract_visit_error st k v e :
  extract_visit st k v = inr e -> e = ErrSpanContextCorrupted.
Proof.
  unfold extract_visit.
  repeat case_decide; repeat case_match; congruence.
Qed.

Lemma extract_visit_malformed st k v :
  ToLower k = fieldNameTraceID \/ ToLower k = fieldNameSpanID ->
  (forall n, ParseUint16 v <> inl n) ->
  extract_visit st k v = inr ErrSpanContextCorrupted.
Proof.
  unfold extract_visit. intros Hk Hv.
  destruct (ParseUint16 v) as [n|] eqn:E; [by destruct (Hv n)|].
  repeat case_decide; try done; by destruct Hk.
Qed.

Lemma extract_visit_parsed st k v :
  ToLower k = fieldNameTraceID \/ ToLower k = fieldNameSpanID ->
  (exists n, ParseUint16 v = inl n) ->
  exists st', extract_visit st k v = inl st'.
Proof.
  unfold extract_visit. intros Hk [n Hv]. rewrite Hv.
  repeat case_decide; eauto; by destruct Hk.
Qed.

Lemma extract_visit_other st k v :
  ToLower k <> fieldNameTraceID -> ToLower k <> fieldNameSpanID ->
  exists st', extract_visit st k v = inl st'.
Proof.
  unfold extract_visit. intros H1 H2.
  repeat case_decide; try done; repeat case_match; eauto.
Qed.

Lemma extract_visit_traceID st k v st' :
  extract_visit st k v = inl st' ->
  if decide (ToLower k = fieldNameTraceID)
  then ParseUint16 v = inl (x_traceID st')
  else x_traceID st' = x_traceID st.
Proof.
  unfold extract_visit.
  repeat case_decide; repeat case_match; intros [= <-]; simpl; congruence.
Qed.

Lemma extract_visit_spanID st k v st' :
  extract_visit st k v = inl st' ->
  if decide (ToLower k = fieldNameSpanID)
  then ParseUint16 v = inl (x_spanID st')
  else x_spanID st' = x_spanID st.
Proof.
  assert (fieldNameTraceID <> fieldNameSpanID) by (by vm_compute).
  unfold extract_visit.
  repeat case_decide; repeat case_match; intros [= <-]; simpl; congruence.
Qed.

Lemma extract_visit_baggage st k v st' :
  extract_visit st k v = inl st' ->
  if HasPrefix (ToLower k) prefixBaggage
  then x_baggage st' =
       Some (<[TrimPrefix (ToLower k) prefixBaggage := v]> (entries_of (x_baggage st)))
  else x_baggage st' = x_baggage st.
Proof.
  unfold extract_visit.
  destruct (HasPrefix (ToLower k) prefixBaggage) eqn:Hp.
  - destruct (baggage_key_not_field _ Hp) as (?&?&?).
    repeat case_decide; try done. by intros [= <-].
  - repeat case_decide; repeat case_match; intros [= <-]; simpl; congruence.
Qed.

(** Two visits that differ at most in the letter case of the keys run the
    same. *)
Lemma ForEach_extract_key_case l l' :
  Forall2 same_up_to_key_case l l' ->
  forall st, ForEach extract_visit st l = ForEach extract_visit st l'.
Proof.
  induction 1 as [|[k v] [k' v'] l l' [Hk Hv] _ IH]; intros st; simpl; [done|].
  simpl in Hk, Hv. subst v'. rewrite (extract_visit_key_case st k k' v Hk).
  destruct (extract_visit st k' v); [apply IH | done].
Qed.

(** The only error the loop can end with is the corrupted-context one, and it
    does end with it when a trace id or span id does not parse. *)
Lemma ForEach_extract_error l : forall st e,
  ForEach extract_visit st l = inr e -> e = ErrSpanContextCorrupted.
Proof.
  induction l as [|[k v] l IH]; intros st e; simpl; [done|].
  destruct (extract_visit st k v) as [st1|e1] eqn:E.
  - apply IH.
  - intros [= <-]. by apply extract_visit_error in E.
Qed.

Lemma ForEach_extract_malformed l : forall st k v,
  (k, v) ∈ l ->
  ToLower k = fieldNameTraceID \/ ToLower k = fieldNameSpanID ->
  (forall n, ParseUint16 v <> inl n) ->
  ForEach extract_visit st l = inr ErrSpanContextCorrupted.
Proof.
  induction l as [|[k1 v1] l IH]; intros st k v Hin Hk Hv.
  - by apply elem_of_nil in Hin.
  - simpl. destruct (extract_visit st k1 v1) as [st1|e1] eqn:E.
    + apply elem_of_cons in Hin as [[= <- <-]|Hin].
      * rewrite extract_visit_malformed in E by done. done.
      * by apply (IH st1 k v).
    + f_equal. by apply extract_visit_error in E.
Qed.

Lemma ForEach_extract_ok l : forall st,
  (forall k v, (k, v) ∈ l ->
     ToLower k = fieldNameTraceID \/ ToLower k = fieldNameSpanID ->
     exists n, ParseUint16 v = inl n) ->
  exists st', ForEach extract_visit st l = inl st'.
Proof.
  induction l as [|[k v] l IH]; intros st Hl; simpl; [eauto|].
  assert (exists st1, extract_visit st k v = inl st1) as [st1 ->].
  { destruct (decide (ToLower k = fieldNameTraceID)) as [H1|H1];
      [apply extract_visit_parsed; [auto | apply (Hl k v); [left | auto]]|].
    destruct (decide (ToLower k = fieldNameSpanID)) as [H2|H2];
      [apply extract_visit_parsed; [auto | apply (Hl k v); [left | auto]]|].
    by apply extract_visit_other. }
  apply IH. intros k' v' Hin. apply Hl. by right.
Qed.

Lemma ForEach_extract_traceID l : forall st st' T,
  ForEach extract_visit st l = inl st' ->
  (forall k v, (k, v) ∈ l -> ToLower k = fieldNameTraceID -> ParseUint16 v = inl T) ->
  x_traceID st' = T \/
  (x_traceID st' = x_traceID st /\
   forall k v, (k, v) ∈ l -> ToLower k <> fieldNameTraceID).
Proof.
  induction l as [|[k v] l IH]; intros st st' T; simpl.
  - intros [= <-] _. right. split; [done|]. intros k v Hin. by apply elem_of_nil in Hin.
  - destruct (extract_visit st k v) as [st1|] eqn:E; [|done]. intros Hrun Hl.
    apply extract_visit_traceID in E.
    destruct (IH st1 st' T Hrun) as [?|[Heq Hno]]; [intros ???; apply Hl; by right|auto|].
    case_decide as Hk.
    + left. rewrite (Hl k v) in E by (done || left). congruence.
    + right. split; [congruence|].
      intros k' v' [[= -> ->]|?]%elem_of_cons; eauto.
Qed.

Lemma ForEach_extract_spanID l : forall st st' T,
  ForEach extract_visit st l = inl st' ->
  (forall k v, (k, v) ∈ l -> ToLower k = fieldNameSpanID -> ParseUint16 v = inl T) ->
  x_spanID st' = T \/
  (x_spanID st' = x_spanID st /\
   forall k v, (k, v) ∈ l -> ToLower k <> fieldNameSpanID).
Proof.
  induction l as [|[k v] l IH]; intros st st' T; simpl.
  - intros [= <-] _. right. split; [done|]. intros k v Hin. by apply elem_of_nil in Hin.
  - destruct (extract_visit st k v) as [st1|] eqn:E; [|done]. intros Hrun Hl.
    apply extract_visit_spanID in E.
    destruct (IH st1 st' T Hrun) as [?|[Heq Hno]]; [intros ???; apply Hl; by right|auto|].
    case_decide as Hk.
    + left. rewrite (Hl k v) in E by (done || left). congruence.
    + right. split; [congruence|].
      intros k' v' [[= -> ->]|?]%elem_of_cons; eauto.
Qed.

(** The baggage the loop decodes: every entry comes from a visited pair whose
    lower-cased key has the baggage prefix, and every such pair leaves an
    entry under its trimmed key. *)
Lemma ForEach_extract_baggage l : forall st st',
  ForEach extract_visit st l = inl st' ->
  (forall x v, entries_of (x_baggage st') !! x = Some v ->
     entries_of (x_baggage st) !! x = Some v \/
     exists k, (k, v) ∈ l /\ HasPrefix (ToLower k) prefixBaggage = true /\
               TrimPrefix (ToLower k) prefixBaggage = x) /\
  (forall x, is_Some (entries_of (x_baggage st) !! x) ->
     is_Some (entries_of (x_baggage st') !! x)) /\
  (forall k v, (k, v) ∈ l -> HasPrefix (ToLower k) prefixBaggage = true ->
     is_Some (entries_of (x_baggage st') !! TrimPrefix (ToLower k) prefixBaggage)).
Proof.
  induction l as [|[k v] l IH]; intros st st'; cbn [ForEach].
  - intros [= <-]. split_and!; [auto | auto |].
    intros k v Hin. by apply elem_of_nil in Hin.
  - destruct (extract_visit st k v) as [st1|] eqn:E; [|done]. intros Hrun.
    apply extract_visit_baggage in E.
    destruct (IH st1 st' Hrun) as (Hsrc & Hkeep & Hall).
    destruct (HasPrefix (ToLower k) prefixBaggage) eqn:Hp.
    + rewrite E in *. cbn [entries_of] in *. split_and!.
      * intros x w [Hx|(k' & Hin & ? & ?)]%Hsrc.
        -- destruct (decide (TrimPrefix (ToLower k) prefixBaggage = x)) as [Hkx|Hkx].
           ++ rewrite <- Hkx, lookup_insert_eq in Hx. injection Hx as <-.
              right. exists k. split_and!; [left | done | done].
           ++ rewrite lookup_insert_ne in Hx by done. auto.
        -- right. exists k'. split_and!; [by right | done | done].
      * intros x Hx. apply Hkeep.
        destruct (decide (TrimPrefix (ToLower k) prefixBaggage = x)) as [<-|Hkx];
          [rewrite lookup_insert_eq; eauto | by rewrite lookup_insert_ne].
      * intros k' v' [[= -> ->]|Hin]%elem_of_cons Hp'; [|by eapply Hall].
        apply Hkeep. rewrite lookup_insert_eq. eauto.
    + rewrite E in *. split_and!.
      * intros x w [Hx|(k' & Hin & ? & ?)]%Hsrc; [auto|].
        right. exists k'. split_and!; [by right | done | done].
      * done.
      * intros k' v' [[= -> ->]|Hin]%elem_of_cons Hp'; [congruence | by eapply Hall].
Qed.

End extract_facts.

(** ** What [InjectMetaInto] writes, read through the lower-cased keys *)

Section inject_keys.

Ltac key_clash H := exfalso; vm_compute in H; discriminate H.

Lemma elem_of_inject_writes t sm format k v :
  (k, v) ∈ inject_writes t sm format ->
  (k = fieldNameTraceID /\ v = FormatUint16 (traceID sm)) \/
  (k = fieldNameSpanID /\ v = FormatUint16 (spanID sm)) \/
  (exists k0, k = (prefixBaggage ++ k0)%string /\
              entries_of (Baggage sm) !! k0 = Some v) \/
  k = fieldNameShadowType \/
  (exists k0, k = (prefixShadow ++ k0)%string).
Proof.
  unfold inject_writes.
  intros [[= -> ->]|[[= -> ->]|[H|H]%elem_of_app]%elem_of_cons]%elem_of_cons; [auto|auto| |].
  - apply elem_of_with_prefix in H as [k0 [-> H]].
    apply elem_of_map_to_list in H. right. right. left. eauto.
  - unfold inject_shadow_writes in H.
    destruct (getShadowTracer t) as [shadowTr|]; [|by apply elem_of_nil in H].
    case_decide; [|by apply elem_of_nil in H].
    cbn [fst] in H. apply elem_of_cons in H as [[= -> ->]|H]; [auto|].
    apply elem_of_with_prefix in H as [k0 [-> H]]. do 4 right. eauto.
Qed.

(** A written pair whose lower-cased key reads as the trace id, the span id
    or a baggage entry is the one written for it. *)
Lemma inject_writes_read t sm format k v :
  (k, v) ∈ inject_writes t sm format ->
  (ToLower k = fieldNameTraceID -> v = FormatUint16 (traceID sm)) /\
  (ToLower k = fieldNameSpanID -> v = FormatUint16 (spanID sm)) /\
  (HasPrefix (ToLower k) prefixBaggage = true ->
   exists k0, k = (prefixBaggage ++ k0)%string /\
              entries_of (Baggage sm) !! k0 = Some v).
Proof.
  intros [[-> ->]|[[-> ->]|[[k0 [-> Hb]]|[->|[k0 ->]]]]]%elem_of_inject_writes.
  - split_and!; [done | intros H; key_clash H | intros H; key_clash H].
  - split_and!; [intros H; key_clash H | done | intros H; key_clash H].
  - rewrite ToLower_baggage_key.
    split_and!; [intros H; key_clash H | intros H; key_clash H | eauto].
  - split_and!; intros H; key_clash H.
  - rewrite ToLower_shadow_key. split_and!; intros H; key_clash H.
Qed.

Lemma inject_writes_traceID t sm format :
  (fieldNameTraceID, FormatUint16 (traceID sm)) ∈ inject_writes t sm format.
Proof. unfold inject_writes. left. Qed.

Lemma inject_writes_spanID t sm format :
  (fieldNameSpanID, FormatUint16 (spanID sm)) ∈ inject_writes t sm format.
Proof. unfold inject_writes. right. left. Qed.

Lemma inject_writes_baggage t sm format k0 v :
  entries_of (Baggage sm) !! k0 = Some v ->
  ((prefixBaggage ++ k0)%string, v) ∈ inject_writes t sm format.
Proof.
  intros H. unfold inject_writes. do 2 right. apply elem_of_app. left.
  apply elem_of_with_prefix. exists k0. split; [done|].
  by apply elem_of_map_to_list.
Qed.

(** The store of a carrier that was empty, after the injection. *)
Lemma injected_store_lookup t sm format k v :
  store_all (inject_writes t sm format) ∅ !! k = Some v ->
  (k, v) ∈ inject_writes t sm format.
Proof. intros [H|H]%store_all_lookup_Some; [by rewrite lookup_empty in H | done]. Qed.

Lemma injected_store_traceID t sm format :
  store_all (inject_writes t sm format) ∅ !! fieldNameTraceID
  = Some (FormatUint16 (traceID sm)).
Proof.
  apply store_all_lookup_unique; [|right; apply inject_writes_traceID].
  intros v' H. by apply inject_writes_read in H as [-> _].
Qed.

Lemma injected_store_spanID t sm format :
  store_all (inject_writes t sm format) ∅ !! fieldNameSpanID
  = Some (FormatUint16 (spanID sm)).
Proof.
  apply store_all_lookup_unique; [|right; apply inject_writes_spanID].
  intros v' H. by apply inject_writes_read in H as (_ & -> & _).
Qed.

Lemma injected_store_baggage t sm format k0 v :
  entries_of (Baggage sm) !! k0 = Some v ->
  store_all (inject_writes t sm format) ∅ !! (prefixBaggage ++ k0)%string = Some v.
Proof.
  intros Hb. apply store_all_lookup_unique; [|right; by apply inject_writes_baggage].
  intros v' H. apply inject_writes_read in H as (_ & _ & H).
  destruct H as [k1 [Hk Hv]].
  - rewrite ToLower_baggage_key. apply HasPrefix_app.
  - apply app_inj_prefix in Hk as <-. congruence.
Qed.

End inject_keys.

(** ** What follows the loop of [ExtractMetaFrom] *)

Section extract_finish_facts.

Lemma extract_finish_recording t format st :
  let r := extract_finish t format st in
  recordingType r.1 = RecordingVerbose <->
  index_or_zero (Baggage r.1) verboseTracingBaggageKey <> EmptyString.
Proof.
  unfold extract_finish.
  assert (Hnoop : recordingType noopSpanMeta = RecordingVerbose <->
                  index_or_zero (Baggage noopSpanMeta) verboseTracingBaggageKey
                  <> EmptyString) by (split; [discriminate | intros H; by destruct H]).
  destruct ((x_traceID st =? 0) && (x_spanID st =? 0)); [exact Hnoop|].
  assert (Hdone : forall a b,
    recordingType (mkSpanMeta (x_traceID st) (x_spanID st) a b
      (if decide (index_or_zero (x_baggage st) verboseTracingBaggageKey = EmptyString)
       then RecordingOff else RecordingVerbose) (x_baggage st)) = RecordingVerbose <->
    index_or_zero (Baggage (mkSpanMeta (x_traceID st) (x_spanID st) a b
      (if decide (index_or_zero (x_baggage st) verboseTracingBaggageKey = EmptyString)
       then RecordingOff else RecordingVerbose) (x_baggage st)))
      verboseTracingBaggageKey <> EmptyString).
  { intros a b. cbn [recordingType Baggage]. case_decide; split; done. }
  destruct (decide (x_shadowType st = EmptyString)); [apply Hdone|].
  destruct (shadowTracer_Type (getShadowTracer t)) as [cur ok].
  destruct (getShadowTracer t) as [shadowTr|]; [|apply Hdone].
  destruct (decide (x_shadowType st = cur)); [|apply Hdone].
  destruct (Extract shadowTr format (x_shadowCarrier st)) as [ctx [err|]];
    [exact Hnoop | apply Hdone].
Qed.

Lemma extract_finish_ok t format st :
  backend_ok t ->
  x_traceID st <> 0 ->
  exists sm', extract_finish t format st = (sm', None) /\
    traceID sm' = x_traceID st /\ spanID sm' = x_spanID st /\
    Baggage sm' = x_baggage st.
Proof.
  intros Hok Hne. unfold extract_finish.
  destruct (Z.eqb_spec (x_traceID st) 0) as [|_]; [done|]. cbn [andb].
  destruct (decide (x_shadowType st = EmptyString)); [eauto 10|].
  destruct (shadowTracer_Type (getShadowTracer t)) as [cur ok].
  destruct (getShadowTracer t) as [shadowTr|] eqn:Ht; [|eauto 10].
  destruct (decide (x_shadowType st = cur)); [|eauto 10].
  destruct (Hok shadowTr Ht) as [_ Hx].
  specialize (Hx format (x_shadowCarrier st)).
  destruct (Extract shadowTr format (x_shadowCarrier st)) as [ctx [err|]];
    [done | eauto 10].
Qed.

End extract_finish_facts.

(** ** The wire codec: the claims *)

Section codec_claims.

(** C8. For a SpanMeta that denotes "no tracing" (a nil pointer, or trace id
    and span id both zero), [InjectMetaInto] returns success and leaves the
    carrier as it was: no key is written, whatever the carrier. *)
Theorem InjectMetaInto_no_tracing_writes_nothing t sm carrier :
  sm = None \/ (exists m, sm = Some m /\ traceID m = 0 /\ spanID m = 0) ->
  InjectMetaInto t sm carrier = Returned (carrier, None).
Proof.
  intros [->|(m & -> & Ht & Hs)]; unfold InjectMetaInto; simpl; [done|].
  by rewrite Ht, Hs.
Qed.

Lemma InjectMetaInto_no_tracing_witness :
  InjectMetaInto tracer_zipkin (Some noopSpanMeta)
    (MapCarrier (Some {[ "held" := "before" ]}))
  = Returned (MapCarrier (Some {[ "held" := "before" ]}), None).
Proof.
  apply InjectMetaInto_no_tracing_writes_nothing.
  right. exists noopSpanMeta. split; [reflexivity | split; reflexivity].
Defined.

(** C7. For a carrier of a supported kind that holds, under a key that reads
    as the trace id field or the span id field, a value that is not a
    hexadecimal unsigned 64-bit integer, [ExtractMetaFrom] returns the
    span-context-corrupted error next to the no-tracing SpanMeta, in whatever
    order the carrier is visited. *)
Theorem ExtractMetaFrom_malformed_id t carrier order k v :
  carrier_format carrier <> None ->
  ForEachOrder carrier order ->
  carrier_entries carrier !! k = Some v ->
  ToLower k = fieldNameTraceID \/ ToLower k = fieldNameSpanID ->
  ~ valid_hex_uint64 v ->
  ExtractMetaFrom t carrier order = (noopSpanMeta, Some ErrSpanContextCorrupted).
Proof.
  intros Hf Ho Hkv Hk Hv. unfold ExtractMetaFrom.
  destruct (carrier_format carrier) as [format|]; [|done].
  rewrite (ForEach_extract_malformed order extracted_zero k v); [done| |done|].
  - unfold ForEachOrder in Ho. rewrite Ho. by apply elem_of_map_to_list.
  - intros n Hn. apply Hv, ParseUint16_valid. eauto.
Qed.

Lemma ExtractMetaFrom_malformed_id_witness :
  ExtractMetaFrom tracer_plain
    (MapCarrier (Some {[ "Crdb-Tracer-TraceID" := "12g4" ]}))
    [("Crdb-Tracer-TraceID", "12g4")]
  = (noopSpanMeta, Some ErrSpanContextCorrupted).
Proof.
  apply (ExtractMetaFrom_malformed_id tracer_plain _ _ "Crdb-Tracer-TraceID" "12g4").
  - discriminate.
  - unfold ForEachOrder, carrier_entries, entries_of.
    rewrite map_to_list_singleton. reflexivity.
  - vm_compute. reflexivity.
  - left. vm_compute. reflexivity.
  - intros [_ [n [Hn _]]]. vm_compute in Hn. discriminate Hn.
Defined.

(** C9. [ExtractMetaFrom] matches keys without regard to letter case: two
    carriers of the same kind whose pairs correspond one for one up to the
    letter case of the keys give the same results, each order of visit of
    one being matched by an order of visit of the other. *)
Theorem ExtractMetaFrom_key_case_insensitive t c c' :
  case_variant c c' ->
  (forall order, ForEachOrder c order ->
     exists order', ForEachOrder c' order' /\
       Forall2 same_up_to_key_case order order' /\
       ExtractMetaFrom t c' order' = ExtractMetaFrom t c order) /\
  (forall order', ForEachOrder c' order' ->
     exists order, ForEachOrder c order /\
       Forall2 same_up_to_key_case order order' /\
       ExtractMetaFrom t c order = ExtractMetaFrom t c' order').
Proof.
  intros (Hf & l & l' & Hl & Hl' & H2). unfold ForEachOrder in *. split.
  - intros order Ho.
    destruct (Permutation_Forall2 (P := same_up_to_key_case)
                (l1 := l) (l1' := order) (l2 := l')) as (order' & Hp & H2'); [by rewrite Hl, Ho|done|].
    exists order'. split_and!; [by rewrite <- Hp | done |].
    unfold ExtractMetaFrom. rewrite <- Hf.
    by rewrite (ForEach_extract_key_case order order' H2').
  - intros order' Ho'.
    destruct (Permutation_Forall2 (P := flip same_up_to_key_case)
                (l1 := l') (l1' := order') (l2 := l)) as (order & Hp & H2');
      [by rewrite Hl', Ho' | by apply Forall2_flip |].
    apply Forall2_flip in H2'.
    exists order. split_and!; [by rewrite <- Hp | done |].
    unfold ExtractMetaFrom. rewrite <- Hf.
    by rewrite (ForEach_extract_key_case order order' H2').
Qed.

Lemma ExtractMetaFrom_key_case_insensitive_witness :
  exists order',
    ForEachOrder (MapCarrier (Some {[ "CRDB-Tracer-TraceId" := "ff" ]})) order' /\
    Forall2 same_up_to_key_case [("crdb-tracer-traceid", "ff")] order' /\
    ExtractMetaFrom tracer_plain
      (MapCarrier (Some {[ "CRDB-Tracer-TraceId" := "ff" ]})) order'
    = ExtractMetaFrom tracer_plain
        (MapCarrier (Some {[ "crdb-tracer-traceid" := "ff" ]}))
        [("crdb-tracer-traceid", "ff")].
Proof.
  refine (proj1 (ExtractMetaFrom_key_case_insensitive tracer_plain
                   (MapCarrier (Some {[ "crdb-tracer-traceid" := "ff" ]}))
                   (MapCarrier (Some {[ "CRDB-Tracer-TraceId" := "ff" ]})) _) _ _).
  - split; [reflexivity|].
    exists [("crdb-tracer-traceid", "ff")], [("CRDB-Tracer-TraceId", "ff")].
    unfold ForEachOrder, carrier_entries, entries_of.
    rewrite !map_to_list_singleton.
    split; [reflexivity | split; [reflexivity|]].
    constructor; [split; vm_compute; reflexivity | constructor].
  - unfold ForEachOrder, carrier_entries, entries_of.
    rewrite map_to_list_singleton. reflexivity.
Defined.

(** C1, as the code has it. For a SpanMeta with non-zero trace id and span id
    whose baggage keys are ASCII strings that hold no upper-case letter
    ([strings.ToLower] leaves them as they are), injecting it into an empty
    carrier of either supported kind succeeds, and extracting from that
    carrier, in whatever order it is visited, gives a SpanMeta with the same
    trace id, span id and baggage entries; a backend, if one is attached on
    either side, is taken not to fail. *)
Theorem inject_extract_roundtrip t_enc t_dec sm c :
  is_uint64 (traceID sm) -> is_uint64 (spanID sm) ->
  traceID sm <> 0 -> spanID sm <> 0 ->
  ascii_keys (entries_of (Baggage sm)) ->
  (forall k, is_Some (entries_of (Baggage sm) !! k) -> ToLower k = k) ->
  empty_carrier c ->
  backend_ok t_enc -> backend_ok t_dec ->
  exists c', InjectMetaInto t_enc (Some sm) c = Returned (c', None) /\
    forall order, ForEachOrder c' order ->
      exists sm', ExtractMetaFrom t_dec c' order = (sm', None) /\
        traceID sm' = traceID sm /\ spanID sm' = spanID sm /\
        entries_of (Baggage sm') = entries_of (Baggage sm).
Proof.
  intros Ht Hs Htn Hsn _ Hlow Hc Henc Hdec.
  assert (Hw : writable c) by (by destruct Hc as [->| ->]).
  assert (exists format, carrier_format c = Some format) as [format Hf]
    by (destruct Hc as [->| ->]; simpl; eauto).
  assert (Hempty : carrier_entries c = ∅) by (by destruct Hc as [->| ->]).
  assert (Hn : isNilOrNoop (Some sm) = false).
  { simpl. by destruct (Z.eqb_spec (traceID sm) 0). }
  rewrite (InjectMetaInto_writes _ _ _ format) by done. rewrite Hempty.
  set (M := store_all (inject_writes t_enc sm format) ∅).
  assert (Herr : (inject_shadow_writes t_enc sm format).2 = None).
  { unfold inject_shadow_writes.
    destruct (getShadowTracer t_enc) as [shadowTr|] eqn:E; [|done].
    case_decide; [|done]. apply (Henc shadowTr E). }
  rewrite Herr. eexists. split; [reflexivity|].
  intros order Ho. unfold ForEachOrder in Ho. rewrite with_store_entries in Ho by done.
  assert (Hin : forall k v, (k, v) ∈ order <-> M !! k = Some v).
  { intros k v. by rewrite Ho, elem_of_map_to_list. }
  assert (Hread : forall k v, (k, v) ∈ order ->
    (ToLower k = fieldNameTraceID -> v = FormatUint16 (traceID sm)) /\
    (ToLower k = fieldNameSpanID -> v = FormatUint16 (spanID sm)) /\
    (HasPrefix (ToLower k) prefixBaggage = true ->
     exists k0, k = (prefixBaggage ++ k0)%string /\
                entries_of (Baggage sm) !! k0 = Some v)).
  { intros k v Hkv. apply Hin in Hkv.
    by apply injected_store_lookup, inject_writes_read in Hkv. }
  unfold ExtractMetaFrom. rewrite with_store_format, Hf.
  destruct (ForEach_extract_ok order extracted_zero) as [st' Hrun].
  { intros k v Hkv Hk. destruct (Hread k v Hkv) as (H1 & H2 & _).
    destruct Hk as [Hk|Hk]; [rewrite (H1 Hk) | rewrite (H2 Hk)];
      eexists; by apply ParseUint16_FormatUint16. }
  rewrite Hrun.
  assert (HT : x_traceID st' = traceID sm).
  { destruct (ForEach_extract_traceID _ _ _ (traceID sm) Hrun) as [HT|[_ Hno]]; [|done|].
    - intros k v Hkv Hk. destruct (Hread k v Hkv) as (H1 & _).
      rewrite (H1 Hk). by apply ParseUint16_FormatUint16.
    - exfalso. apply (Hno fieldNameTraceID (FormatUint16 (traceID sm))); [|done].
      apply Hin, injected_store_traceID. }
  assert (HS : x_spanID st' = spanID sm).
  { destruct (ForEach_extract_spanID _ _ _ (spanID sm) Hrun) as [HS|[_ Hno]]; [|done|].
    - intros k v Hkv Hk. destruct (Hread k v Hkv) as (_ & H2 & _).
      rewrite (H2 Hk). by apply ParseUint16_FormatUint16.
    - exfalso. apply (Hno fieldNameSpanID (FormatUint16 (spanID sm))); [|done].
      apply Hin, injected_store_spanID. }
  destruct (ForEach_extract_baggage _ _ _ Hrun) as (Hsrc & _ & Hall).
  assert (Hfrom : forall x v, entries_of (x_baggage st') !! x = Some v ->
                              entries_of (Baggage sm) !! x = Some v).
  { intros x v [Hx|(k & Hkv & Hp & Htrim)]%Hsrc;
      [cbn in Hx; by rewrite lookup_empty in Hx|].
    destruct (Hread k v Hkv) as (_ & _ & H3). destruct (H3 Hp) as [k0 [-> Hb]].
    rewrite ToLower_baggage_key, TrimPrefix_app in Htrim.
    rewrite Hlow in Htrim by eauto. by subst. }
  assert (HB : entries_of (x_baggage st') = entries_of (Baggage sm)).
  { apply map_eq. intros x. apply option_eq. intros v. split; [apply Hfrom|].
    intros Hb. pose proof (injected_store_baggage t_enc sm format x v Hb) as HM.
    apply Hin in HM. destruct (Hall _ _ HM) as [v' Hv'].
    { rewrite ToLower_baggage_key. apply HasPrefix_app. }
    rewrite ToLower_baggage_key, TrimPrefix_app, Hlow in Hv' by eauto.
    pose proof (Hfrom _ _ Hv'). congruence. }
  destruct (extract_finish_ok t_dec format st' Hdec) as (sm' & -> & ? & ? & HB');
    [congruence|].
  exists sm'. rewrite HB'. split_and!; [done | congruence | congruence | done].
Qed.


Lemma inject_extract_roundtrip_witness :
  exists c', InjectMetaInto tracer_zipkin (Some meta_lower) (metadataCarrier ∅)
             = Returned (c', None) /\
    forall order, ForEachOrder c' order ->
      exists sm', ExtractMetaFrom tracer_zipkin c' order = (sm', None) /\
        traceID sm' = traceID meta_lower /\ spanID sm' = spanID meta_lower /\
        entries_of (Baggage sm') = entries_of (Baggage meta_lower).
Proof.
  apply (inject_extract_roundtrip tracer_zipkin tracer_zipkin meta_lower
           (metadataCarrier ∅)).
  - change (is_uint64 255). unfold is_uint64, uint64_max. lia.
  - change (is_uint64 16). unfold is_uint64, uint64_max. lia.
  - discriminate.
  - discriminate.
  - intros k [v Hv]. unfold meta_lower in Hv. cbn [Baggage entries_of] in Hv.
    apply lookup_insert_Some in Hv as [[<- _]|[_ Hv]]; [reflexivity|].
    apply lookup_singleton_Some in Hv as [<- _]. reflexivity.
  - intros k [v Hv]. unfold meta_lower in Hv. cbn [Baggage entries_of] in Hv.
    apply lookup_insert_Some in Hv as [[<- _]|[_ Hv]]; [reflexivity|].
    apply lookup_singleton_Some in Hv as [<- _]. reflexivity.
  - right. reflexivity.
  - intros shadowTr [= <-]. split; intros; reflexivity.
  - intros shadowTr [= <-]. split; intros; reflexivity.
Defined.

(** C1 as stated fails: a baggage key with an upper-case letter comes back
    lower-cased, so the baggage recovered is not the original one. *)
Lemma roundtrip_lowers_baggage_key :
  let wire : gmap string string :=
    {[ "crdb-tracer-traceid" := "ff"; "crdb-tracer-spanid" := "10";
       "crdb-baggage-Key" := "v" ]} in
  let order := [("crdb-baggage-Key", "v"); ("crdb-tracer-spanid", "10");
                ("crdb-tracer-traceid", "ff")] in
  traceID meta_mixed_case <> 0 /\ spanID meta_mixed_case <> 0 /\
  InjectMetaInto tracer_plain (Some meta_mixed_case) (MapCarrier (Some ∅))
  = Returned (MapCarrier (Some wire), None) /\
  ForEachOrder (MapCarrier (Some wire)) order /\
  ExtractMetaFrom tracer_plain (MapCarrier (Some wire)) order
  = (mkSpanMeta 255 16 EmptyString None RecordingOff (Some {[ "key" := "v" ]}), None) /\
  entries_of (Baggage meta_mixed_case) !! "Key" = Some "v" /\
  ({[ "key" := "v" ]} : gmap string string) !! "Key" = None.
Proof.
  cbv zeta. split_and!; try discriminate; vm_compute; reflexivity.
Qed.

(** C10, as the code has it. The recording flag travels only as baggage:
    (1) the SpanMeta [ExtractMetaFrom] returns has the verbose recording type
    exactly when its baggage holds a non-empty entry under ["sb"];
    (2) what [InjectMetaInto] does is the same whatever the recording type
    of the SpanMeta: no field is written for it; (3) so a SpanMeta none of
    whose baggage keys reads, lower-cased, as ["sb"] with a non-empty value
    comes back from a round trip through an empty carrier with the recording
    type off, whatever flag it had. *)
Theorem recording_flag_travels_as_baggage :
  (forall t carrier order,
     let r := ExtractMetaFrom t carrier order in
     recordingType r.1 = RecordingVerbose <->
     exists v, entries_of (Baggage r.1) !! verboseTracingBaggageKey = Some v /\
               v <> EmptyString) /\
  (forall t sm carrier rt,
     InjectMetaInto t (Some (with_recordingType rt sm)) carrier
     = InjectMetaInto t (Some sm) carrier) /\
  (forall t_enc t_dec sm c,
     empty_carrier c ->
     (forall k v, entries_of (Baggage sm) !! k = Some v ->
                  ToLower k = verboseTracingBaggageKey -> v = EmptyString) ->
     exists c' err, InjectMetaInto t_enc (Some sm) c = Returned (c', err) /\
       forall order, ForEachOrder c' order ->
         recordingType (ExtractMetaFrom t_dec c' order).1 = RecordingOff).
Proof.
  assert (Hidx : forall m k, index_or_zero m k <> EmptyString <->
            exists v, entries_of m !! k = Some v /\ v <> EmptyString).
  { intros m k. unfold index_or_zero. destruct (entries_of m !! k) as [v|]; simpl.
    - split; [eauto | by intros (? & [= <-] & ?)].
    - split; [done | by intros (? & [=] & _)]. }
  assert (Hnoop : recordingType noopSpanMeta = RecordingVerbose <->
            exists v, entries_of (Baggage noopSpanMeta) !! verboseTracingBaggageKey
                      = Some v /\ v <> EmptyString).
  { split; [discriminate|]. intros (v & Hv & _). cbn in Hv. by rewrite lookup_empty in Hv. }
  assert (Hflag : forall t carrier order,
     let r := ExtractMetaFrom t carrier order in
     recordingType r.1 = RecordingVerbose <->
     exists v, entries_of (Baggage r.1) !! verboseTracingBaggageKey = Some v /\
               v <> EmptyString).
  { intros t carrier order. unfold ExtractMetaFrom.
    destruct (carrier_format carrier) as [format|]; [|exact Hnoop].
    destruct (ForEach extract_visit extracted_zero order) as [st|e]; [|exact Hnoop].
    cbv zeta. rewrite <- Hidx. apply extract_finish_recording. }
  split_and!; [exact Hflag | |].
  - intros t sm carrier rt. unfold InjectMetaInto, inject_shadow_writes.
    reflexivity.
  - intros t_enc t_dec sm c Hc Hsb.
    assert (Hw : writable c) by (by destruct Hc as [->| ->]).
    assert (exists format, carrier_format c = Some format) as [format Hf]
      by (destruct Hc as [->| ->]; simpl; eauto).
    assert (Hempty : carrier_entries c = ∅) by (by destruct Hc as [->| ->]).
    assert (Hoff : forall r, r <> RecordingVerbose -> r = RecordingOff)
      by (by intros []).
    destruct (isNilOrNoop (Some sm)) eqn:Hn.
    + exists c, None. split; [unfold InjectMetaInto; by rewrite Hn|].
      intros order Ho. unfold ForEachOrder in Ho.
      rewrite Hempty, map_to_list_empty in Ho. apply Permutation_nil_r in Ho as ->.
      unfold ExtractMetaFrom. by rewrite Hf.
    + rewrite (InjectMetaInto_writes _ _ _ format) by done. rewrite Hempty.
      do 2 eexists. split; [reflexivity|].
      intros order Ho. unfold ForEachOrder in Ho.
      rewrite with_store_entries in Ho by done.
      apply Hoff. intros Hv. apply Hflag in Hv as (v & Hv & Hne).
      unfold ExtractMetaFrom in Hv. rewrite with_store_format, Hf in Hv.
      destruct (ForEach extract_visit extracted_zero order) as [st'|e] eqn:Hrun;
        [|cbn in Hv; by rewrite lookup_empty in Hv].
      assert (Hbag : Baggage (extract_finish t_dec format st').1 = None \/
                     Baggage (extract_finish t_dec format st').1 = x_baggage st').
      { unfold extract_finish.
        destruct ((x_traceID st' =? 0) && (x_spanID st' =? 0)); [by left|].
        destruct (decide (x_shadowType st' = EmptyString)); [by right|].
        destruct (shadowTracer_Type (getShadowTracer t_dec)) as [cur ok].
        destruct (getShadowTracer t_dec) as [shadowTr|]; [|by right].
        destruct (decide (x_shadowType st' = cur)); [|by right].
        destruct (Extract shadowTr format (x_shadowCarrier st')) as [ctx [err|]];
          [by left | by right]. }
      destruct Hbag as [Hb|Hb]; rewrite Hb in Hv;
        [cbn in Hv; by rewrite lookup_empty in Hv|].
      destruct (ForEach_extract_baggage _ _ _ Hrun) as (Hsrc & _ & _).
      apply Hsrc in Hv as [Hv|(k & Hkv & Hp & Htrim)];
        [cbn in Hv; by rewrite lookup_empty in Hv|].
      rewrite Ho in Hkv. apply elem_of_map_to_list in Hkv.
      apply injected_store_lookup, inject_writes_read in Hkv as (_ & _ & H3).
      destruct (H3 Hp) as [k0 [-> Hk0]].
      rewrite ToLower_baggage_key, TrimPrefix_app in Htrim.
      apply Hne. by apply (Hsb k0 v).
Qed.

Lemma recording_flag_travels_as_baggage_witness :
  exists c' err,
    InjectMetaInto tracer_plain (Some meta_flag_only) (MapCarrier (Some ∅))
    = Returned (c', err) /\
    forall order, ForEachOrder c' order ->
      recordingType (ExtractMetaFrom tracer_zipkin c' order).1 = RecordingOff.
Proof.
  apply (proj2 (proj2 recording_flag_travels_as_baggage)).
  - left. reflexivity.
  - intros k v Hv Hk. unfold meta_flag_only in Hv. cbn [Baggage entries_of] in Hv.
    apply lookup_singleton_Some in Hv as [<- _]. vm_compute in Hk. discriminate Hk.
Defined.

(** C10 as stated fails in its last part: a SpanMeta with the flag set and no
    baggage entry under ["sb"], but one under ["SB"], keeps the flag: the key
    comes back lower-cased and sets it again. *)
Lemma flag_kept_through_upper_case_key :
  let wire : gmap string string :=
    {[ "crdb-tracer-traceid" := "ff"; "crdb-tracer-spanid" := "10";
       "crdb-baggage-SB" := "1" ]} in
  let order := [("crdb-baggage-SB", "1"); ("crdb-tracer-spanid", "10");
                ("crdb-tracer-traceid", "ff")] in
  recordingType meta_upper_sb = RecordingVerbose /\
  entries_of (Baggage meta_upper_sb) !! verboseTracingBaggageKey = None /\
  InjectMetaInto tracer_plain (Some meta_upper_sb) (MapCarrier (Some ∅))
  = Returned (MapCarrier (Some wire), None) /\
  ForEachOrder (MapCarrier (Some wire)) order /\
  recordingType (ExtractMetaFrom tracer_plain (MapCarrier (Some wire)) order).1
  = RecordingVerbose.
Proof.
  cbv zeta. split_and!; vm_compute; reflexivity.
Qed.

End codec_claims.

(** ** Facts of the heap operations *)

Section heap_facts.

Lemma crdb_at_insert h s sp m q :
  crdb_at (mkHeap (<[s := sp]> (spans h)) m) q
  = if decide (s = q) then crdb sp else crdb_at h q.
Proof.
  unfold crdb_at. cbn [spans]. case_decide as E.
  - subst q. by rewrite lookup_insert_eq.
  - by rewrite lookup_insert_ne.
Qed.

Lemma crdb_at_Some h s c :
  crdb_at h s = Some c -> exists o n, spans h !! s = Some (mkSpan (Some c) o n).
Proof.
  unfold crdb_at. destruct (spans h !! s) as [[c' o n]|]; simpl; [|done].
  intros ->. eauto.
Qed.

Lemma baggage_at_ptr h q :
  baggage_at h q = match baggage_ptr h q with
                   | Some (Some mp) => default ∅ (maps h !! mp)
                   | _ => ∅
                   end.
Proof.
  unfold baggage_at, baggage_ptr. destruct (crdb_at h q) as [c|]; [|done].
  simpl. by destruct (mu_baggage c).
Qed.

Lemma isNoop_ptr h q : isNoop h q = if baggage_ptr h q is Some _ then false else true.
Proof. unfold isNoop, baggage_ptr. by destruct (crdb_at h q). Qed.

(** [enableRecording] and [SetTag] leave the maps, the ids and the baggage
    pointers of all spans as they are. *)
Lemma enableRecording_frame h s r :
  maps (enableRecording h s r) = maps h /\
  (forall q, baggage_ptr (enableRecording h s r) q = baggage_ptr h q) /\
  (forall q, ids_at (enableRecording h s r) q = ids_at h q) /\
  dom (spans (enableRecording h s r)) = dom (spans h).
Proof.
  unfold enableRecording.
  destruct (spans h !! s) as [[[c|] o n]|] eqn:E; try done.
  split_and!; [done| | |].
  - intros q. unfold baggage_ptr. rewrite crdb_at_insert. case_decide; [|done].
    subst q. unfold crdb_at. by rewrite E.
  - intros q. unfold ids_at. rewrite crdb_at_insert. case_decide; [|done].
    subst q. unfold crdb_at. by rewrite E.
  - cbn [spans]. apply dom_insert_lookup_L. eauto.
Qed.

Lemma SetTag_frame h s k v :
  maps (SetTag h s k v) = maps h /\
  (forall q, baggage_ptr (SetTag h s k v) q = baggage_ptr h q) /\
  (forall q, ids_at (SetTag h s k v) q = ids_at h q) /\
  dom (spans (SetTag h s k v)) = dom (spans h).
Proof.
  unfold SetTag.
  destruct (spans h !! s) as [[[c|] o n]|] eqn:E; try done.
  split_and!; [done| | |].
  - intros q. unfold baggage_ptr. rewrite crdb_at_insert. case_decide; [|done].
    subst q. unfold crdb_at. by rewrite E.
  - intros q. unfold ids_at. rewrite crdb_at_insert. case_decide; [|done].
    subst q. unfold crdb_at. by rewrite E.
  - cbn [spans]. apply dom_insert_lookup_L. eauto.
Qed.

Lemma SetTags_frame kvs : forall h s,
  maps (SetTags h s kvs) = maps h /\
  (forall q, baggage_ptr (SetTags h s kvs) q = baggage_ptr h q) /\
  (forall q, ids_at (SetTags h s kvs) q = ids_at h q) /\
  dom (spans (SetTags h s kvs)) = dom (spans h).
Proof.
  induction kvs as [|[k v] kvs IH]; intros h s; [done|].
  change (SetTags h s ((k, v) :: kvs)) with (SetTags (SetTag h s k v) s kvs).
  destruct (IH (SetTag h s k v) s) as (-> & Hp & Hi & ->).
  destruct (SetTag_frame h s k v) as (-> & Hp' & Hi' & ->).
  split_and!; [done | | | done]; intros q; [rewrite Hp | rewrite Hi]; done.
Qed.

(** [SetBaggageItem] on a span with a record: the entry is written to the
    baggage of that span ... *)
Lemma SetBaggageItem_self h s k v :
  is_Some (baggage_ptr h s) ->
  baggage_at (SetBaggageItem h s k v) s = <[k:=v]> (baggage_at h s) /\
  is_Some (baggage_ptr (SetBaggageItem h s k v) s).
Proof.
  intros [bp Hbp]. unfold baggage_ptr in Hbp.
  destruct (crdb_at h s) as [c|] eqn:Hc; [|done].
  destruct (crdb_at_Some _ _ _ Hc) as (o & n & E).
  rewrite !baggage_at_ptr. unfold SetBaggageItem, baggage_ptr. rewrite E, Hc.
  rewrite crdb_at_insert, decide_True by done.
  cbn [crdb mu_baggage maps fmap option_fmap option_map].
  unfold write_baggage. destruct (mu_baggage c) as [mp|]; cbn [fst snd];
    rewrite lookup_insert_eq; cbn [default from_option id]; (split; [|eauto]).
  - done.
  - by rewrite insert_empty.
Qed.

(** ... the ids of all spans stay, no span appears or disappears ... *)
Lemma SetBaggageItem_ids h s k v :
  (forall q, ids_at (SetBaggageItem h s k v) q = ids_at h q) /\
  dom (spans (SetBaggageItem h s k v)) = dom (spans h).
Proof.
  unfold SetBaggageItem.
  destruct (spans h !! s) as [[[c|] o n]|] eqn:E; try done.
  split.
  - intros q. unfold ids_at. rewrite crdb_at_insert. case_decide; [|done].
    subst q. unfold crdb_at. by rewrite E.
  - cbn [spans]. apply dom_insert_lookup_L. eauto.
Qed.

(** ... and a span whose baggage map is another, allocated, map keeps its
    baggage, and stays apart. *)
Lemma SetBaggageItem_other h s p k v :
  p <> s ->
  separate_baggage h s p ->
  baggage_ptr (SetBaggageItem h s k v) p = baggage_ptr h p /\
  baggage_at (SetBaggageItem h s k v) p = baggage_at h p /\
  separate_baggage (SetBaggageItem h s k v) s p.
Proof.
  intros Hne Hsep. unfold SetBaggageItem.
  destruct (spans h !! s) as [[[c|] o n]|] eqn:E; try done.
  assert (Hs : baggage_ptr h s = Some (mu_baggage c)).
  { unfold baggage_ptr, crdb_at. by rewrite E. }
  set (r := write_baggage (maps h) (mu_baggage c) k v).
  assert (Hr : forall mp, baggage_ptr h p = Some (Some mp) ->
                 r.1 <> mp /\ r.2 !! mp = maps h !! mp /\ mp ∈ dom r.2).
  { intros mp Hmp. destruct (Hsep mp Hmp) as [Hd Hn]. rewrite Hs in Hn.
    subst r. unfold write_baggage. destruct (mu_baggage c) as [ms|]; cbn [fst snd].
    - assert (ms <> mp) by congruence.
      split_and!; [done | by rewrite lookup_insert_ne | rewrite dom_insert_L; set_solver].
    - assert (fresh (dom (maps h)) <> mp)
        by (intros Hf; rewrite <- Hf in Hd; by apply is_fresh in Hd).
      split_and!; [done | by rewrite lookup_insert_ne | rewrite dom_insert_L; set_solver]. }
  cbv zeta. set (h' := mkHeap _ _).
  assert (Hp : baggage_ptr h' p = baggage_ptr h p).
  { unfold baggage_ptr, h'. rewrite crdb_at_insert. by rewrite decide_False. }
  split_and!; [done | |].
  - rewrite !baggage_at_ptr, Hp. destruct (baggage_ptr h p) as [[mp|]|] eqn:Hmp; try done.
    destruct (Hr mp eq_refl) as (_ & Hl & _). unfold h'. cbn [maps]. by rewrite Hl.
  - intros mp Hmp. rewrite Hp in Hmp. destruct (Hr mp Hmp) as (Hn & _ & Hd).
    split; [done|]. unfold baggage_ptr, h'. rewrite crdb_at_insert, decide_True by done.
    cbn. congruence.
Qed.

(** The loop that copies baggage into a span with a record, as seen from that
    span and from a span that is apart. *)
Lemma SetBaggageItems_self kvs : forall h s,
  is_Some (baggage_ptr h s) ->
  baggage_at (SetBaggageItems h s kvs) s = store_all kvs (baggage_at h s) /\
  is_Some (baggage_ptr (SetBaggageItems h s kvs) s).
Proof.
  induction kvs as [|[k v] kvs IH]; intros h s Hs; [done|].
  change (SetBaggageItems h s ((k, v) :: kvs))
    with (SetBaggageItems (SetBaggageItem h s k v) s kvs).
  destruct (SetBaggageItem_self h s k v Hs) as [Hb Hs'].
  destruct (IH _ s Hs') as [-> ?]. split; [|done].
  rewrite Hb. reflexivity.
Qed.

Lemma SetBaggageItems_other kvs : forall h s p,
  p <> s ->
  separate_baggage h s p ->
  baggage_ptr (SetBaggageItems h s kvs) p = baggage_ptr h p /\
  baggage_at (SetBaggageItems h s kvs) p = baggage_at h p /\
  separate_baggage (SetBaggageItems h s kvs) s p.
Proof.
  induction kvs as [|[k v] kvs IH]; intros h s p Hne Hsep; [done|].
  change (SetBaggageItems h s ((k, v) :: kvs))
    with (SetBaggageItems (SetBaggageItem h s k v) s kvs).
  destruct (SetBaggageItem_other h s p k v Hne Hsep) as (Hp & Hb & Hsep').
  destruct (IH _ s p Hne Hsep') as (-> & -> & ?). done.
Qed.

Lemma SetBaggageItems_ids kvs : forall h s,
  (forall q, ids_at (SetBaggageItems h s kvs) q = ids_at h q) /\
  dom (spans (SetBaggageItems h s kvs)) = dom (spans h).
Proof.
  induction kvs as [|[k v] kvs IH]; intros h s; [done|].
  change (SetBaggageItems h s ((k, v) :: kvs))
    with (SetBaggageItems (SetBaggageItem h s k v) s kvs).
  destruct (IH (SetBaggageItem h s k v) s) as [Hi ->].
  destruct (SetBaggageItem_ids h s k v) as [Hi' ->].
  split; [|done]. intros q. by rewrite Hi.
Qed.

(** Writing the pairs of a map into the empty map gives the map back. *)
Lemma store_all_map_to_list (m : gmap string string) :
  store_all (map_to_list m) ∅ = m.
Proof.
  apply map_eq. intros x. apply option_eq. intros v. split.
  - intros [H|H]%store_all_lookup_Some; [by rewrite lookup_empty in H|].
    by apply elem_of_map_to_list in H.
  - intros H. apply store_all_lookup_unique.
    + intros v' Hv'. apply elem_of_map_to_list in Hv'. congruence.
    + right. by apply elem_of_map_to_list.
Qed.

End heap_facts.

(** ** Facts of [startSpanGeneric] *)

Section span_facts.

(** The new record is put at a fresh address with no baggage map. *)
Lemma alloc_frame h s c o n :
  s ∉ dom (spans h) ->
  mu_baggage c = None ->
  let h1 := mkHeap (<[s := mkSpan (Some c) o n]> (spans h)) (maps h) in
  baggage_ptr h1 s = Some None /\
  ids_at h1 s = Some (c_traceID c, c_spanID c) /\
  (forall q, q <> s -> baggage_ptr h1 q = baggage_ptr h q).
Proof.
  intros Hs Hc h1. unfold baggage_ptr, ids_at, h1. split_and!.
  - rewrite crdb_at_insert, decide_True by done. simpl. by rewrite Hc.
  - by rewrite crdb_at_insert, decide_True by done.
  - intros q Hq. by rewrite crdb_at_insert, decide_False by done.
Qed.

Lemma startRealSpan_facts t h env ctx opName opts :
  let s := fresh (dom (spans h)) in
  exists t' h',
    startRealSpan t h env ctx opName opts = (t', h', maybeWrapCtx ctx true s) /\
    noopSpan t' = noopSpan t /\
    activeSpans t' =
      (if decide (Parent opts = None /\ BypassRegistry opts = false)
       then {[s]} ∪ activeSpans t else activeSpans t) /\
    ids_at h' s =
      Some (if Opts.parentTraceID h opts =? 0
            then (Int63_1 env, Int63_2 env)
            else (Opts.parentTraceID h opts, Int63_1 env)) /\
    (forall p, Parent opts = Some p ->
       is_Some (baggage_ptr h p) -> baggage_allocated h p ->
       p <> s /\ baggage_at h' s = baggage_at h p /\
       baggage_at h' p = baggage_at h p /\ separate_baggage h' s p).
Proof.
  intros s. unfold startRealSpan.
  set (opts' := match LogTags_opt opts, Parent opts with
                | None, Some p => _ | _, _ => opts end).
  assert (Ho : Parent opts' = Parent opts /\ RemoteParent opts' = RemoteParent opts /\
               BypassRegistry opts' = BypassRegistry opts /\ Tags opts' = Tags opts).
  { subst opts'. repeat case_match; simpl; split_and!; congruence. }
  destruct Ho as (HoP & HoR & HoB & HoT).
  assert (Htid : Opts.parentTraceID h opts' = Opts.parentTraceID h opts)
    by (unfold Opts.parentTraceID; by rewrite HoP, HoR).
  assert (Hrec : Opts.recordingType h opts' = Opts.recordingType h opts)
    by (unfold Opts.recordingType; by rewrite HoP, HoR).
  rewrite Htid, HoP, HoR, HoB, HoT.
  set (ids := if Opts.parentTraceID h opts =? 0
              then (Int63_1 env, Int63_2 env)
              else (Opts.parentTraceID h opts, Int63_1 env)).
  replace (if Opts.parentTraceID h opts =? 0
           then (Int63_1 env, Int63_2 env)
           else (Opts.parentTraceID h opts, Int63_1 env)) with ids by done.
  destruct ids as [tid sid] eqn:Hids.
  set (c0 := mkCrdbSpan tid sid (goid env) opName (now env)
               (Opts.parentSpanID h opts') (LogTags_opt opts') RecordingOff (-1) None ∅).
  fold s.
  set (h1 := mkHeap (<[s := mkSpan (Some c0) _ _]> (spans h)) (maps h)).
  assert (Hfresh : s ∉ dom (spans h)) by apply is_fresh.
  destruct (alloc_frame h s c0 (make_ot t h opts' opName (now env))
              (make_netTr t opts' opName) Hfresh eq_refl) as (Hp1 & Hi1 & Hq1).
  fold h1 in Hp1, Hi1, Hq1.
  set (h2 := SetTags (enableRecording h1 s _) s _).
  assert (H2 : maps h2 = maps h /\
               (forall q, baggage_ptr h2 q = baggage_ptr h1 q) /\
               (forall q, ids_at h2 q = ids_at h1 q)).
  { subst h2.
    match goal with |- context [SetTags ?a ?b ?c] =>
      destruct (SetTags_frame c a b) as (Hm & Hp & Hi & _) end.
    match goal with |- context [enableRecording ?a ?b ?c] =>
      destruct (enableRecording_frame a b c) as (Hm' & Hp' & Hi' & _) end.
    split_and!; [by rewrite Hm, Hm' | |]; intros q; [rewrite Hp | rewrite Hi]; done. }
  destruct H2 as (Hm2 & Hp2 & Hi2).
  destruct (Parent opts) as [p|] eqn:HP.
  - eexists t, _. split; [reflexivity|]. split; [done|].
    rewrite decide_False by (by intros [? _]). split; [done|].
    assert (Hreal : is_Some (baggage_ptr h p) -> p <> s).
    { intros [bp Hbp] ->. unfold baggage_ptr, crdb_at in Hbp.
      apply not_elem_of_dom in Hfresh. by rewrite Hfresh in Hbp. }
    split.
    + rewrite isNoop_ptr.
      destruct (baggage_ptr h2 p) eqn:Hbp; [|by rewrite Hi2].
      destruct (SetBaggageItems_ids (map_to_list (baggage_at h2 p)) h2 s) as [-> _].
      by rewrite Hi2.
    + intros p' [= <-] Hps Hal. pose proof (Hreal Hps) as Hne.
      assert (Hbp : baggage_ptr h2 p = baggage_ptr h p) by (by rewrite Hp2, Hq1).
      rewrite isNoop_ptr, Hbp. destruct Hps as [bp Hps]. rewrite Hps.
      assert (Hbag : baggage_at h2 p = baggage_at h p)
        by (by rewrite !baggage_at_ptr, Hbp, Hm2).
      assert (Hsep : separate_baggage h2 s p).
      { intros mp Hmp. rewrite Hbp in Hmp. split; [rewrite Hm2; by apply Hal|].
        rewrite Hp2, Hp1. done. }
      assert (Hs2 : is_Some (baggage_ptr h2 s)) by (rewrite Hp2, Hp1; eauto).
      destruct (SetBaggageItems_self (map_to_list (baggage_at h2 p)) h2 s Hs2)
        as [Hself _].
      destruct (SetBaggageItems_other (map_to_list (baggage_at h2 p)) h2 s p Hne Hsep)
        as (_ & Hother & Hsep').
      split_and!; [done | | |done].
      * rewrite Hself. rewrite (baggage_at_ptr h2 s), Hp2, Hp1.
        by rewrite store_all_map_to_list.
      * by rewrite Hother.
  - destruct (BypassRegistry opts) eqn:HB.
    + eexists t, _. split; [reflexivity|]. split; [done|].
      rewrite decide_False by (by intros [_ ?]). split; [done|]. split; [|done].
      destruct (RemoteParent opts) as [sm|]; [|by rewrite Hi2].
      match goal with |- context [SetBaggageItems ?a ?b ?c] =>
        destruct (SetBaggageItems_ids c a b) as [-> _] end. by rewrite Hi2.
    + eexists _, _. split; [reflexivity|]. split; [done|].
      rewrite decide_True by done. split; [done|]. split; [|done].
      destruct (RemoteParent opts) as [sm|]; [|by rewrite Hi2].
      match goal with |- context [SetBaggageItems ?a ?b ?c] =>
        destruct (SetBaggageItems_ids c a b) as [-> _] end. by rewrite Hi2.
Qed.

End span_facts.

(** ** Span creation: the claims *)

Section span_claims.

Lemma maybeWrapCtx_span ctx octx sp :
  exists ctx', maybeWrapCtx ctx octx sp = (ctx', sp).
Proof. unfold maybeWrapCtx. case_decide; [eauto|]. destruct octx; eauto. Qed.

Lemma adjusted_fields t ctx opts :
  Parent (adjusted t ctx opts) = Parent opts /\
  RemoteParent (adjusted t ctx opts) = RemoteParent opts /\
  BypassRegistry (adjusted t ctx opts) = BypassRegistry opts /\
  Tags (adjusted t ctx opts) = Tags opts /\
  RefType (adjusted t ctx opts) = RefType opts /\
  ForceRealSpan (adjusted t ctx opts)
  = (mode t =? modeBackground) || ForceRealSpan opts.
Proof.
  unfold adjusted. destruct (mode t =? modeBackground);
    destruct (LogTags_opt opts) eqn:E; simpl; rewrite ?E; done.
Qed.

Lemma startSpanGeneric_valid t h env ctx opName opts :
  valid_options opts ->
  startSpanGeneric t h env ctx opName opts =
    if real_span_wanted t h opts
    then Returned (startRealSpan t h env ctx opName (adjusted t ctx opts))
    else Returned (t, h, maybeWrapCtx ctx false (noopSpan t)).
Proof.
  intros [Href Hpar]. unfold startSpanGeneric.
  assert ((negb (RefType opts =? ChildOfRef) && negb (RefType opts =? FollowsFromRef))
          = false) as ->.
  { destruct Href as [-> | ->]; reflexivity. }
  assert (((if Parent opts is Some _ then true else false)
           && (if RemoteParent opts is Some _ then true else false)) = false) as ->.
  { destruct Hpar as [-> | ->]; [done|]. by destruct (Parent opts). }
  fold (adjusted t ctx opts).
  destruct (adjusted_fields t ctx opts) as (HP & HR & _ & _ & _ & HF).
  assert (Opts.recordingType h (adjusted t ctx opts) = Opts.recordingType h opts) as ->
    by (unfold Opts.recordingType; by rewrite HP, HR).
  rewrite HF. unfold real_span_wanted.
  destruct (mode t =? modeBackground), (AlwaysTrace t),
    (bool_decide (Opts.recordingType h opts = RecordingOff)), (ForceRealSpan opts);
    reflexivity.
Qed.

(** The ids a real span gets: the trace id of the parent if it provides one,
    else the first draw; the span id is the next draw. *)
Lemma real_span_ids t h env ctx opName opts :
  valid_options opts ->
  real_span_wanted t h opts = true ->
  exists t' h' ctx' s,
    startSpanGeneric t h env ctx opName opts = Returned (t', h', (ctx', s)) /\
    isNoop h' s = false /\
    Span_traceID h' s = (if Opts.parentTraceID h opts =? 0 then Int63_1 env
                         else Opts.parentTraceID h opts) /\
    Span_spanID h' s = (if Opts.parentTraceID h opts =? 0 then Int63_2 env
                        else Int63_1 env).
Proof.
  intros Hv Hw. rewrite startSpanGeneric_valid, Hw by done.
  destruct (startRealSpan_facts t h env ctx opName (adjusted t ctx opts))
    as (t' & h' & -> & _ & _ & Hids & _).
  destruct (adjusted_fields t ctx opts) as (HP & HR & _).
  assert (Opts.parentTraceID h (adjusted t ctx opts) = Opts.parentTraceID h opts)
    as Htid by (unfold Opts.parentTraceID; by rewrite HP, HR).
  rewrite Htid in Hids.
  destruct (maybeWrapCtx_span ctx true (fresh (dom (spans h)))) as [ctx' ->].
  do 4 eexists. split; [reflexivity|].
  unfold ids_at in Hids. unfold isNoop, Span_traceID, Span_spanID.
  destruct (crdb_at h' (fresh (dom (spans h)))) as [c|]; [|done].
  simpl in Hids. injection Hids as Hids.
  destruct (Opts.parentTraceID h opts =? 0); injection Hids as -> ->; done.
Qed.

(** C5. A call whose options name both a local parent span and a remote
    parent SpanMeta panics: it returns no span and picks no parent. (The
    panic is the one of the reference-type check when that check fails
    first.) *)
Theorem StartSpanCtx_both_parents_panics t h env ctx operationName os p sm :
  Parent (apply_options os) = Some p ->
  RemoteParent (apply_options os) = Some sm ->
  StartSpanCtx t h env ctx operationName os =
    Panicked (if decide (RefType (apply_options os) = ChildOfRef \/
                         RefType (apply_options os) = FollowsFromRef)
              then "can't specify both Parent and RemoteParent"
              else ("unexpected RefType " ++ pretty (RefType (apply_options os)))%string).
Proof.
  intros HP HR. unfold StartSpanCtx, startSpanGeneric. rewrite HP, HR.
  unfold ChildOfRef, FollowsFromRef.
  destruct (Z.eqb_spec (RefType (apply_options os)) 0) as [E0|E0];
    [by rewrite decide_True by auto|].
  destruct (Z.eqb_spec (RefType (apply_options os)) 1) as [E1|E1];
    [by rewrite decide_True by auto|].
  rewrite decide_False by (by intros [?|?]). done.
Qed.

Lemma StartSpanCtx_both_parents_panics_witness :
  StartSpanCtx tracer_plain heap_parent env_some (callerCtx None) "op"
    [opt_Parent 2%positive; opt_RemoteParent meta_lower]
  = Panicked "can't specify both Parent and RemoteParent".
Proof.
  apply (StartSpanCtx_both_parents_panics tracer_plain heap_parent env_some
           (callerCtx None) "op"
           [opt_Parent 2%positive; opt_RemoteParent meta_lower]
           2%positive meta_lower); reflexivity.
Defined.



(** The no-op span [NewTracer] allocates has no record: its ids read zero. *)
Lemma NewTracer_noop_ids h :
  let '(t, h') := NewTracer h in
  isNoop h' (noopSpan t) = true /\
  Span_traceID h' (noopSpan t) = 0 /\ Span_spanID h' (noopSpan t) = 0.
Proof.
  unfold NewTracer, isNoop, Span_traceID, Span_spanID. cbn [noopSpan].
  by rewrite crdb_at_insert, decide_True by done.
Qed.

(** C3 fails on the code: when the first draw of [rand.Int63()] is zero,
    which is in its range, a forced root span is a real span (it has a
    record, it is not the no-op span, it is in the registry) whose trace id
    is zero. *)
Lemma real_span_with_zero_trace_id :
  is_Int63 (Int63_1 env_zero) /\ is_Int63 (Int63_2 env_zero) /\
  exists t' h' ctx',
    StartSpanCtx tracer_plain heap_plain env_zero noCtx "op" [opt_ForceRealSpan]
    = Returned (t', h', (ctx', 2%positive)) /\
    2%positive <> noopSpan tracer_plain /\
    isNoop h' 2%positive = false /\
    2%positive ∈ activeSpans t' /\
    Span_traceID h' 2%positive = 0 /\ Span_spanID h' 2%positive = 42.
Proof.
  split; [unfold is_Int63; simpl; lia|]. split; [unfold is_Int63; simpl; lia|].
  do 3 eexists. split; [vm_compute; reflexivity|].
  split; [discriminate|].
  split_and!; [vm_compute; reflexivity | | vm_compute; reflexivity ..].
  apply elem_of_elements. vm_compute. left.
Qed.

(** C4, as the code has it. A real span made by [StartSpanCtx] is put into
    the registry of active root spans exactly when the bypass-registry option
    is not set and no local parent span was given; a remote parent does not
    keep it out. The registry is otherwise unchanged. *)
Theorem real_span_registered_iff_local_root t h env ctx operationName os :
  valid_options (apply_options os) ->
  real_span_wanted t h (apply_options os) = true ->
  activeSpans t ⊆ dom (spans h) ->
  exists t' h' ctx' s,
    StartSpanCtx t h env ctx operationName os = Returned (t', h', (ctx', s)) /\
    isNoop h' s = false /\ (s ∉ activeSpans t) /\
    (s ∈ activeSpans t' <->
     BypassRegistry (apply_options os) = false /\ Parent (apply_options os) = None) /\
    (forall q, q <> s -> ((q ∈ activeSpans t') <-> (q ∈ activeSpans t))).
Proof.
  intros Hv Hw Hreg. unfold StartSpanCtx.
  rewrite startSpanGeneric_valid, Hw by done.
  destruct (startRealSpan_facts t h env ctx operationName
              (adjusted t ctx (apply_options os)))
    as (t' & h' & -> & _ & Hact & Hids & _).
  destruct (adjusted_fields t ctx (apply_options os)) as (HP & _ & HB & _).
  rewrite HP, HB in Hact.
  set (s := fresh (dom (spans h))) in *.
  assert (Hfresh : s ∉ activeSpans t).
  { intros Hin. apply Hreg in Hin. by apply is_fresh in Hin. }
  destruct (maybeWrapCtx_span ctx true s) as [ctx' ->].
  exists t', h', ctx', s. split; [reflexivity|]. split_and!.
  - unfold isNoop. unfold ids_at in Hids. by destruct (crdb_at h' s).
  - done.
  - rewrite Hact. case_decide as Hc.
    + split; [tauto|]. intros _. apply elem_of_union. left. by apply elem_of_singleton.
    + split; [done | tauto].
  - intros q Hq. rewrite Hact. case_decide; [|done].
    rewrite elem_of_union, elem_of_singleton. tauto.
Qed.

Lemma real_span_registered_iff_local_root_witness :
  exists t' h' ctx' s,
    StartSpanCtx tracer_plain heap_plain env_some noCtx "op" [opt_ForceRealSpan]
    = Returned (t', h', (ctx', s)) /\
    isNoop h' s = false /\ (s ∉ activeSpans tracer_plain) /\
    (s ∈ activeSpans t' <->
     BypassRegistry (apply_options [opt_ForceRealSpan]) = false /\
     Parent (apply_options [opt_ForceRealSpan]) = None) /\
    (forall q, q <> s -> ((q ∈ activeSpans t') <-> (q ∈ activeSpans tracer_plain))).
Proof.
  apply (real_span_registered_iff_local_root tracer_plain heap_plain env_some
           noCtx "op" [opt_ForceRealSpan]).
  - split; [left; reflexivity | left; reflexivity].
  - reflexivity.
  - intros q Hq. unfold tracer_plain in Hq. cbn [activeSpans] in Hq.
    by apply not_elem_of_empty in Hq.
Defined.

(** C4 as stated fails: a real span made with a remote parent, no local
    parent and no bypass is put into the registry. *)
Lemma remote_child_is_registered :
  exists t' h' ctx',
    StartSpanCtx tracer_plain heap_plain env_some noCtx "op"
      [opt_RemoteParent meta_lower; opt_ForceRealSpan]
    = Returned (t', h', (ctx', 2%positive)) /\
    isNoop h' 2%positive = false /\
    RemoteParent (apply_options [opt_RemoteParent meta_lower; opt_ForceRealSpan])
    = Some meta_lower /\
    BypassRegistry (apply_options [opt_RemoteParent meta_lower; opt_ForceRealSpan])
    = false /\
    2%positive ∈ activeSpans t'.
Proof.
  do 3 eexists. split; [vm_compute; reflexivity|].
  split_and!; [vm_compute; reflexivity | reflexivity | reflexivity |].
  apply elem_of_elements. vm_compute. left.
Qed.

(** C6. A real child made with a real local parent holds, right after its
    creation, the baggage entries the parent holds then, and the parent's are
    untouched; it holds them in a map of its own: setting a baggage item on
    the child afterwards changes the child's baggage and not the parent's. *)
Theorem child_baggage_copied_from_parent t h env ctx operationName os p :
  valid_options (apply_options os) ->
  real_span_wanted t h (apply_options os) = true ->
  Parent (apply_options os) = Some p ->
  isNoop h p = false ->
  baggage_allocated h p ->
  exists t' h' ctx' s,
    StartSpanCtx t h env ctx operationName os = Returned (t', h', (ctx', s)) /\
    s <> p /\ isNoop h' s = false /\
    baggage_at h' s = baggage_at h' p /\ baggage_at h' p = baggage_at h p /\
    forall k v,
      baggage_at (SetBaggageItem h' s k v) p = baggage_at h' p /\
      baggage_at (SetBaggageItem h' s k v) s = <[k:=v]> (baggage_at h' s).
Proof.
  intros Hv Hw HP Hreal Hal. unfold StartSpanCtx.
  rewrite startSpanGeneric_valid, Hw by done.
  destruct (startRealSpan_facts t h env ctx operationName
              (adjusted t ctx (apply_options os)))
    as (t' & h' & -> & _ & _ & Hids & Hbag).
  destruct (adjusted_fields t ctx (apply_options os)) as (HP' & _).
  rewrite HP', HP in Hbag.
  set (s := fresh (dom (spans h))) in *.
  assert (Hps : is_Some (baggage_ptr h p)).
  { rewrite isNoop_ptr in Hreal. destruct (baggage_ptr h p); [eauto|done]. }
  destruct (Hbag p eq_refl Hps Hal) as (Hne & Hs & Hp & Hsep).
  assert (Hss : is_Some (baggage_ptr h' s)).
  { unfold baggage_ptr. unfold ids_at in Hids. destruct (crdb_at h' s); [eauto|done]. }
  destruct (maybeWrapCtx_span ctx true s) as [ctx' ->].
  exists t', h', ctx', s.
  split; [reflexivity|]. split_and!; [done | | congruence | done |].
  - rewrite isNoop_ptr. by destruct Hss as [? ->].
  - intros k v. split.
    + by apply SetBaggageItem_other.
    + by apply SetBaggageItem_self.
Qed.

Lemma child_baggage_copied_from_parent_witness :
  exists t' h' ctx' s,
    StartSpanCtx tracer_plain heap_parent env_some noCtx "op"
      [opt_Parent 2%positive; opt_ForceRealSpan]
    = Returned (t', h', (ctx', s)) /\
    s <> 2%positive /\ isNoop h' s = false /\
    baggage_at h' s = baggage_at h' 2%positive /\
    baggage_at h' 2%positive = baggage_at heap_parent 2%positive /\
    forall k v,
      baggage_at (SetBaggageItem h' s k v) 2%positive = baggage_at h' 2%positive /\
      baggage_at (SetBaggageItem h' s k v) s = <[k:=v]> (baggage_at h' s).
Proof.
  apply (child_baggage_copied_from_parent tracer_plain heap_parent env_some noCtx
           "op" [opt_Parent 2%positive; opt_ForceRealSpan] 2%positive).
  - split; [left; reflexivity | right; reflexivity].
  - vm_compute. reflexivity.
  - reflexivity.
  - vm_compute. reflexivity.
  - intros mp Hmp. vm_compute in Hmp. injection Hmp as <-.
    apply elem_of_dom. vm_compute. eauto.
Defined.

End span_claims.


(** * Further properties of the code *)

(** ** ExtractMetaFrom *)

Section extract_more.

Lemma extract_finish_no_error t format st :
  backend_ok t -> (extract_finish t format st).2 = None.
Proof.
  intros Hok. unfold extract_finish.
  destruct ((x_traceID st =? 0) && (x_spanID st =? 0)); [done|].
  destruct (decide (x_shadowType st = EmptyString)); [done|].
  destruct (shadowTracer_Type (getShadowTracer t)) as [cur ok].
  destruct (getShadowTracer t) as [shadowTr|] eqn:Ht; [|done].
  destruct (decide (x_shadowType st = cur)); [|done].
  destruct (Hok shadowTr Ht) as [_ Hx].
  specialize (Hx format (x_shadowCarrier st)).
  by destruct (Extract shadowTr format (x_shadowCarrier st)) as [ctx [err|]].
Qed.

(** What [extract_finish] returns: the no-tracing SpanMeta, or one with the
    ids and the baggage that were decoded. *)
Lemma extract_finish_cases t format st :
  let r := extract_finish t format st in
  r.1 = noopSpanMeta \/
  (r.2 = None /\ traceID r.1 = x_traceID st /\ spanID r.1 = x_spanID st /\
   Baggage r.1 = x_baggage st /\
   (x_traceID st <> 0 \/ x_spanID st <> 0)).
Proof.
  unfold extract_finish.
  destruct (Z.eqb_spec (x_traceID st) 0) as [Ht|Ht];
    destruct (Z.eqb_spec (x_spanID st) 0) as [Hs|Hs]; cbn [andb]; [by left|..];
    (destruct (decide (x_shadowType st = EmptyString)); [right; split_and!; auto|]);
    destruct (shadowTracer_Type (getShadowTracer t)) as [cur ok];
    (destruct (getShadowTracer t) as [shadowTr|]; [|right; split_and!; auto]);
    (destruct (decide (x_shadowType st = cur)); [|right; split_and!; auto]);
    destruct (Extract shadowTr format (x_shadowCarrier st)) as [ctx [err|]];
    (by left) || (right; split_and!; auto).
Qed.

(** X1. A carrier of a supported kind whose keys are ASCII strings and that
    holds no key reading as the trace id or the span id gives the no-tracing
    SpanMeta and no error, whatever else it holds (baggage, backend fields)
    and in whatever order it is visited. *)
Theorem ExtractMetaFrom_without_ids t carrier order :
  carrier_format carrier <> None ->
  ForEachOrder carrier order ->
  ascii_keys (carrier_entries carrier) ->
  (forall k, is_Some (carrier_entries carrier !! k) ->
     ToLower k <> fieldNameTraceID /\ ToLower k <> fieldNameSpanID) ->
  ExtractMetaFrom t carrier order = (noopSpanMeta, None).
Proof.
  intros Hf Ho _ Hno. unfold ExtractMetaFrom.
  destruct (carrier_format carrier) as [format|]; [|done].
  assert (Hin : forall k v, (k, v) ∈ order ->
            ToLower k <> fieldNameTraceID /\ ToLower k <> fieldNameSpanID).
  { intros k v Hkv. apply (Hno k). unfold ForEachOrder in Ho. rewrite Ho in Hkv.
    apply elem_of_map_to_list in Hkv. eauto. }
  destruct (ForEach_extract_ok order extracted_zero) as [st' Hrun].
  { intros k v Hkv [Hk|Hk]; by destruct (Hin k v Hkv). }
  rewrite Hrun.
  assert (HT : x_traceID st' = 0).
  { destruct (ForEach_extract_traceID _ _ _ 0 Hrun) as [?|[? _]]; [|done|done].
    intros k v Hkv Hk. by destruct (Hin k v Hkv). }
  assert (HS : x_spanID st' = 0).
  { destruct (ForEach_extract_spanID _ _ _ 0 Hrun) as [?|[? _]]; [|done|done].
    intros k v Hkv Hk. by destruct (Hin k v Hkv). }
  unfold extract_finish. by rewrite HT, HS.
Qed.

Lemma ExtractMetaFrom_without_ids_witness :
  ExtractMetaFrom tracer_zipkin
    (MapCarrier (Some {[ "crdb-baggage-sb" := "1" ]})) [("crdb-baggage-sb", "1")]
  = (noopSpanMeta, None).
Proof.
  apply ExtractMetaFrom_without_ids.
  - discriminate.
  - unfold ForEachOrder, carrier_entries, entries_of.
    rewrite map_to_list_singleton. reflexivity.
  - intros k [v Hv]. unfold carrier_entries, entries_of in Hv.
    apply lookup_singleton_Some in Hv as [<- _]. reflexivity.
  - intros k [v Hv]. unfold carrier_entries, entries_of in Hv.
    apply lookup_singleton_Some in Hv as [<- _]. split; vm_compute; discriminate.
Defined.

(** X2. With a backend that does not fail (or none), [ExtractMetaFrom] on a
    carrier of a supported kind whose keys are ASCII strings returns no
    error exactly when every value held under a key reading as the trace id
    or the span id is a hexadecimal unsigned 64-bit integer. *)
Theorem ExtractMetaFrom_ok_iff_ids_valid t carrier order :
  backend_ok t ->
  carrier_format carrier <> None ->
  ForEachOrder carrier order ->
  ascii_keys (carrier_entries carrier) ->
  (ExtractMetaFrom t carrier order).2 = None <->
  (forall k v, carrier_entries carrier !! k = Some v ->
     ToLower k = fieldNameTraceID \/ ToLower k = fieldNameSpanID ->
     valid_hex_uint64 v).
Proof.
  intros Hok Hf Ho _. unfold ExtractMetaFrom.
  destruct (carrier_format carrier) as [format|]; [|done].
  unfold ForEachOrder in Ho. split.
  - intros Hres k v Hkv Hk. apply ParseUint16_valid.
    destruct (ParseUint16 v) as [n|e] eqn:E; [eauto|].
    rewrite (ForEach_extract_malformed order extracted_zero k v) in Hres;
      [done | | done | intros n; by rewrite E].
    rewrite Ho. by apply elem_of_map_to_list.
  - intros Hvalid.
    destruct (ForEach_extract_ok order extracted_zero) as [st' ->].
    + intros k v Hkv Hk. apply ParseUint16_valid, (Hvalid k); [|done].
      rewrite Ho in Hkv. by apply elem_of_map_to_list in Hkv.
    + by apply extract_finish_no_error.
Qed.

Lemma ExtractMetaFrom_ok_iff_ids_valid_witness :
  (ExtractMetaFrom tracer_zipkin
     (MapCarrier (Some {[ "Crdb-Tracer-TraceID" := "1F" ]}))
     [("Crdb-Tracer-TraceID", "1F")]).2 = None <->
  (forall k v,
     carrier_entries (MapCarrier (Some {[ "Crdb-Tracer-TraceID" := "1F" ]})) !! k
     = Some v ->
     ToLower k = fieldNameTraceID \/ ToLower k = fieldNameSpanID ->
     valid_hex_uint64 v).
Proof.
  apply ExtractMetaFrom_ok_iff_ids_valid.
  - intros shadowTr [= <-]. split; intros; reflexivity.
  - discriminate.
  - unfold ForEachOrder, carrier_entries, entries_of.
    rewrite map_to_list_singleton. reflexivity.
  - intros k [v Hv]. unfold carrier_entries, entries_of in Hv.
    apply lookup_singleton_Some in Hv as [<- _]. reflexivity.
Defined.

(** X3. Whenever [ExtractMetaFrom] returns an error, whichever it is (an
    unsupported carrier, a corrupted id, an error of the backend), the
    SpanMeta next to it is the no-tracing one: nothing decoded so far comes
    with it. *)
Theorem ExtractMetaFrom_error_gives_noop t carrier order e :
  (ExtractMetaFrom t carrier order).2 = Some e ->
  (ExtractMetaFrom t carrier order).1 = noopSpanMeta.
Proof.
  unfold ExtractMetaFrom.
  destruct (carrier_format carrier) as [format|]; [|done].
  destruct (ForEach extract_visit extracted_zero order) as [st|e']; [|done].
  destruct (extract_finish_cases t format st) as [?|[Hn _]]; [done|].
  intros He. by rewrite Hn in He.
Qed.

Lemma ExtractMetaFrom_error_gives_noop_witness :
  (ExtractMetaFrom tracer_plain otherCarrier []).1 = noopSpanMeta.
Proof.
  apply (ExtractMetaFrom_error_gives_noop tracer_plain otherCarrier []
           ErrUnsupportedCarrier).
  reflexivity.
Defined.

(** X4. The SpanMeta [ExtractMetaFrom] returns never names a backend other
    than the one attached to the tracer: its backend type is empty, and then
    it has no backend context, or it is the type of the attached backend. In
    particular a tracer without backend returns no backend fields, whatever
    the carrier holds. *)
Theorem ExtractMetaFrom_backend_type t carrier order :
  let r := ExtractMetaFrom t carrier order in
  (shadowTracerType r.1 = EmptyString /\ shadowCtx r.1 = None) \/
  (exists shadowTr, getShadowTracer t = Some shadowTr /\
     shadowTracerType r.1 = manager_Name shadowTr).
Proof.
  unfold ExtractMetaFrom.
  destruct (carrier_format carrier) as [format|]; [|by left].
  destruct (ForEach extract_visit extracted_zero order) as [st|e']; [|by left].
  unfold extract_finish.
  destruct ((x_traceID st =? 0) && (x_spanID st =? 0)); [by left|].
  destruct (decide (x_shadowType st = EmptyString)); [by left|].
  destruct (getShadowTracer t) as [shadowTr|]; [|by left].
  cbn [shadowTracer_Type].
  destruct (decide (x_shadowType st = manager_Name shadowTr)) as [Heq|]; [|by left].
  destruct (Extract shadowTr format (x_shadowCarrier st)) as [ctx [err|]]; [by left|].
  right. exists shadowTr. by split.
Qed.

(** X5. The backend of the decoding tracer bears only on the backend fields:
    two tracers that both decode a carrier without error, in the same order
    of visit, find the same trace id, span id, baggage and recording type. *)
Theorem ExtractMetaFrom_backend_independent t1 t2 carrier order :
  (ExtractMetaFrom t1 carrier order).2 = None ->
  (ExtractMetaFrom t2 carrier order).2 = None ->
  let r1 := (ExtractMetaFrom t1 carrier order).1 in
  let r2 := (ExtractMetaFrom t2 carrier order).1 in
  traceID r1 = traceID r2 /\ spanID r1 = spanID r2 /\
  Baggage r1 = Baggage r2 /\ recordingType r1 = recordingType r2.
Proof.
  unfold ExtractMetaFrom.
  destruct (carrier_format carrier) as [format|]; [|done].
  destruct (ForEach extract_visit extracted_zero order) as [st|e']; [|done].
  intros H1 H2. cbv zeta.
  assert (Hrec : forall t,
    (extract_finish t format st).2 = None ->
    (extract_finish t format st).1 = noopSpanMeta /\
      x_traceID st = 0 /\ x_spanID st = 0 \/
    (traceID (extract_finish t format st).1 = x_traceID st /\
     spanID (extract_finish t format st).1 = x_spanID st /\
     Baggage (extract_finish t format st).1 = x_baggage st /\
     recordingType (extract_finish t format st).1 =
       (if decide (index_or_zero (x_baggage st) verboseTracingBaggageKey = EmptyString)
        then RecordingOff else RecordingVerbose)) /\
    (x_traceID st <> 0 \/ x_spanID st <> 0)).
  { intros t. unfold extract_finish.
    destruct (Z.eqb_spec (x_traceID st) 0) as [Ht|Ht];
      destruct (Z.eqb_spec (x_spanID st) 0) as [Hs|Hs]; cbn [andb]; [by left|..];
      (destruct (decide (x_shadowType st = EmptyString)); [right; split_and!; auto|]);
      destruct (shadowTracer_Type (getShadowTracer t)) as [cur ok];
      (destruct (getShadowTracer t) as [shadowTr|]; [|right; split_and!; auto]);
      (destruct (decide (x_shadowType st = cur)); [|right; split_and!; auto]);
      destruct (Extract shadowTr format (x_shadowCarrier st)) as [ctx [err|]];
      (by intros ?) || (right; split_and!; auto). }
  destruct (Hrec t1 H1) as [(E1 & Z1 & Z1')|[(A1 & B1 & C1 & D1) N1]];
    destruct (Hrec t2 H2) as [(E2 & Z2 & Z2')|[(A2 & B2 & C2 & D2) N2]].
  - by rewrite E1, E2.
  - destruct N2; congruence.
  - destruct N1; congruence.
  - split_and!; congruence.
Qed.

Lemma ExtractMetaFrom_backend_independent_witness :
  let c := MapCarrier (Some {[ "crdb-tracer-traceid" := "ff" ]}) in
  let order := [("crdb-tracer-traceid", "ff")] in
  let r1 := (ExtractMetaFrom tracer_plain c order).1 in
  let r2 := (ExtractMetaFrom tracer_zipkin c order).1 in
  traceID r1 = traceID r2 /\ spanID r1 = spanID r2 /\
  Baggage r1 = Baggage r2 /\ recordingType r1 = recordingType r2.
Proof.
  apply ExtractMetaFrom_backend_independent; vm_compute; reflexivity.
Defined.

End extract_more.

(** ** InjectMetaInto *)

Section inject_more.

Lemma inject_writes_wire_key t sm format k :
  k ∈ (inject_writes t sm format).*1 -> wire_key k = true.
Proof.
  intros [[k' v] [-> Hkv]]%list_elem_of_fmap. cbn [fst].
  apply elem_of_inject_writes in Hkv
    as [[-> _]|[[-> _]|[[k0 [-> _]]|[->|[k0 ->]]]]]; reflexivity.
Qed.

(** Writes whose keys are all written again leave nothing of the first
    round. *)
Lemma store_all_agree kvs : forall (m m' : gmap string string),
  (forall k, k ∉ kvs.*1 -> m !! k = m' !! k) ->
  store_all kvs m = store_all kvs m'.
Proof.
  induction kvs as [|[k1 v1] kvs IH]; intros m m' Hm.
  - apply map_eq. intros k. apply Hm. apply not_elem_of_nil.
  - simpl. apply IH. intros k Hk.
    destruct (decide (k1 = k)) as [->|Hne]; [by rewrite !lookup_insert_eq|].
    rewrite !lookup_insert_ne by done. apply Hm.
    rewrite fmap_cons, not_elem_of_cons. split; [simpl; congruence | done].
Qed.

Lemma store_all_twice kvs (m : gmap string string) :
  store_all kvs (store_all kvs m) = store_all kvs m.
Proof. apply store_all_agree. intros k Hk. by apply store_all_lookup_notin. Qed.

(** X6. [InjectMetaInto] writes in its three namespaces only: on a carrier
    it can write to, and for a SpanMeta it does not take for no-tracing, it
    returns, the carrier keeps its kind, and every key outside the prefixes
    [crdb-tracer-], [crdb-baggage-] and [crdb-shadow-] keeps the value it
    had, or stays absent. *)
Theorem InjectMetaInto_keeps_other_keys t sm c :
  writable c ->
  isNilOrNoop (Some sm) = false ->
  exists c' err,
    InjectMetaInto t (Some sm) c = Returned (c', err) /\
    carrier_format c' = carrier_format c /\
    forall k, wire_key k = false ->
      carrier_entries c' !! k = carrier_entries c !! k.
Proof.
  intros Hw Hn.
  assert (exists format, carrier_format c = Some format) as [format Hf]
    by (destruct c as [[?|]| |]; simpl in *; eauto; done).
  rewrite (InjectMetaInto_writes _ _ _ format) by done.
  do 2 eexists. split; [reflexivity|]. split; [apply with_store_format|].
  intros k Hk. rewrite with_store_entries by done.
  apply store_all_lookup_notin. intros Hin.
  apply inject_writes_wire_key in Hin. congruence.
Qed.

Lemma InjectMetaInto_keeps_other_keys_witness :
  exists c' err,
    InjectMetaInto tracer_zipkin (Some meta_lower)
      (MapCarrier (Some {[ "authorization" := "token" ]})) = Returned (c', err) /\
    carrier_format c'
    = carrier_format (MapCarrier (Some {[ "authorization" := "token" ]})) /\
    forall k, wire_key k = false ->
      carrier_entries c' !! k
      = carrier_entries (MapCarrier (Some {[ "authorization" := "token" ]})) !! k.
Proof.
  apply InjectMetaInto_keeps_other_keys; [exact I | reflexivity].
Defined.

(** X7. After [InjectMetaInto] of a SpanMeta it does not take for
    no-tracing, the carrier holds the trace id and the span id in
    hexadecimal under their two keys and every baggage entry under its
    prefixed key, whatever the carrier held under these keys before. *)
Theorem InjectMetaInto_overwrites t sm c :
  writable c ->
  isNilOrNoop (Some sm) = false ->
  exists c' err,
    InjectMetaInto t (Some sm) c = Returned (c', err) /\
    carrier_entries c' !! fieldNameTraceID = Some (FormatUint16 (traceID sm)) /\
    carrier_entries c' !! fieldNameSpanID = Some (FormatUint16 (spanID sm)) /\
    forall k v, entries_of (Baggage sm) !! k = Some v ->
      carrier_entries c' !! (prefixBaggage ++ k)%string = Some v.
Proof.
  intros Hw Hn.
  assert (exists format, carrier_format c = Some format) as [format Hf]
    by (destruct c as [[?|]| |]; simpl in *; eauto; done).
  rewrite (InjectMetaInto_writes _ _ _ format) by done.
  do 2 eexists. split; [reflexivity|]. rewrite with_store_entries by done.
  split_and!.
  - apply store_all_lookup_unique; [|right; apply inject_writes_traceID].
    intros v' H. by apply inject_writes_read in H as [-> _].
  - apply store_all_lookup_unique; [|right; apply inject_writes_spanID].
    intros v' H. by apply inject_writes_read in H as (_ & -> & _).
  - intros k v Hb.
    apply store_all_lookup_unique; [|right; by apply inject_writes_baggage].
    intros v' H. apply inject_writes_read in H as (_ & _ & H).
    destruct H as [k1 [Hk Hv]].
    + rewrite ToLower_baggage_key. apply HasPrefix_app.
    + apply app_inj_prefix in Hk as <-. congruence.
Qed.

Lemma InjectMetaInto_overwrites_witness :
  exists c' err,
    InjectMetaInto tracer_plain (Some meta_lower)
      (MapCarrier (Some {[ "crdb-tracer-traceid" := "stale" ]}))
    = Returned (c', err) /\
    carrier_entries c' !! fieldNameTraceID
    = Some (FormatUint16 (traceID meta_lower)) /\
    carrier_entries c' !! fieldNameSpanID
    = Some (FormatUint16 (spanID meta_lower)) /\
    forall k v, entries_of (Baggage meta_lower) !! k = Some v ->
      carrier_entries c' !! (prefixBaggage ++ k)%string = Some v.
Proof.
  apply InjectMetaInto_overwrites; [exact I | reflexivity].
Defined.

(** X8. On a carrier it can write to, [InjectMetaInto] fails only with the
    error of the backend: if it returns an error, a backend is attached, its
    type is the one the SpanMeta names, and the error is the one its [Inject]
    returned. With no backend, or one of another type, it succeeds and
    writes no backend field: the keys in the backend namespace and the
    backend type key stay as they were. *)
Theorem InjectMetaInto_backend_part t sm c :
  writable c ->
  isNilOrNoop (Some sm) = false ->
  exists c' err format,
    InjectMetaInto t (Some sm) c = Returned (c', err) /\
    carrier_format c = Some format /\
    (err <> None ->
     exists shadowTr, getShadowTracer t = Some shadowTr /\
       shadowTracerType sm = manager_Name shadowTr /\
       (Inject shadowTr (shadowCtx sm) format).2 = err) /\
    ((forall shadowTr, getShadowTracer t = Some shadowTr ->
        shadowTracerType sm <> manager_Name shadowTr) ->
     err = None /\
     forall k, k = fieldNameShadowType \/ HasPrefix k prefixShadow = true ->
       carrier_entries c' !! k = carrier_entries c !! k).
Proof.
  intros Hw Hn.
  assert (exists format, carrier_format c = Some format) as [format Hf]
    by (destruct c as [[?|]| |]; simpl in *; eauto; done).
  rewrite (InjectMetaInto_writes _ _ _ format) by done.
  exists (with_store c (store_all (inject_writes t sm format) (carrier_entries c))),
    (inject_shadow_writes t sm format).2, format.
  split; [reflexivity|]. split; [done|]. split.
  - unfold inject_shadow_writes.
    destruct (getShadowTracer t) as [shadowTr|]; [|done].
    case_decide; [|done]. intros _. exists shadowTr. by split.
  - intros Hmis.
    assert (Hsw : inject_shadow_writes t sm format = ([], None)).
    { unfold inject_shadow_writes.
      destruct (getShadowTracer t) as [shadowTr|]; [|done].
      case_decide as E; [|done]. by destruct (Hmis shadowTr eq_refl). }
    rewrite Hsw. split; [done|]. intros k Hk.
    rewrite with_store_entries by done. apply store_all_lookup_notin.
    unfold inject_writes. rewrite Hsw. cbn [fst]. rewrite app_nil_r.
    rewrite !fmap_cons, !not_elem_of_cons. split_and!.
    + destruct Hk as [->|Hk]; [by vm_compute|]. intros ->. by vm_compute in Hk.
    + destruct Hk as [->|Hk]; [by vm_compute|]. intros ->. by vm_compute in Hk.
    + intros [[k' v] [-> [k0 [Hk0 _]]%elem_of_with_prefix]]%list_elem_of_fmap.
      simpl in Hk0. subst k'. cbn [fst] in Hk.
      destruct Hk as [Hk|Hk]; vm_compute in Hk; discriminate Hk.
Qed.

Lemma InjectMetaInto_backend_part_witness :
  exists c' err format,
    InjectMetaInto tracer_plain (Some meta_lower) (metadataCarrier ∅)
    = Returned (c', err) /\
    carrier_format (metadataCarrier ∅) = Some format /\
    (err <> None ->
     exists shadowTr, getShadowTracer tracer_plain = Some shadowTr /\
       shadowTracerType meta_lower = manager_Name shadowTr /\
       (Inject shadowTr (shadowCtx meta_lower) format).2 = err) /\
    ((forall shadowTr, getShadowTracer tracer_plain = Some shadowTr ->
        shadowTracerType meta_lower <> manager_Name shadowTr) ->
     err = None /\
     forall k, k = fieldNameShadowType \/ HasPrefix k prefixShadow = true ->
       carrier_entries c' !! k = carrier_entries (metadataCarrier ∅) !! k).
Proof.
  apply InjectMetaInto_backend_part; [exact I | reflexivity].
Defined.

(** X9. Injecting the same SpanMeta a second time changes nothing: the
    carrier after two injections is the carrier after one (the backend being
    taken to write the same fields both times). *)
Theorem InjectMetaInto_twice t sm c :
  writable c ->
  isNilOrNoop (Some sm) = false ->
  exists c' err,
    InjectMetaInto t (Some sm) c = Returned (c', err) /\
    InjectMetaInto t (Some sm) c' = Returned (c', err).
Proof.
  intros Hw Hn.
  assert (exists format, carrier_format c = Some format) as [format Hf]
    by (destruct c as [[?|]| |]; simpl in *; eauto; done).
  rewrite (InjectMetaInto_writes _ _ _ format) by done.
  do 2 eexists. split; [reflexivity|].
  rewrite (InjectMetaInto_writes _ _ _ format);
    [| by apply with_store_writable | by rewrite with_store_format | done].
  rewrite with_store_twice, with_store_entries by done.
  by rewrite store_all_twice.
Qed.

Lemma InjectMetaInto_twice_witness :
  exists c' err,
    InjectMetaInto tracer_zipkin (Some meta_lower) (MapCarrier (Some ∅))
    = Returned (c', err) /\
    InjectMetaInto tracer_zipkin (Some meta_lower) c' = Returned (c', err).
Proof.
  apply InjectMetaInto_twice; [exact I | reflexivity].
Defined.

End inject_more.

(** ** Round trips through a carrier *)

Section roundtrip_more.

Lemma extract_finish_tracing t format st :
  backend_ok t ->
  x_traceID st <> 0 \/ x_spanID st <> 0 ->
  exists sm', extract_finish t format st = (sm', None) /\
    traceID sm' = x_traceID st /\ spanID sm' = x_spanID st /\
    Baggage sm' = x_baggage st /\
    recordingType sm' =
      (if decide (index_or_zero (x_baggage st) verboseTracingBaggageKey = EmptyString)
       then RecordingOff else RecordingVerbose).
Proof.
  intros Hok Hne. unfold extract_finish.
  assert (((x_traceID st =? 0) && (x_spanID st =? 0)) = false) as ->.
  { destruct (Z.eqb_spec (x_traceID st) 0), (Z.eqb_spec (x_spanID st) 0);
      try done. by destruct Hne. }
  destruct (decide (x_shadowType st = EmptyString)); [eauto 10|].
  destruct (shadowTracer_Type (getShadowTracer t)) as [cur ok].
  destruct (getShadowTracer t) as [shadowTr|] eqn:Ht; [|eauto 10].
  destruct (decide (x_shadowType st = cur)); [|eauto 10].
  destruct (Hok shadowTr Ht) as [_ Hx].
  specialize (Hx format (x_shadowCarrier st)).
  destruct (Extract shadowTr format (x_shadowCarrier st)) as [ctx [err|]];
    [done | eauto 10].
Qed.

(** The loop of [ExtractMetaFrom] over what [InjectMetaInto] left in an
    empty carrier: the ids come back, and the baggage comes back under
    lower-cased keys. *)
Lemma extract_loop_after_inject t sm format order :
  is_uint64 (traceID sm) -> is_uint64 (spanID sm) ->
  order ≡ₚ map_to_list (store_all (inject_writes t sm format) ∅) ->
  exists st', ForEach extract_visit extracted_zero order = inl st' /\
    x_traceID st' = traceID sm /\ x_spanID st' = spanID sm /\
    (forall x v, entries_of (x_baggage st') !! x = Some v ->
       exists k0, ToLower k0 = x /\ entries_of (Baggage sm) !! k0 = Some v) /\
    (forall k0, is_Some (entries_of (Baggage sm) !! k0) ->
       is_Some (entries_of (x_baggage st') !! ToLower k0)).
Proof.
  intros Ht Hs Ho.
  set (M := store_all (inject_writes t sm format) ∅) in *.
  assert (Hin : forall k v, (k, v) ∈ order <-> M !! k = Some v).
  { intros k v. by rewrite Ho, elem_of_map_to_list. }
  assert (Hread : forall k v, (k, v) ∈ order ->
    (ToLower k = fieldNameTraceID -> v = FormatUint16 (traceID sm)) /\
    (ToLower k = fieldNameSpanID -> v = FormatUint16 (spanID sm)) /\
    (HasPrefix (ToLower k) prefixBaggage = true ->
     exists k0, k = (prefixBaggage ++ k0)%string /\
                entries_of (Baggage sm) !! k0 = Some v)).
  { intros k v Hkv. apply Hin in Hkv.
    by apply injected_store_lookup, inject_writes_read in Hkv. }
  destruct (ForEach_extract_ok order extracted_zero) as [st' Hrun].
  { intros k v Hkv Hk. destruct (Hread k v Hkv) as (H1 & H2 & _).
    destruct Hk as [Hk|Hk]; [rewrite (H1 Hk) | rewrite (H2 Hk)];
      eexists; by apply ParseUint16_FormatUint16. }
  exists st'. split; [done|]. split_and!.
  - destruct (ForEach_extract_traceID _ _ _ (traceID sm) Hrun) as [HT|[_ Hno]]; [|done|].
    + intros k v Hkv Hk. destruct (Hread k v Hkv) as (H1 & _).
      rewrite (H1 Hk). by apply ParseUint16_FormatUint16.
    + exfalso. apply (Hno fieldNameTraceID (FormatUint16 (traceID sm))); [|done].
      apply Hin, injected_store_traceID.
  - destruct (ForEach_extract_spanID _ _ _ (spanID sm) Hrun) as [HS|[_ Hno]]; [|done|].
    + intros k v Hkv Hk. destruct (Hread k v Hkv) as (_ & H2 & _).
      rewrite (H2 Hk). by apply ParseUint16_FormatUint16.
    + exfalso. apply (Hno fieldNameSpanID (FormatUint16 (spanID sm))); [|done].
      apply Hin, injected_store_spanID.
  - destruct (ForEach_extract_baggage _ _ _ Hrun) as (Hsrc & _ & _).
    intros x v [Hx|(k & Hkv & Hp & Htrim)]%Hsrc;
      [cbn in Hx; by rewrite lookup_empty in Hx|].
    destruct (Hread k v Hkv) as (_ & _ & H3). destruct (H3 Hp) as [k0 [-> Hb]].
    rewrite ToLower_baggage_key, TrimPrefix_app in Htrim. eauto.
  - destruct (ForEach_extract_baggage _ _ _ Hrun) as (_ & _ & Hall).
    intros k0 [v Hb].
    pose proof (injected_store_baggage t sm format k0 v Hb) as HM.
    apply Hin in HM. specialize (Hall _ _ HM).
    rewrite ToLower_baggage_key, TrimPrefix_app in Hall. apply Hall, HasPrefix_app.
Qed.

(** X10. What a round trip does to a baggage with ASCII keys. For a SpanMeta
    that [InjectMetaInto] does not take for no-tracing, whose ids are not
    both zero and whose baggage keys are ASCII strings, injecting into an
    empty carrier of either kind and extracting, in whatever order, gives
    back the ids, and a baggage whose keys are the lower-cased keys of the
    original: every entry recovered has the value of an original entry whose
    key lower-cases to its key, and every original entry is found again
    under its lower-cased key. (A backend, if attached, is taken not to
    fail.) *)
Theorem roundtrip_baggage_keys_lowered t_enc t_dec sm c :
  is_uint64 (traceID sm) -> is_uint64 (spanID sm) ->
  isNilOrNoop (Some sm) = false ->
  traceID sm <> 0 \/ spanID sm <> 0 ->
  ascii_keys (entries_of (Baggage sm)) ->
  empty_carrier c ->
  backend_ok t_enc -> backend_ok t_dec ->
  exists c', InjectMetaInto t_enc (Some sm) c = Returned (c', None) /\
    forall order, ForEachOrder c' order ->
      exists sm', ExtractMetaFrom t_dec c' order = (sm', None) /\
        traceID sm' = traceID sm /\ spanID sm' = spanID sm /\
        (forall k v, entries_of (Baggage sm') !! k = Some v ->
           exists k0, ToLower k0 = k /\ entries_of (Baggage sm) !! k0 = Some v) /\
        (forall k0, is_Some (entries_of (Baggage sm) !! k0) ->
           is_Some (entries_of (Baggage sm') !! ToLower k0)).
Proof.
  intros Ht Hs Hn Hne _ Hc Henc Hdec.
  assert (Hw : writable c) by (by destruct Hc as [->| ->]).
  assert (exists format, carrier_format c = Some format) as [format Hf]
    by (destruct Hc as [->| ->]; simpl; eauto).
  assert (Hempty : carrier_entries c = ∅) by (by destruct Hc as [->| ->]).
  rewrite (InjectMetaInto_writes _ _ _ format) by done. rewrite Hempty.
  assert (Herr : (inject_shadow_writes t_enc sm format).2 = None).
  { unfold inject_shadow_writes.
    destruct (getShadowTracer t_enc) as [shadowTr|] eqn:E; [|done].
    case_decide; [|done]. apply (Henc shadowTr E). }
  rewrite Herr. eexists. split; [reflexivity|].
  intros order Ho. unfold ForEachOrder in Ho. rewrite with_store_entries in Ho by done.
  destruct (extract_loop_after_inject t_enc sm format order Ht Hs Ho)
    as (st' & Hrun & HT & HS & Hfrom & Hto).
  unfold ExtractMetaFrom. rewrite with_store_format, Hf, Hrun.
  destruct (extract_finish_tracing t_dec format st' Hdec)
    as (sm' & -> & ? & ? & HB & _); [rewrite HT, HS; done|].
  exists sm'. rewrite HB. split_and!; [done | congruence | congruence | done | done].
Qed.

Lemma roundtrip_baggage_keys_lowered_witness :
  exists c', InjectMetaInto tracer_plain (Some meta_any_case) (MapCarrier (Some ∅))
             = Returned (c', None) /\
    forall order, ForEachOrder c' order ->
      exists sm', ExtractMetaFrom tracer_zipkin c' order = (sm', None) /\
        traceID sm' = traceID meta_any_case /\ spanID sm' = spanID meta_any_case /\
        (forall k v, entries_of (Baggage sm') !! k = Some v ->
           exists k0, ToLower k0 = k /\
                      entries_of (Baggage meta_any_case) !! k0 = Some v) /\
        (forall k0, is_Some (entries_of (Baggage meta_any_case) !! k0) ->
           is_Some (entries_of (Baggage sm') !! ToLower k0)).
Proof.
  apply (roundtrip_baggage_keys_lowered tracer_plain tracer_zipkin meta_any_case
           (MapCarrier (Some ∅))).
  - change (is_uint64 255). unfold is_uint64, uint64_max. lia.
  - change (is_uint64 16). unfold is_uint64, uint64_max. lia.
  - reflexivity.
  - left. discriminate.
  - intros k [v Hv]. unfold meta_any_case in Hv. cbn [Baggage entries_of] in Hv.
    apply lookup_singleton_Some in Hv as [<- _]. reflexivity.
  - left. reflexivity.
  - intros shadowTr [=].
  - intros shadowTr [= <-]. split; intros; reflexivity.
Defined.

(** X11. Verbose recording crosses a carrier. If the baggage of the SpanMeta
    holds a non-empty entry under ["sb"], and no other of its keys
    lower-cases to ["sb"], the SpanMeta extracted after a round trip through
    an empty carrier has the verbose recording type, whatever the recording
    type of the original. *)
Theorem roundtrip_verbose t_enc t_dec sm c v :
  is_uint64 (traceID sm) -> is_uint64 (spanID sm) ->
  isNilOrNoop (Some sm) = false ->
  traceID sm <> 0 \/ spanID sm <> 0 ->
  empty_carrier c ->
  backend_ok t_enc -> backend_ok t_dec ->
  entries_of (Baggage sm) !! verboseTracingBaggageKey = Some v ->
  v <> EmptyString ->
  (forall k0, is_Some (entries_of (Baggage sm) !! k0) ->
     ToLower k0 = verboseTracingBaggageKey -> k0 = verboseTracingBaggageKey) ->
  exists c', InjectMetaInto t_enc (Some sm) c = Returned (c', None) /\
    forall order, ForEachOrder c' order ->
      exists sm', ExtractMetaFrom t_dec c' order = (sm', None) /\
        recordingType sm' = RecordingVerbose.
Proof.
  intros Ht Hs Hn Hne Hc Henc Hdec Hsb Hv Huniq.
  assert (Hw : writable c) by (by destruct Hc as [->| ->]).
  assert (exists format, carrier_format c = Some format) as [format Hf]
    by (destruct Hc as [->| ->]; simpl; eauto).
  assert (Hempty : carrier_entries c = ∅) by (by destruct Hc as [->| ->]).
  rewrite (InjectMetaInto_writes _ _ _ format) by done. rewrite Hempty.
  assert (Herr : (inject_shadow_writes t_enc sm format).2 = None).
  { unfold inject_shadow_writes.
    destruct (getShadowTracer t_enc) as [shadowTr|] eqn:E; [|done].
    case_decide; [|done]. apply (Henc shadowTr E). }
  rewrite Herr. eexists. split; [reflexivity|].
  intros order Ho. unfold ForEachOrder in Ho. rewrite with_store_entries in Ho by done.
  destruct (extract_loop_after_inject t_enc sm format order Ht Hs Ho)
    as (st' & Hrun & HT & HS & Hfrom & Hto).
  unfold ExtractMetaFrom. rewrite with_store_format, Hf, Hrun.
  destruct (extract_finish_tracing t_dec format st' Hdec)
    as (sm' & -> & _ & _ & _ & Hrec); [rewrite HT, HS; done|].
  exists sm'. split; [done|]. rewrite Hrec.
  destruct (Hto verboseTracingBaggageKey) as [v' Hv']; [eauto|].
  change (ToLower verboseTracingBaggageKey) with verboseTracingBaggageKey in Hv'.
  destruct (Hfrom _ _ Hv') as (k0 & Hk0 & Hb).
  rewrite (Huniq k0) in Hb by eauto.
  assert (v' = v) as -> by congruence.
  unfold index_or_zero. rewrite Hv'. cbn [default from_option id].
  by rewrite decide_False.
Qed.

Lemma roundtrip_verbose_witness :
  exists c', InjectMetaInto tracer_plain (Some meta_verbose) (metadataCarrier ∅)
             = Returned (c', None) /\
    forall order, ForEachOrder c' order ->
      exists sm', ExtractMetaFrom tracer_plain c' order = (sm', None) /\
        recordingType sm' = RecordingVerbose.
Proof.
  apply (roundtrip_verbose tracer_plain tracer_plain meta_verbose
           (metadataCarrier ∅) "1").
  - change (is_uint64 255). unfold is_uint64, uint64_max. lia.
  - change (is_uint64 16). unfold is_uint64, uint64_max. lia.
  - reflexivity.
  - left. discriminate.
  - right. reflexivity.
  - intros shadowTr [=].
  - intros shadowTr [=].
  - vm_compute. reflexivity.
  - discriminate.
  - intros k0 [w Hw] _. unfold meta_verbose in Hw. cbn [Baggage entries_of] in Hw.
    by apply lookup_singleton_Some in Hw as [<- _].
Defined.

End roundtrip_more.

(** ** Span creation: what else the code shows *)

Section span_more.

Lemma isNoop_ids h q : isNoop h q = if ids_at h q is Some _ then false else true.
Proof. unfold isNoop, ids_at. by destruct (crdb_at h q). Qed.

(** The calls that follow the allocation of a span write to its tags, its
    baggage and its recording type: the log tags and the sub-spans a span
    has stay as they were made. *)
Lemma enableRecording_made h s r :
  (forall q, logTags_at (enableRecording h s r) q = logTags_at h q) /\
  (forall q, shadow_type_at (enableRecording h s r) q = shadow_type_at h q) /\
  (forall q, has_netTr (enableRecording h s r) q = has_netTr h q).
Proof.
  unfold enableRecording.
  destruct (spans h !! s) as [[[c|] o n]|] eqn:E; try done.
  unfold logTags_at, shadow_type_at, has_netTr, crdb_at. cbn [spans].
  split_and!; intros q; (destruct (decide (s = q)) as [<-|Hq];
    [rewrite lookup_insert_eq, E | by rewrite lookup_insert_ne by done]); done.
Qed.

Lemma SetTag_made h s k v :
  (forall q, logTags_at (SetTag h s k v) q = logTags_at h q) /\
  (forall q, shadow_type_at (SetTag h s k v) q = shadow_type_at h q) /\
  (forall q, has_netTr (SetTag h s k v) q = has_netTr h q).
Proof.
  unfold SetTag.
  destruct (spans h !! s) as [[[c|] o n]|] eqn:E; try done.
  unfold logTags_at, shadow_type_at, has_netTr, crdb_at. cbn [spans].
  split_and!; intros q; (destruct (decide (s = q)) as [<-|Hq];
    [rewrite lookup_insert_eq, E | by rewrite lookup_insert_ne by done]);
    [done | by destruct o | by destruct n].
Qed.

Lemma SetTags_made kvs : forall h s,
  (forall q, logTags_at (SetTags h s kvs) q = logTags_at h q) /\
  (forall q, shadow_type_at (SetTags h s kvs) q = shadow_type_at h q) /\
  (forall q, has_netTr (SetTags h s kvs) q = has_netTr h q).
Proof.
  induction kvs as [|[k v] kvs IH]; intros h s; [done|].
  change (SetTags h s ((k, v) :: kvs)) with (SetTags (SetTag h s k v) s kvs).
  destruct (IH (SetTag h s k v) s) as (H1 & H2 & H3).
  destruct (SetTag_made h s k v) as (H1' & H2' & H3').
  split_and!; intros q; [rewrite H1 | rewrite H2 | rewrite H3]; done.
Qed.

Lemma SetBaggageItem_made h s k v :
  (forall q, logTags_at (SetBaggageItem h s k v) q = logTags_at h q) /\
  (forall q, shadow_type_at (SetBaggageItem h s k v) q = shadow_type_at h q) /\
  (forall q, has_netTr (SetBaggageItem h s k v) q = has_netTr h q).
Proof.
  unfold SetBaggageItem.
  destruct (spans h !! s) as [[[c|] o n]|] eqn:E; try done.
  unfold logTags_at, shadow_type_at, has_netTr, crdb_at. cbn [spans].
  split_and!; intros q; (destruct (decide (s = q)) as [<-|Hq];
    [rewrite lookup_insert_eq, E | by rewrite lookup_insert_ne by done]);
    [done | by destruct o | done].
Qed.

Lemma SetBaggageItems_made kvs : forall h s,
  (forall q, logTags_at (SetBaggageItems h s kvs) q = logTags_at h q) /\
  (forall q, shadow_type_at (SetBaggageItems h s kvs) q = shadow_type_at h q) /\
  (forall q, has_netTr (SetBaggageItems h s kvs) q = has_netTr h q).
Proof.
  induction kvs as [|[k v] kvs IH]; intros h s; [done|].
  change (SetBaggageItems h s ((k, v) :: kvs))
    with (SetBaggageItems (SetBaggageItem h s k v) s kvs).
  destruct (IH (SetBaggageItem h s k v) s) as (H1 & H2 & H3).
  destruct (SetBaggageItem_made h s k v) as (H1' & H2' & H3').
  split_and!; intros q; [rewrite H1 | rewrite H2 | rewrite H3]; done.
Qed.

Lemma setLogTags_shadow_type tags : forall ss,
  ss_type (setLogTags tags
             (fun ss k v => mkShadowSpan (ss_type ss) (ss_context ss)
                              (<[k:=v]> (ss_tags ss)) (ss_baggage ss)) ss)
  = ss_type ss.
Proof.
  unfold setLogTags. induction tags as [|[k v] tags IH]; intros ss; [done|].
  cbn [foldl]. by rewrite IH.
Qed.

(** The backend sub-span of a new span: there is one when a backend is
    attached and the parent names no backend type or the same type. *)
Lemma make_ot_type t h opts opName startTime :
  ss_type <$> make_ot t h opts opName startTime =
    match getShadowTracer t with
    | Some shadowTr =>
        if negb (Opts.shadowTrTyp h opts).2
           || bool_decide ((Opts.shadowTrTyp h opts).1 = manager_Name shadowTr)
        then Some (manager_Name shadowTr) else None
    | None => None
    end.
Proof.
  unfold make_ot. destruct (Opts.shadowTrTyp h opts) as [typ1 ok1].
  destruct (getShadowTracer t) as [shadowTr|]; [|done].
  cbn [shadowTracer_Type fst snd andb].
  destruct (negb ok1 || bool_decide (typ1 = manager_Name shadowTr)); [|done].
  destruct (LogTags_opt opts); cbn [fmap option_fmap option_map]; [|done].
  by rewrite setLogTags_shadow_type.
Qed.

Lemma make_netTr_some t opts opName :
  (if make_netTr t opts opName is Some _ then true else false) = useNetTrace t.
Proof.
  unfold make_netTr. destruct (useNetTrace t); [|done]. by destruct (LogTags_opt opts).
Qed.

(** The shape of what [startRealSpan] returns: a record put at a fresh
    address, and then the writes to that span. *)
Lemma startRealSpan_shape t h env ctx opName opts :
  let s := fresh (dom (spans h)) in
  exists opts' c0 r tags kvs t',
    startRealSpan t h env ctx opName opts =
      (t',
       SetBaggageItems
         (SetTags
            (enableRecording
               (mkHeap (<[s := mkSpan (Some c0) (make_ot t h opts' opName (now env))
                                 (make_netTr t opts' opName)]> (spans h)) (maps h))
               s r) s tags) s kvs,
       maybeWrapCtx ctx true s) /\
    Parent opts' = Parent opts /\ RemoteParent opts' = RemoteParent opts /\
    LogTags_opt opts' =
      (match LogTags_opt opts with
       | Some tags => Some tags
       | None => match Parent opts with
                 | Some p => c ← crdb_at h p; c_logTags c
                 | None => None
                 end
       end) /\
    mu_baggage c0 = None /\ c_logTags c0 = LogTags_opt opts' /\
    _mode t' = _mode t /\ _useNetTrace t' = _useNetTrace t /\
    shadowTracer_ptr t' = shadowTracer_ptr t.
Proof.
  intros s. unfold startRealSpan.
  set (opts' := match LogTags_opt opts, Parent opts with
                | None, Some p => _ | _, _ => opts end).
  assert (Ho : Parent opts' = Parent opts /\ RemoteParent opts' = RemoteParent opts /\
               LogTags_opt opts' =
                 (match LogTags_opt opts with
                  | Some tags => Some tags
                  | None => match Parent opts with
                            | Some p => c ← crdb_at h p; c_logTags c
                            | None => None
                            end
                  end)).
  { subst opts'. destruct (LogTags_opt opts) eqn:EL; [by rewrite EL|].
    destruct (Parent opts) as [p|] eqn:EP; [|by rewrite EL].
    destruct (crdb_at h p); simpl; by rewrite ?EL, ?EP. }
  destruct Ho as (HoP & HoR & HoL).
  destruct (if Opts.parentTraceID h opts' =? 0
            then (Int63_1 env, Int63_2 env)
            else (Opts.parentTraceID h opts', Int63_1 env)) as [tid sid].
  fold s. rewrite HoP, HoR.
  destruct (Parent opts) as [p|].
  - destruct (isNoop _ p).
    + exists opts'. eexists _, _, _, [], t. split; [reflexivity|]. done.
    + exists opts'. eexists _, _, _, _, t. split; [reflexivity|]. done.
  - destruct (RemoteParent opts) as [sm|].
    + exists opts'. eexists _, _, _, _, _. split; [reflexivity|].
      by destruct (BypassRegistry opts').
    + exists opts'. eexists _, _, _, [], _. split; [reflexivity|].
      by destruct (BypassRegistry opts').
Qed.

(** What [startRealSpan] leaves alone, and how the new span is made. *)
Lemma startRealSpan_more t h env ctx opName opts :
  let s := fresh (dom (spans h)) in
  let r := startRealSpan t h env ctx opName opts in
  dom (spans r.1.2) = {[s]} ∪ dom (spans h) /\
  (forall q, q <> s -> ids_at r.1.2 q = ids_at h q) /\
  (forall q, q <> s -> baggage_allocated h q -> baggage_at r.1.2 q = baggage_at h q) /\
  (_mode r.1.1 = _mode t /\ _useNetTrace r.1.1 = _useNetTrace t /\
   shadowTracer_ptr r.1.1 = shadowTracer_ptr t) /\
  logTags_at r.1.2 s =
    Some (match LogTags_opt opts with
          | Some tags => Some tags
          | None => match Parent opts with
                    | Some p => c ← crdb_at h p; c_logTags c
                    | None => None
                    end
          end) /\
  shadow_type_at r.1.2 s =
    Some (match getShadowTracer t with
          | Some shadowTr =>
              if negb (Opts.shadowTrTyp h opts).2
                 || bool_decide ((Opts.shadowTrTyp h opts).1 = manager_Name shadowTr)
              then Some (manager_Name shadowTr) else None
          | None => None
          end) /\
  has_netTr r.1.2 s = Some (useNetTrace t).
Proof.
  intros s r. subst r.
  destruct (startRealSpan_shape t h env ctx opName opts)
    as (opts' & c0 & r & tags & kvs & t' & -> & HoP & HoR & HoL & Hc0 & Hlt & Hcfg).
  fold s. cbn [fst snd].
  set (o := make_ot t h opts' opName (now env)).
  set (n := make_netTr t opts' opName).
  set (h1 := mkHeap (<[s := mkSpan (Some c0) o n]> (spans h)) (maps h)).
  set (h2 := SetTags (enableRecording h1 s r) s tags).
  assert (Hfresh : s ∉ dom (spans h)) by apply is_fresh.
  destruct (alloc_frame h s c0 o n Hfresh Hc0) as (Hp1 & Hi1 & Hq1). fold h1 in Hp1, Hi1, Hq1.
  destruct (SetTags_frame tags (enableRecording h1 s r) s) as (Hm & Hp & Hi & Hd).
  destruct (enableRecording_frame h1 s r) as (Hm' & Hp' & Hi' & Hd').
  destruct (SetTags_made tags (enableRecording h1 s r) s) as (Hl & Hs & Hn).
  destruct (enableRecording_made h1 s r) as (Hl' & Hs' & Hn').
  destruct (SetBaggageItems_ids kvs h2 s) as [Hi3 Hd3].
  destruct (SetBaggageItems_made kvs h2 s) as (Hl3 & Hs3 & Hn3).
  fold h2 in Hm, Hp, Hi, Hd, Hl, Hs, Hn.
  split_and!.
  - rewrite Hd3, Hd, Hd'. unfold h1. cbn [spans]. by rewrite dom_insert_L.
  - intros q Hq. rewrite Hi3, Hi, Hi'. unfold ids_at, h1.
    by rewrite crdb_at_insert, decide_False by done.
  - intros q Hq Hal.
    assert (Hbp : baggage_ptr h2 q = baggage_ptr h q) by (by rewrite Hp, Hp', Hq1).
    assert (Hsep : separate_baggage h2 s q).
    { intros mp Hmp. rewrite Hbp in Hmp. split; [rewrite Hm, Hm'; by apply Hal|].
      by rewrite Hp, Hp', Hp1. }
    destruct (SetBaggageItems_other kvs h2 s q Hq Hsep) as (_ & -> & _).
    by rewrite !baggage_at_ptr, Hbp, Hm, Hm'.
  - apply Hcfg.
  - apply Hcfg.
  - apply Hcfg.
  - rewrite Hl3, Hl, Hl'. unfold logTags_at, h1.
    rewrite crdb_at_insert, decide_True by done. cbn. by rewrite Hlt, HoL.
  - rewrite Hs3, Hs, Hs'. unfold shadow_type_at, h1. cbn [spans].
    rewrite lookup_insert_eq. cbn. unfold o. rewrite make_ot_type.
    unfold Opts.shadowTrTyp. by rewrite HoP, HoR.
  - rewrite Hn3, Hn, Hn'. unfold has_netTr, h1. cbn [spans].
    rewrite lookup_insert_eq. cbn. unfold n. by rewrite make_netTr_some.
Qed.

(** The context shows in what [startRealSpan] does only in the context it
    returns. *)
Lemma startRealSpan_context t h env ctx1 ctx2 opName opts :
  (startRealSpan t h env ctx1 opName opts).1
  = (startRealSpan t h env ctx2 opName opts).1 /\
  (startRealSpan t h env ctx1 opName opts).2.2
  = (startRealSpan t h env ctx2 opName opts).2.2.
Proof.
  destruct (startRealSpan_shape t h env ctx1 opName opts)
    as (? & ? & ? & ? & ? & ? & E1 & _).
  unfold startRealSpan in *.
  destruct (if Opts.parentTraceID h _ =? 0 then _ else _) as [tid sid].
  destruct (Parent _) as [p|].
  - destruct (maybeWrapCtx_span ctx1 true (fresh (dom (spans h)))) as [c1 ->].
    destruct (maybeWrapCtx_span ctx2 true (fresh (dom (spans h)))) as [c2 ->]. done.
  - destruct (maybeWrapCtx_span ctx1 true (fresh (dom (spans h)))) as [c1 ->].
    destruct (maybeWrapCtx_span ctx2 true (fresh (dom (spans h)))) as [c2 ->]. done.
Qed.

Lemma startSpanGeneric_returns t h env ctx opName opts r :
  startSpanGeneric t h env ctx opName opts = Returned r -> valid_options opts.
Proof.
  unfold startSpanGeneric, valid_options.
  destruct (Z.eqb_spec (RefType opts) ChildOfRef) as [->|];
    destruct (Z.eqb_spec (RefType opts) FollowsFromRef) as [E|];
    cbn [negb andb]; try discriminate;
    destruct (Parent opts), (RemoteParent opts); cbn [andb]; try discriminate;
    intros _; rewrite ?E; auto.
Qed.

(** The two ways a call with valid options ends. *)
Lemma StartSpanCtx_cases t h env ctx operationName os :
  valid_options (apply_options os) ->
  exists t' h' ctx' s,
    StartSpanCtx t h env ctx operationName os = Returned (t', h', (ctx', s)) /\
    ((real_span_wanted t h (apply_options os) = false /\
      t' = t /\ h' = h /\ s = noopSpan t) \/
     (real_span_wanted t h (apply_options os) = true /\
      s = fresh (dom (spans h)) /\
      startRealSpan t h env ctx operationName (adjusted t ctx (apply_options os))
      = (t', h', (ctx', s)))).
Proof.
  intros Hv. unfold StartSpanCtx. rewrite startSpanGeneric_valid by done.
  destruct (real_span_wanted t h (apply_options os)).
  - destruct (startRealSpan_facts t h env ctx operationName
                (adjusted t ctx (apply_options os))) as (t' & h' & Heq & _).
    destruct (maybeWrapCtx_span ctx true (fresh (dom (spans h)))) as [ctx' Hc].
    rewrite Hc in Heq. exists t', h', ctx', (fresh (dom (spans h))).
    rewrite Heq. split; [done|]. right. done.
  - destruct (maybeWrapCtx_span ctx false (noopSpan t)) as [ctx' ->].
    exists t, h, ctx', (noopSpan t). split; [done|]. left. done.
Qed.

Lemma adjusted_logTags t ctx opts :
  LogTags_opt (adjusted t ctx opts) =
    (if LogTags_opt opts is Some tags then Some tags else logtags_FromContext ctx).
Proof.
  unfold adjusted. destruct (mode t =? modeBackground);
    destruct (LogTags_opt opts) eqn:E; simpl; rewrite ?E; done.
Qed.

Lemma adjusted_context t ctx1 ctx2 opts :
  logtags_FromContext ctx1 = logtags_FromContext ctx2 ->
  adjusted t ctx1 opts = adjusted t ctx2 opts.
Proof. intros H. unfold adjusted. by rewrite H. Qed.

(** X13. The context given to [StartSpanCtx] shows in the tracer, the heap
    and the span that come back only through the log tags it carries: two
    contexts with the same log tags give the same of these. So [StartSpan]
    gives what [StartSpanCtx] gives for any context without log tags, less
    the context. *)
Theorem StartSpanCtx_context_only_log_tags t h env ctx1 ctx2 operationName os :
  logtags_FromContext ctx1 = logtags_FromContext ctx2 ->
  drop_context (StartSpanCtx t h env ctx1 operationName os)
  = drop_context (StartSpanCtx t h env ctx2 operationName os) /\
  (logtags_FromContext ctx1 = None ->
   StartSpan t h env operationName os
   = drop_context (StartSpanCtx t h env ctx1 operationName os)).
Proof.
  assert (Hgen : forall c1 c2, logtags_FromContext c1 = logtags_FromContext c2 ->
            drop_context (StartSpanCtx t h env c1 operationName os)
            = drop_context (StartSpanCtx t h env c2 operationName os)).
  { intros c1 c2 Hc. unfold StartSpanCtx, startSpanGeneric.
    destruct (negb _ && negb _); [done|].
    destruct (_ && _); [done|].
    fold (adjusted t c1 (apply_options os)). fold (adjusted t c2 (apply_options os)).
    rewrite (adjusted_context t c1 c2 _ Hc).
    destruct (_ && _ && _).
    - destruct (maybeWrapCtx_span c1 false (noopSpan t)) as [? ->].
      destruct (maybeWrapCtx_span c2 false (noopSpan t)) as [? ->]. done.
    - destruct (startRealSpan_context t h env c1 c2 operationName
                  (adjusted t c2 (apply_options os))) as [H1 H2].
      unfold drop_context. cbn [obind]. by rewrite H1, H2. }
  intros Hc. split; [by apply Hgen|].
  intros Hn. symmetry. apply Hgen. by rewrite Hn.
Qed.

Lemma StartSpanCtx_context_only_log_tags_witness :
  drop_context (StartSpanCtx tracer_plain heap_plain env_some
                  (callerCtx None) "op" [opt_ForceRealSpan])
  = drop_context (StartSpanCtx tracer_plain heap_plain env_some
                    (spanCtx noCtx 1%positive) "op" [opt_ForceRealSpan]) /\
  (logtags_FromContext (callerCtx None) = None ->
   StartSpan tracer_plain heap_plain env_some "op" [opt_ForceRealSpan]
   = drop_context (StartSpanCtx tracer_plain heap_plain env_some
                     (callerCtx None) "op" [opt_ForceRealSpan])).
Proof.
  apply (StartSpanCtx_context_only_log_tags tracer_plain heap_plain env_some
           (callerCtx None) (spanCtx noCtx 1%positive) "op" [opt_ForceRealSpan]).
  reflexivity.
Defined.

(** X14. Starting a span leaves what there was alone. A call with valid
    options changes nothing of the tracer but, at most, its registry; every
    span that was allocated stays allocated, keeps its ids and stays the
    no-op span or a real span as it was; and it keeps its baggage, when its
    baggage map is allocated: the baggage given to the new span is written
    to a map of the new span. *)
Theorem StartSpanCtx_leaves_spans t h env ctx operationName os :
  valid_options (apply_options os) ->
  exists t' h' ctx' s,
    StartSpanCtx t h env ctx operationName os = Returned (t', h', (ctx', s)) /\
    noopSpan t' = noopSpan t /\ mode t' = mode t /\
    useNetTrace t' = useNetTrace t /\ getShadowTracer t' = getShadowTracer t /\
    dom (spans h) ⊆ dom (spans h') /\
    forall q, q ∈ dom (spans h) ->
      ids_at h' q = ids_at h q /\ isNoop h' q = isNoop h q /\
      (baggage_allocated h q -> baggage_at h' q = baggage_at h q).
Proof.
  intros Hv.
  destruct (StartSpanCtx_cases t h env ctx operationName os Hv)
    as (t' & h' & ctx' & s & -> & Hcase).
  exists t', h', ctx', s. split; [done|].
  destruct Hcase as [(_ & -> & -> & _)|(_ & Hs & Heq)]; [done|].
  pose proof (startRealSpan_more t h env ctx operationName
                (adjusted t ctx (apply_options os))) as Hm.
  destruct (startRealSpan_facts t h env ctx operationName
              (adjusted t ctx (apply_options os))) as (t2 & h2 & Heq2 & Hnoop & _).
  rewrite Heq in Heq2. injection Heq2 as <- <- _.
  rewrite Heq in Hm. cbn [fst snd] in Hm. rewrite <- Hs in Hm.
  destruct Hm as (Hdom & Hids & Hbag & (Hmode & Hnt & Hsh) & _).
  unfold mode, useNetTrace, getShadowTracer. rewrite Hmode, Hnt, Hsh.
  split_and!; try done.
  - rewrite Hdom. apply union_subseteq_r.
  - intros q Hq.
    assert (Hne : q <> s) by (intros ->; rewrite Hs in Hq; by apply is_fresh in Hq).
    split_and!.
    + by apply Hids.
    + by rewrite !isNoop_ids, Hids.
    + by apply Hbag.
Qed.

Lemma StartSpanCtx_leaves_spans_witness :
  exists t' h' ctx' s,
    StartSpanCtx tracer_plain heap_parent env_some noCtx "op"
      [opt_Parent 2%positive; opt_ForceRealSpan]
    = Returned (t', h', (ctx', s)) /\
    noopSpan t' = noopSpan tracer_plain /\ mode t' = mode tracer_plain /\
    useNetTrace t' = useNetTrace tracer_plain /\
    getShadowTracer t' = getShadowTracer tracer_plain /\
    dom (spans heap_parent) ⊆ dom (spans h') /\
    forall q, q ∈ dom (spans heap_parent) ->
      ids_at h' q = ids_at heap_parent q /\ isNoop h' q = isNoop heap_parent q /\
      (baggage_allocated heap_parent q -> baggage_at h' q = baggage_at heap_parent q).
Proof.
  apply (StartSpanCtx_leaves_spans tracer_plain heap_parent env_some noCtx "op"
           [opt_Parent 2%positive; opt_ForceRealSpan]).
  split; [left; reflexivity | right; reflexivity].
Defined.

Lemma reconfigure_registry b sv t :
  noopSpan (reconfigure b sv t).1 = noopSpan t /\
  activeSpans (reconfigure b sv t).1 = activeSpans t.
Proof.
  unfold reconfigure, setShadowTracer.
  destruct (negb (String.eqb (lightstepToken_Get sv) EmptyString)); [done|].
  by destruct (negb (String.eqb (zipkinCollector_Get sv) EmptyString)).
Qed.

(** X15. What holds of the registry in every state reached from [NewTracer]
    by starting spans, by runs of the closure of [Configure] and by [Close]:
    the spans in the registry are allocated and real; the no-op span of the
    tracer is allocated, has no record, and is not in the registry. *)
Theorem reachable_registry_real t h :
  reachable t h ->
  tracer_fits t h /\ (noopSpan t ∉ activeSpans t).
Proof.
  intros Hr.
  assert (Hfit : tracer_fits t h).
  { induction Hr as [h|t h env ctx operationName os t' h' ctx' s Hr IH Heq
                      |t h b sv Hr IH|t h Hr IH].
    - unfold NewTracer, tracer_fits. cbn [fst snd noopSpan activeSpans spans].
      split_and!.
      + rewrite dom_insert_L. apply elem_of_union. left. by apply elem_of_singleton.
      + unfold isNoop. by rewrite crdb_at_insert, decide_True by done.
      + intros q Hq. by apply not_elem_of_empty in Hq.
    - pose proof (startSpanGeneric_returns _ _ _ _ _ _ _ Heq) as Hv.
      destruct (StartSpanCtx_cases t h env ctx operationName os Hv)
        as (t2 & h2 & ctx2 & s2 & Heq2 & Hcase).
      rewrite Heq in Heq2. injection Heq2 as <- <- <- <-.
      destruct Hcase as [(_ & -> & -> & _)|(_ & Hs & Hreal)]; [done|].
      pose proof (startRealSpan_more t h env ctx operationName
                    (adjusted t ctx (apply_options os))) as Hm.
      destruct (startRealSpan_facts t h env ctx operationName
                  (adjusted t ctx (apply_options os)))
        as (t3 & h3 & Heq3 & Hnoop & Hact & Hids & _).
      rewrite Hreal in Heq3. injection Heq3 as <- <- _.
      rewrite Hreal in Hm. cbn [fst snd] in Hm. rewrite <- Hs in Hm, Hids, Hact.
      destruct Hm as (Hdom & Hfr & _).
      destruct IH as (Hn1 & Hn2 & Hreg).
      assert (Hfresh : s ∉ dom (spans h)) by (rewrite Hs; apply is_fresh).
      assert (Hold : forall q, q ∈ dom (spans h) ->
                q ∈ dom (spans h') /\ isNoop h' q = isNoop h q).
      { intros q Hq. assert (q <> s) by (by intros ->).
        split; [rewrite Hdom; apply elem_of_union; by right|].
        by rewrite !isNoop_ids, Hfr. }
      unfold tracer_fits. rewrite Hnoop. split_and!.
      + by apply Hold.
      + destruct (Hold _ Hn1) as [_ ->]. done.
      + intros q Hq. rewrite Hact in Hq.
        assert (q = s \/ q ∈ activeSpans t) as [->|Hq'].
        { case_decide; [|by right].
          apply elem_of_union in Hq as [Hq|Hq]; [left; by apply elem_of_singleton in Hq|by right]. }
        * split; [rewrite Hdom; apply elem_of_union; left; by apply elem_of_singleton|].
          by rewrite isNoop_ids, Hids.
        * destruct (Hreg q Hq') as [Hd Hreal']. destruct (Hold q Hd) as [? ->]. done.
    - destruct (reconfigure_registry b sv t) as [Hn Ha].
      unfold tracer_fits. by rewrite Hn, Ha.
    - done. }
  split; [done|]. destruct Hfit as (_ & Hn & Hreg).
  intros Hin. destruct (Hreg _ Hin) as [_ Hreal]. congruence.
Qed.

Lemma reachable_registry_real_witness :
  2%positive ∈ activeSpans tracer_one_root /\
  tracer_fits tracer_one_root heap_one_root /\
  (noopSpan tracer_one_root ∉ activeSpans tracer_one_root).
Proof.
  split; [unfold tracer_one_root; cbn [activeSpans]; by apply elem_of_singleton_2|].
  apply (reachable_registry_real tracer_one_root heap_one_root).
  apply (reach_StartSpanCtx (NewTracer (mkHeap ∅ ∅)).1 (NewTracer (mkHeap ∅ ∅)).2
           env_some noCtx "op" [opt_ForceRealSpan]
           tracer_one_root heap_one_root noCtx 2%positive).
  - apply reach_NewTracer.
  - vm_compute. reflexivity.
Defined.

(** X16. The log tags of a new real span are those of the options when the
    options give some; else those the context carries; else those of the
    local parent, when there is one and it has a record; else none. *)
Theorem real_span_log_tags t h env ctx operationName os :
  valid_options (apply_options os) ->
  real_span_wanted t h (apply_options os) = true ->
  exists t' h' ctx' s,
    StartSpanCtx t h env ctx operationName os = Returned (t', h', (ctx', s)) /\
    logTags_at h' s = Some (chosen_logTags h ctx (apply_options os)).
Proof.
  intros Hv Hw.
  destruct (StartSpanCtx_cases t h env ctx operationName os Hv)
    as (t' & h' & ctx' & s & -> & [(Hw' & _)|(_ & Hs & Heq)]); [congruence|].
  exists t', h', ctx', s. split; [done|].
  pose proof (startRealSpan_more t h env ctx operationName
                (adjusted t ctx (apply_options os))) as Hm.
  rewrite Heq in Hm. cbn [fst snd] in Hm. rewrite <- Hs in Hm.
  destruct Hm as (_ & _ & _ & _ & Hl & _). rewrite Hl. f_equal.
  destruct (adjusted_fields t ctx (apply_options os)) as (HP & _).
  rewrite adjusted_logTags, HP. unfold chosen_logTags.
  destruct (LogTags_opt (apply_options os)); [done|].
  by destruct (logtags_FromContext ctx).
Qed.

Lemma real_span_log_tags_witness :
  exists t' h' ctx' s,
    StartSpanCtx tracer_plain heap_plain env_some (callerCtx (Some [("n", "1")]))
      "op" [opt_ForceRealSpan]
    = Returned (t', h', (ctx', s)) /\
    logTags_at h' s
    = Some (chosen_logTags heap_plain (callerCtx (Some [("n", "1")]))
              (apply_options [opt_ForceRealSpan])).
Proof.
  apply (real_span_log_tags tracer_plain heap_plain env_some
           (callerCtx (Some [("n", "1")])) "op" [opt_ForceRealSpan]).
  - split; [left; reflexivity | left; reflexivity].
  - reflexivity.
Defined.

(** X17. The sub-spans of a new real span. It has a net-trace sub-span
    exactly when net trace is on. It has a backend sub-span exactly when a
    backend is attached and the parent names no backend type or the type of
    that backend, and this sub-span then has that type: a span is never
    derived through a backend from a parent made by a backend of another
    type. *)
Theorem real_span_sub_spans t h env ctx operationName os :
  valid_options (apply_options os) ->
  real_span_wanted t h (apply_options os) = true ->
  exists t' h' ctx' s,
    StartSpanCtx t h env ctx operationName os = Returned (t', h', (ctx', s)) /\
    has_netTr h' s = Some (useNetTrace t) /\
    shadow_type_at h' s =
      Some (match getShadowTracer t with
            | Some shadowTr =>
                if negb (Opts.shadowTrTyp h (apply_options os)).2
                   || bool_decide ((Opts.shadowTrTyp h (apply_options os)).1
                                   = manager_Name shadowTr)
                then Some (manager_Name shadowTr) else None
            | None => None
            end).
Proof.
  intros Hv Hw.
  destruct (StartSpanCtx_cases t h env ctx operationName os Hv)
    as (t' & h' & ctx' & s & -> & [(Hw' & _)|(_ & Hs & Heq)]); [congruence|].
  exists t', h', ctx', s. split; [done|].
  pose proof (startRealSpan_more t h env ctx operationName
                (adjusted t ctx (apply_options os))) as Hm.
  rewrite Heq in Hm. cbn [fst snd] in Hm. rewrite <- Hs in Hm.
  destruct Hm as (_ & _ & _ & _ & _ & Hsh & Hnt).
  split; [done|]. rewrite Hsh.
  destruct (adjusted_fields t ctx (apply_options os)) as (HP & HR & _).
  unfold Opts.shadowTrTyp. by rewrite HP, HR.
Qed.

Lemma real_span_sub_spans_witness :
  exists t' h' ctx' s,
    StartSpanCtx tracer_zipkin heap_plain env_some noCtx "op"
      [opt_RemoteParent meta_lower]
    = Returned (t', h', (ctx', s)) /\
    has_netTr h' s = Some (useNetTrace tracer_zipkin) /\
    shadow_type_at h' s =
      Some (match getShadowTracer tracer_zipkin with
            | Some shadowTr =>
                if negb (Opts.shadowTrTyp heap_plain
                           (apply_options [opt_RemoteParent meta_lower])).2
                   || bool_decide ((Opts.shadowTrTyp heap_plain
                                      (apply_options [opt_RemoteParent meta_lower])).1
                                   = manager_Name shadowTr)
                then Some (manager_Name shadowTr) else None
            | None => None
            end).
Proof.
  apply (real_span_sub_spans tracer_zipkin heap_plain env_some noCtx "op"
           [opt_RemoteParent meta_lower]).
  - split; [left; reflexivity | left; reflexivity].
  - reflexivity.
Defined.

End span_more.

(** ** The registry seen through VisitSpans *)

Section visit_more.

Context {S : Type}.
Implicit Types (visitor : S -> SpanPtr -> S * option visit_error) (st : S).

Lemma visit_snapshot_all visitor sl :
  (forall st sp, (visitor st sp).2 = None) ->
  forall st, (visit_snapshot visitor st sl).1.2 = sl /\
             (visit_snapshot visitor st sl).2 = None.
Proof.
  intros H. induction sl as [|sp sl IH]; intros st; [done|].
  cbn [visit_snapshot]. specialize (H st sp).
  destruct (visitor st sp) as [st' [e|]]; [done|].
  specialize (IH st'). destruct (visit_snapshot visitor st' sl) as [[st'' called] err].
  cbn in *. destruct IH as [-> ->]. done.
Qed.

(** X18. A visitor that returns no error is called by [VisitSpans] on every
    span of the registry as it was when the snapshot was taken, once on
    each, whatever the visitor does meanwhile; and [VisitSpans] returns no
    error. *)
Theorem VisitSpans_visits_all t sl visitor st :
  registry_snapshot t sl ->
  (forall st sp, (visitor st sp).2 = None) ->
  (VisitSpans t sl visitor st).2 = None /\
  (VisitSpans t sl visitor st).1.2 = sl /\
  NoDup (VisitSpans t sl visitor st).1.2 /\
  forall sp, sp ∈ (VisitSpans t sl visitor st).1.2 <-> sp ∈ activeSpans t.
Proof.
  intros Hsnap Hv. unfold VisitSpans.
  destruct (visit_snapshot_all visitor sl Hv st) as [-> ->].
  unfold registry_snapshot in Hsnap. split_and!; [done | done | |].
  - rewrite Hsnap. apply NoDup_elements.
  - intros sp. rewrite Hsnap. apply elem_of_elements.
Qed.

Lemma visitor_state_snoc visitor st pre sp :
  visitor_state visitor st (pre ++ [sp])
  = (visitor (visitor_state visitor st pre) sp).1.
Proof. unfold visitor_state. by rewrite foldl_app. Qed.

(** X19. The run of [VisitSpans] for any visitor. The visitor is called on
    the spans of the snapshot in order, each call in the state the calls
    before it left. If none of these calls returns an error, it is called on
    the whole snapshot and [VisitSpans] returns no error. Otherwise the
    visit ends with the first call that returns an error: no later span is
    visited, and [VisitSpans] returns that error, unless it is the stop
    sentinel, for which it returns no error. The stop sentinel is never
    returned, and the state left is that of the visitor after its last
    call. *)
Theorem VisitSpans_stops t sl visitor st :
  let r := VisitSpans t sl visitor st in
  r.1.1 = visitor_state visitor st r.1.2 /\
  r.2 <> Some StopIteration /\
  ((r.1.2 = sl /\ r.2 = None /\
    forall pre sp post, sl = (pre ++ sp :: post)%list ->
      answer_after visitor st pre sp = None) \/
   (exists pre sp post e,
      sl = (pre ++ sp :: post)%list /\ r.1.2 = (pre ++ [sp])%list /\
      (forall pre' sp' post', pre = (pre' ++ sp' :: post')%list ->
         answer_after visitor st pre' sp' = None) /\
      answer_after visitor st pre sp = Some e /\
      r.2 = if iterutil_Done e then None else Some e)).
Proof.
  cbv zeta. unfold VisitSpans, answer_after. revert st.
  induction sl as [|sp0 sl IH]; intros st.
  - cbn. split_and!; [done | done |]. left. split_and!; [done | done |].
    intros pre sp post Hsl. by destruct pre.
  - cbn [visit_snapshot]. destruct (visitor st sp0) as [st1 [e|]] eqn:E.
    + assert (Hst : (if iterutil_Done e then (st1, [sp0], @None visit_error)
                     else (st1, [sp0], Some e)).1.1 = st1) by (by destruct e).
      assert (Hcalled : (if iterutil_Done e then (st1, [sp0], @None visit_error)
                         else (st1, [sp0], Some e)).1.2 = [sp0]) by (by destruct e).
      assert (Herr : (if iterutil_Done e then (st1, [sp0], @None visit_error)
                      else (st1, [sp0], Some e)).2
                     = if iterutil_Done e then None else Some e) by (by destruct e).
      rewrite Hst, Hcalled, Herr. split_and!.
      * cbn. by rewrite E.
      * by destruct e.
      * right. exists [], sp0, sl, e. split_and!; [done | done | | | done].
        -- intros pre' sp' post' Hp. by destruct pre'.
        -- cbn. by rewrite E.
    + specialize (IH st1).
      destruct (visit_snapshot visitor st1 sl) as [[st2 called] err].
      cbn [fst snd] in *. destruct IH as (Hst & Hn & Hcase).
      assert (Hrun : forall l, visitor_state visitor st (sp0 :: l)
                               = visitor_state visitor st1 l).
      { intros l. unfold visitor_state. cbn [foldl]. by rewrite E. }
      split_and!; [by rewrite Hrun | done |].
      destruct Hcase as [(-> & -> & Hall)|(pre & sp & post & e & -> & -> & Hpre & He & ->)].
      * left. split_and!; [done | done |].
        intros pre sp post Hsl. destruct pre as [|x pre].
        -- injection Hsl as <- _. cbn. by rewrite E.
        -- injection Hsl as <- Hsl. rewrite Hrun. by apply (Hall pre sp post).
      * right. exists (sp0 :: pre), sp, post, e. split_and!; [done | done | | | done].
        -- intros pre' sp' post' Hp. destruct pre' as [|x pre'].
           ++ injection Hp as <- _. cbn. by rewrite E.
           ++ injection Hp as <- Hp. rewrite Hrun. by apply (Hpre pre' sp' post').
        -- by rewrite Hrun.
Qed.

(** X20. Starting a span and then visiting. With a visitor that returns no
    error, the spans visited after a call of [StartSpanCtx] are those that
    would have been visited before it and, when the call made a real span as
    a local root and was not told to bypass the registry, the new span; in
    every other case they are the same spans. (The registry is taken to hold
    allocated spans.) *)
Theorem VisitSpans_after_StartSpanCtx t h env ctx operationName os visitor st st' :
  activeSpans t ⊆ dom (spans h) ->
  valid_options (apply_options os) ->
  (forall st sp, (visitor st sp).2 = None) ->
  exists t' h' ctx' s,
    StartSpanCtx t h env ctx operationName os = Returned (t', h', (ctx', s)) /\
    forall sl sl', registry_snapshot t sl -> registry_snapshot t' sl' ->
      (VisitSpans t' sl' visitor st').1.2 ≡ₚ
        (if real_span_wanted t h (apply_options os)
            && bool_decide (Parent (apply_options os) = None)
            && negb (BypassRegistry (apply_options os))
         then s :: (VisitSpans t sl visitor st).1.2
         else (VisitSpans t sl visitor st).1.2).
Proof.
  intros Hreg Hv Hvis.
  destruct (StartSpanCtx_cases t h env ctx operationName os Hv)
    as (t' & h' & ctx' & s & -> & Hcase).
  exists t', h', ctx', s. split; [done|].
  intros sl sl' Hsl Hsl'. unfold VisitSpans.
  destruct (visit_snapshot_all visitor sl Hvis st) as [-> _].
  destruct (visit_snapshot_all visitor sl' Hvis st') as [-> _].
  unfold registry_snapshot in *.
  destruct Hcase as [(Hw & -> & -> & _)|(Hw & Hs & Heq)]; rewrite Hw; cbn [andb];
    [by rewrite Hsl, Hsl'|].
  destruct (startRealSpan_facts t h env ctx operationName
              (adjusted t ctx (apply_options os))) as (t2 & h2 & Heq2 & _ & Hact & _).
  rewrite Heq in Heq2. injection Heq2 as <- <- _.
  destruct (adjusted_fields t ctx (apply_options os)) as (HP & _ & HB & _).
  rewrite HP, HB, <- Hs in Hact.
  assert (Hfresh : s ∉ activeSpans t).
  { intros Hin. apply Hreg in Hin. rewrite Hs in Hin. by apply is_fresh in Hin. }
  destruct (decide (Parent (apply_options os) = None /\
                    BypassRegistry (apply_options os) = false)) as [[HP' HB']|Hc].
  - rewrite HP', HB', bool_decide_eq_true_2 by done. cbn [andb negb].
    rewrite Hsl', Hact, Hsl. by apply elements_union_singleton.
  - assert ((bool_decide (Parent (apply_options os) = None)
             && negb (BypassRegistry (apply_options os))) = false) as ->.
    { destruct (Parent (apply_options os)) as [p|]; [done|].
      rewrite bool_decide_eq_true_2 by done.
      destruct (BypassRegistry (apply_options os)); [done|]. by destruct Hc. }
    by rewrite Hsl', Hact, Hsl.
Qed.

End visit_more.

Lemma VisitSpans_visits_all_witness :
  (VisitSpans tracer_one_root [2%positive] collect []).2 = None /\
  (VisitSpans tracer_one_root [2%positive] collect []).1.2 = [2%positive] /\
  NoDup (VisitSpans tracer_one_root [2%positive] collect []).1.2 /\
  forall sp, sp ∈ (VisitSpans tracer_one_root [2%positive] collect []).1.2
             <-> sp ∈ activeSpans tracer_one_root.
Proof.
  apply (VisitSpans_visits_all tracer_one_root [2%positive] collect []).
  - unfold registry_snapshot, tracer_one_root. cbn [activeSpans].
    by rewrite elements_singleton.
  - reflexivity.
Defined.

Lemma VisitSpans_after_StartSpanCtx_witness :
  exists t' h' ctx' s,
    StartSpanCtx tracer_plain heap_plain env_some noCtx "op" [opt_ForceRealSpan]
    = Returned (t', h', (ctx', s)) /\
    forall sl sl', registry_snapshot tracer_plain sl -> registry_snapshot t' sl' ->
      (VisitSpans t' sl' collect []).1.2 ≡ₚ
        (if real_span_wanted tracer_plain heap_plain (apply_options [opt_ForceRealSpan])
            && bool_decide (Parent (apply_options [opt_ForceRealSpan]) = None)
            && negb (BypassRegistry (apply_options [opt_ForceRealSpan]))
         then s :: (VisitSpans tracer_plain sl collect []).1.2
         else (VisitSpans tracer_plain sl collect []).1.2).
Proof.
  apply (VisitSpans_after_StartSpanCtx tracer_plain heap_plain env_some noCtx "op"
           [opt_ForceRealSpan] collect [] []).
  - intros q Hq. unfold tracer_plain in Hq. cbn [activeSpans] in Hq.
    by apply not_elem_of_empty in Hq.
  - split; [left; reflexivity | left; reflexivity].
  - reflexivity.
Defined.

(** ** Configure and Close *)

Section configure_more.

Lemma reconfigure_fields b sv t :
  mode (reconfigure b sv t).1 = int32_of (tracingMode_Get sv) /\
  useNetTrace (reconfigure b sv t).1 = enableNetTrace_Get sv /\
  getShadowTracer (reconfigure b sv t).1 =
    (if negb (String.eqb (lightstepToken_Get sv) EmptyString)
     then createLightStepTracer b (lightstepToken_Get sv)
     else if negb (String.eqb (zipkinCollector_Get sv) EmptyString)
          then createZipkinTracer b (zipkinCollector_Get sv)
          else None) /\
  (reconfigure b sv t).2 = getShadowTracer t.
Proof.
  unfold reconfigure, setShadowTracer, mode, useNetTrace, getShadowTracer.
  destruct (negb (String.eqb (lightstepToken_Get sv) EmptyString));
    [|destruct (negb (String.eqb (zipkinCollector_Get sv) EmptyString))];
    cbn; by destruct (enableNetTrace_Get sv).
Qed.

(** X21. Settings that switch tracing on. After a run of the closure of
    [Configure] on settings that ask for net trace or for Background mode, or
    from which a backend is made (from the token; from the collector address
    only when there is no token), every call of [StartSpanCtx] with valid
    options gives a real span at a newly allocated address, never the no-op
    span. *)
Theorem Configure_on_real_spans b sv t h env ctx operationName os :
  settings_trace b sv ->
  valid_options (apply_options os) ->
  exists t' h' ctx' s,
    StartSpanCtx (reconfigure b sv t).1 h env ctx operationName os
    = Returned (t', h', (ctx', s)) /\
    isNoop h' s = false /\ (s ∉ dom (spans h)) /\ s ∈ dom (spans h').
Proof.
  intros Hon Hv.
  destruct (reconfigure_fields b sv t) as (Hmode & Hnt & Hsh & _).
  set (t1 := (reconfigure b sv t).1) in *.
  assert (Hw : real_span_wanted t1 h (apply_options os) = true).
  { unfold real_span_wanted, AlwaysTrace. rewrite Hmode, Hnt, Hsh.
    destruct Hon as [->|[->|[[Hls [x Hx]]|(Hls & Hzk & [x Hx])]]].
    - by rewrite orb_true_r.
    - done.
    - apply String.eqb_neq in Hls. rewrite Hls, Hx. cbn.
      by rewrite !orb_true_r.
    - apply String.eqb_neq in Hzk. rewrite Hls, Hzk, Hx. cbn.
      by rewrite !orb_true_r. }
  destruct (StartSpanCtx_cases t1 h env ctx operationName os Hv)
    as (t' & h' & ctx' & s & -> & [(Hw' & _)|(_ & Hs & Heq)]); [congruence|].
  exists t', h', ctx', s. split; [done|].
  pose proof (startRealSpan_more t1 h env ctx operationName
                (adjusted t1 ctx (apply_options os))) as Hm.
  destruct (startRealSpan_facts t1 h env ctx operationName
              (adjusted t1 ctx (apply_options os))) as (t2 & h2 & Heq2 & _ & _ & Hids & _).
  rewrite Heq in Heq2. injection Heq2 as <- <- _.
  rewrite Heq in Hm. cbn [fst snd] in Hm. rewrite <- Hs in Hm, Hids.
  destruct Hm as (Hdom & _). split_and!.
  - by rewrite isNoop_ids, Hids.
  - rewrite Hs. apply is_fresh.
  - rewrite Hdom. apply elem_of_union. left. by apply elem_of_singleton.
Qed.

Lemma Configure_on_real_spans_witness :
  exists t' h' ctx' s,
    StartSpanCtx (reconfigure backends_demo values_zipkin tracer_plain).1
      heap_plain env_some noCtx "op" []
    = Returned (t', h', (ctx', s)) /\
    isNoop h' s = false /\ (s ∉ dom (spans heap_plain)) /\ s ∈ dom (spans h').
Proof.
  apply (Configure_on_real_spans backends_demo values_zipkin tracer_plain
           heap_plain env_some noCtx "op" []).
  - right. right. right. split; [reflexivity|]. split; [discriminate|].
    eexists. reflexivity.
  - split; [left; reflexivity | left; reflexivity].
Defined.

(** X22. Settings that switch tracing off. After a run of the closure of
    [Configure] on settings without net trace, without Background mode,
    without token and without collector address, the backend that was
    attached has been closed and none is attached; and a call of
    [StartSpanCtx] that is not forced and has no recording parent gives the
    no-op span and changes neither the tracer nor the heap. *)
Theorem Configure_off_noop_spans b sv t h env ctx operationName os :
  enableNetTrace_Get sv = false ->
  int32_of (tracingMode_Get sv) <> modeBackground ->
  lightstepToken_Get sv = EmptyString ->
  zipkinCollector_Get sv = EmptyString ->
  valid_options (apply_options os) ->
  ForceRealSpan (apply_options os) = false ->
  Opts.recordingType h (apply_options os) = RecordingOff ->
  (reconfigure b sv t).2 = getShadowTracer t /\
  getShadowTracer (reconfigure b sv t).1 = None /\
  exists ctx',
    StartSpanCtx (reconfigure b sv t).1 h env ctx operationName os
    = Returned ((reconfigure b sv t).1, h, (ctx', noopSpan t)).
Proof.
  intros Hnt Hmode Hls Hzk Hv Hf Hrec.
  destruct (reconfigure_fields b sv t) as (Hm & Hn & Hsh & Hcl).
  destruct (reconfigure_registry b sv t) as [Hnoop _].
  rewrite Hls, Hzk in Hsh. cbn in Hsh.
  split; [done|]. split; [done|].
  set (t1 := (reconfigure b sv t).1) in *.
  assert (Hw : real_span_wanted t1 h (apply_options os) = false).
  { unfold real_span_wanted, AlwaysTrace. rewrite Hm, Hn, Hsh, Hnt, Hf, Hrec.
    destruct (Z.eqb_spec (int32_of (tracingMode_Get sv)) modeBackground); done. }
  destruct (StartSpanCtx_cases t1 h env ctx operationName os Hv)
    as (t' & h' & ctx' & s & -> & [(_ & -> & -> & ->)|(Hw' & _)]); [|congruence].
  exists ctx'. by rewrite Hnoop.
Qed.

Lemma Configure_off_noop_spans_witness :
  (reconfigure backends_demo values_off tracer_zipkin).2
  = getShadowTracer tracer_zipkin /\
  getShadowTracer (reconfigure backends_demo values_off tracer_zipkin).1 = None /\
  exists ctx',
    StartSpanCtx (reconfigure backends_demo values_off tracer_zipkin).1
      heap_plain env_some noCtx "op" []
    = Returned ((reconfigure backends_demo values_off tracer_zipkin).1, heap_plain,
                (ctx', noopSpan tracer_zipkin)).
Proof.
  apply (Configure_off_noop_spans backends_demo values_off tracer_zipkin
           heap_plain env_some noCtx "op" []).
  - reflexivity.
  - discriminate.
  - reflexivity.
  - reflexivity.
  - split; [left; reflexivity | left; reflexivity].
  - reflexivity.
  - reflexivity.
Defined.

(** X23. [Close] closes the backend that was attached and leaves none; a
    second [Close] closes nothing. It changes nothing else of the tracer:
    a call of [StartSpanCtx] that still makes a real span afterwards (net
    trace, Background mode, a forced span, a recording parent) makes it
    without a backend sub-span. *)
Theorem Close_detaches_backend t h env ctx operationName os :
  valid_options (apply_options os) ->
  real_span_wanted (Close t).1 h (apply_options os) = true ->
  (Close t).2 = getShadowTracer t /\
  (Close (Close t).1).2 = None /\
  mode (Close t).1 = mode t /\ useNetTrace (Close t).1 = useNetTrace t /\
  activeSpans (Close t).1 = activeSpans t /\
  exists t' h' ctx' s,
    StartSpanCtx (Close t).1 h env ctx operationName os
    = Returned (t', h', (ctx', s)) /\
    isNoop h' s = false /\ shadow_type_at h' s = Some None.
Proof.
  intros Hv Hw. split_and!; try done.
  set (t1 := (Close t).1) in *.
  destruct (StartSpanCtx_cases t1 h env ctx operationName os Hv)
    as (t' & h' & ctx' & s & -> & [(Hw' & _)|(_ & Hs & Heq)]); [congruence|].
  exists t', h', ctx', s. split; [done|].
  pose proof (startRealSpan_more t1 h env ctx operationName
                (adjusted t1 ctx (apply_options os))) as Hm.
  destruct (startRealSpan_facts t1 h env ctx operationName
              (adjusted t1 ctx (apply_options os))) as (t2 & h2 & Heq2 & _ & _ & Hids & _).
  rewrite Heq in Heq2. injection Heq2 as <- <- _.
  rewrite Heq in Hm. cbn [fst snd] in Hm. rewrite <- Hs in Hm, Hids.
  destruct Hm as (_ & _ & _ & _ & _ & Hsh & _). split.
  - by rewrite isNoop_ids, Hids.
  - rewrite Hsh. done.
Qed.

Lemma Close_detaches_backend_witness :
  (Close tracer_zipkin).2 = getShadowTracer tracer_zipkin /\
  (Close (Close tracer_zipkin).1).2 = None /\
  mode (Close tracer_zipkin).1 = mode tracer_zipkin /\
  useNetTrace (Close tracer_zipkin).1 = useNetTrace tracer_zipkin /\
  activeSpans (Close tracer_zipkin).1 = activeSpans tracer_zipkin /\
  exists t' h' ctx' s,
    StartSpanCtx (Close tracer_zipkin).1 heap_plain env_some noCtx "op"
      [opt_ForceRealSpan]
    = Returned (t', h', (ctx', s)) /\
    isNoop h' s = false /\ shadow_type_at h' s = Some None.
Proof.
  apply (Close_detaches_backend tracer_zipkin heap_plain env_some noCtx "op"
           [opt_ForceRealSpan]).
  - split; [left; reflexivity | left; reflexivity].
  - reflexivity.
Defined.

End configure_more.

(** ** Carriers at the edge *)

Section carrier_edges.

(** X24. A [MapCarrier] whose map is nil can be read but not written:
    [ExtractMetaFrom] finds nothing in it and returns the no-tracing
    SpanMeta without an error, and [InjectMetaInto] panics on it at the
    first [Set], for any SpanMeta that it does not take for no-tracing. *)
Theorem nil_MapCarrier_reads_not_writes t sm :
  isNilOrNoop (Some sm) = false ->
  (exists msg, InjectMetaInto t (Some sm) (MapCarrier None) = Panicked msg) /\
  (forall order, ForEachOrder (MapCarrier None) order ->
     ExtractMetaFrom t (MapCarrier None) order = (noopSpanMeta, None)).
Proof.
  intros Hn. split.
  - unfold InjectMetaInto. rewrite Hn. cbn. eauto.
  - intros order Ho. unfold ForEachOrder in Ho. cbn in Ho.
    rewrite map_to_list_empty in Ho. apply Permutation_nil_r in Ho as ->.
    reflexivity.
Qed.

Lemma nil_MapCarrier_reads_not_writes_witness :
  (exists msg, InjectMetaInto tracer_plain (Some meta_lower) (MapCarrier None)
               = Panicked msg) /\
  (forall order, ForEachOrder (MapCarrier None) order ->
     ExtractMetaFrom tracer_plain (MapCarrier None) order = (noopSpanMeta, None)).
Proof.
  apply (nil_MapCarrier_reads_not_writes tracer_plain meta_lower).
  reflexivity.
Defined.

End carrier_edges.

